(** * Credit switcher plugin: a shallow embedding and its properties

    The development follows [.opencode/plugins/credit-switcher.js]:

    - JavaScript values, the string primitives and the coercions the plugin
      relies on ([JsVal], [truthy], [ToString], [ToNumber], [JSON_stringify]);
    - the pure helpers ([parseModel], [modelToString], [modelsEqual],
      [isCreditExhausted] and the extractors);
    - the host as an oracle answering the calls made through [client] (and
      the state file write), with a trace of every call issued;
    - the event handler returned by [CreditSwitcher] and [runRestoreCheck];
    - the properties of the decision engine and of the restore sweep.

    Modelling conventions.  Strings are byte strings and case folding is the
    ASCII one; numbers are integers (statuses, millisecond timestamps, whole
    hours).  Events and host responses are untyped values; the configuration
    and the persisted state are the typed records of the data model, and
    [sessions] lists the entries of the object, whose keys are distinct, in
    insertion order.  Every [await]ed handler runs to completion before the
    next one starts.  [Date.now()] is the argument [now] of the handler and of
    the sweep.  The [extra] payload of a log entry is not recorded. *)

From Stdlib Require Import String Ascii List ZArith Bool Lia.
Import ListNotations.
Local Open Scope string_scope.
Local Open Scope Z_scope.

(** ** JavaScript values *)

#[warnings="-register-all"]
Inductive JsVal : Type :=
| JUndefined
| JNull
| JBool (b : bool)
| JNum (n : Z)
| JStr (s : string)
| JArr (items : list JsVal)
| JObj (fields : list (string * JsVal)).

(** [Boolean(v)], the test behind [!v], [a || b], [a && b] and
    [filter(Boolean)]. *)
Definition truthy (v : JsVal) : bool :=
  match v with
  | JUndefined | JNull => false
  | JBool b => b
  | JNum n => negb (n =? 0)
  | JStr s => negb (s =? "")%string
  | JArr _ | JObj _ => true
  end.

Definition nullish (v : JsVal) : bool :=
  match v with
  | JUndefined | JNull => true
  | _ => false
  end.

(** [a || b] and [a ?? b] on values. *)
Definition js_or (a b : JsVal) : JsVal := if truthy a then a else b.
Definition js_coalesce (a b : JsVal) : JsVal := if nullish a then b else a.

Fixpoint lookup (k : string) (fields : list (string * JsVal)) : JsVal :=
  match fields with
  | [] => JUndefined
  | (k', v) :: rest => if (k =? k')%string then v else lookup k rest
  end.

(** [v?.k], and [v.k] for a [v] that is neither [null] nor [undefined].
    None of the property names the plugin reads this way exists on a
    primitive or on an array. *)
Definition prop (v : JsVal) (k : string) : JsVal :=
  match v with
  | JObj fields => lookup k fields
  | _ => JUndefined
  end.

(** [a === b]: arrays and objects are compared by identity, and the values
    compared here come from different sources, so they are never identical. *)
Definition strict_eq (a b : JsVal) : bool :=
  match a, b with
  | JUndefined, JUndefined => true
  | JNull, JNull => true
  | JBool x, JBool y => Bool.eqb x y
  | JNum x, JNum y => x =? y
  | JStr x, JStr y => (x =? y)%string
  | _, _ => false
  end.

Definition is_string (v : JsVal) : bool :=
  match v with JStr _ => true | _ => false end.

Definition is_boolean (v : JsVal) : bool :=
  match v with JBool _ => true | _ => false end.

Definition is_array (v : JsVal) : bool :=
  match v with JArr _ => true | _ => false end.

(** ** String primitives *)

Definition lower_ascii (c : ascii) : ascii :=
  let n := nat_of_ascii c in
  if ((65 <=? n) && (n <=? 90))%nat then ascii_of_nat (n + 32) else c.

Fixpoint toLowerCase (s : string) : string :=
  match s with
  | EmptyString => EmptyString
  | String c r => String (lower_ascii c) (toLowerCase r)
  end.

Definition is_space (c : ascii) : bool :=
  let n := nat_of_ascii c in
  ((n =? 32) || ((9 <=? n) && (n <=? 13)))%nat.

Fixpoint trim_start (s : string) : string :=
  match s with
  | String c r => if is_space c then trim_start r else s
  | EmptyString => EmptyString
  end.

Fixpoint trim_end (s : string) : string :=
  match s with
  | EmptyString => EmptyString
  | String c r =>
      match trim_end r with
      | EmptyString => if is_space c then EmptyString else String c EmptyString
      | r' => String c r'
      end
  end.

Definition trim (s : string) : string := trim_end (trim_start s).

(** [s.includes(t)]. *)
Fixpoint includes (s t : string) : bool :=
  prefix t s ||
  match s with
  | EmptyString => false
  | String _ r => includes r t
  end.

(** [s.split(sep)] for a one-character separator, and [parts.join(sep)]. *)
Fixpoint split (sep : ascii) (s : string) : list string :=
  match s with
  | EmptyString => [EmptyString]
  | String c r =>
      if Ascii.eqb c sep then EmptyString :: split sep r
      else match split sep r with
           | h :: t => String c h :: t
           | [] => [String c EmptyString]
           end
  end.

Fixpoint join (sep : string) (parts : list string) : string :=
  match parts with
  | [] => EmptyString
  | [p] => p
  | p :: rest => p ++ sep ++ join sep rest
  end.

(** Decimal rendering of a number. *)
Fixpoint digits_of_pos (fuel : nat) (n : Z) (acc : string) : string :=
  match fuel with
  | O => acc
  | S fuel' =>
      let d := ascii_of_nat (48 + Z.to_nat (n mod 10)) in
      if n <? 10 then String d acc
      else digits_of_pos fuel' (n / 10) (String d acc)
  end.

Definition number_to_string (n : Z) : string :=
  if n <? 0 then "-" ++ digits_of_pos (S (Z.to_nat (Z.log2 (- n)))) (- n) ""
  else digits_of_pos (S (Z.to_nat (Z.log2 n))) n "".

(** Reading of a decimal literal: [None] is [NaN]. *)
Fixpoint digits_value (s : string) (acc : Z) : option Z :=
  match s with
  | EmptyString => Some acc
  | String c r =>
      let n := nat_of_ascii c in
      if ((48 <=? n) && (n <=? 57))%nat
      then digits_value r (acc * 10 + Z.of_nat (n - 48))
      else None
  end.

Definition unsigned_value (s : string) : option Z :=
  match s with
  | EmptyString => None
  | _ => digits_value s 0
  end.

(** [Number(s)] on a string: surrounding white space is dropped, the empty
    string is [0], a signed decimal integer is its value, anything else is
    [NaN] (fractions, exponents and radix prefixes are outside the integer
    model). *)
Definition string_to_number (s : string) : option Z :=
  match trim s with
  | EmptyString => Some 0
  | String "-" r => option_map Z.opp (unsigned_value r)
  | String "+" r => unsigned_value r
  | t => unsigned_value t
  end.

(** ** Coercions and serialisation *)

(** [String(v)], also the conversion applied by a template literal. *)
Fixpoint ToString (v : JsVal) : string :=
  match v with
  | JUndefined => "undefined"
  | JNull => "null"
  | JBool true => "true"
  | JBool false => "false"
  | JNum n => number_to_string n
  | JStr s => s
  | JArr items =>
      join "," (map (fun x => if nullish x then "" else ToString x) items)
  | JObj _ => "[object Object]"
  end.

(** [Number(v)]; [None] stands for a result that is not finite. *)
Definition ToNumber (v : JsVal) : option Z :=
  match v with
  | JUndefined => None
  | JNull => Some 0
  | JBool b => Some (if b then 1 else 0)
  | JNum n => Some n
  | JStr s => string_to_number s
  | JArr _ => string_to_number (ToString v)
  | JObj _ => None
  end.

Definition hex_digit (n : nat) : ascii :=
  ascii_of_nat (if (n <? 10)%nat then 48 + n else 87 + n).

Definition dquote : ascii := ascii_of_nat 34.

(** The escape [JSON.stringify] writes for one character of a string. *)
Definition escape_char (c : ascii) : string :=
  let n := nat_of_ascii c in
  if (n =? 34)%nat then String "\" (String dquote "")
  else if (n =? 92)%nat then "\\"
  else if (n =? 8)%nat then "\b"
  else if (n =? 9)%nat then "\t"
  else if (n =? 10)%nat then "\n"
  else if (n =? 12)%nat then "\f"
  else if (n =? 13)%nat then "\r"
  else if (n <? 32)%nat
       then "\u00" ++ String (hex_digit (n / 16)) (String (hex_digit (n mod 16)) "")
  else String c "".

Fixpoint escape (s : string) : string :=
  match s with
  | EmptyString => EmptyString
  | String c r => escape_char c ++ escape r
  end.

Definition quote (s : string) : string :=
  String dquote (escape s ++ String dquote "").

(** [JSON.stringify(v)]; [None] is the result [undefined].  A member whose
    value is [undefined] is left out of an object and written [null] in an
    array. *)
Fixpoint JSON_stringify (v : JsVal) : option string :=
  match v with
  | JUndefined => None
  | JNull => Some "null"
  | JBool true => Some "true"
  | JBool false => Some "false"
  | JNum n => Some (number_to_string n)
  | JStr s => Some (quote s)
  | JArr items =>
      Some ("[" ++ join ","
              (map (fun x => match JSON_stringify x with
                             | Some t => t
                             | None => "null"
                             end) items) ++ "]")
  | JObj fields =>
      Some ("{" ++ join ","
              (flat_map (fun kv : string * JsVal => let (k, x) := kv in
                                   match JSON_stringify x with
                                   | Some t => [quote k ++ ":" ++ t]
                                   | None => []
                                   end) fields) ++ "}")
  end.

(** ** Model references *)

Record ModelRef : Type := mkModelRef {
  providerId : JsVal;
  modelId : JsVal
}.

(** [parseModel(value)]. *)
Definition parseModel (value : JsVal) : option ModelRef :=
  match value with
  | JStr s =>
      if negb (truthy value) then None
      else
        let parts := split "/" s in
        if (length parts <? 2)%nat then None
        else Some {| providerId := JStr (hd EmptyString parts);
                     modelId := JStr (join "/" (tl parts)) |}
  | _ => None
  end.

(** [modelToString(model)] on [null] or a model object, the only arguments
    the plugin passes. *)
Definition modelToString (model : option ModelRef) : option string :=
  match model with
  | None => None
  | Some m =>
      if truthy (providerId m) && truthy (modelId m)
      then Some (ToString (providerId m) ++ "/" ++ ToString (modelId m))
      else None
  end.

(** [modelsEqual(a, b)]. *)
Definition modelsEqual (a b : option ModelRef) : bool :=
  match a, b with
  | Some x, Some y =>
      strict_eq (providerId x) (providerId y) && strict_eq (modelId x) (modelId y)
  | _, _ => false
  end.

(** ** Configuration *)

(** The normalised configuration, one field per leaf of the JSON file. *)
Record Config : Type := mkConfig {
  enabled : bool;
  primaryModel : string;
  fallbackModel : string;
  licensing_requireProviders : list string;
  restore_enabled : bool;
  restore_intervalHours : Z;
  fallback_onStatus : list Z;
  fallback_onErrorCodes : list string;
  fallback_onMessageMatches : list string;
  notifications_toastOnFallback : bool;
  notifications_toastOnRestore : bool;
  notifications_confirmOnFallback : bool
}.

Definition DAY_MS : Z := 24 * 60 * 60 * 1000.

Definition DEFAULT_CONFIG : Config :=
  {| enabled := true;
     primaryModel := "azure-openai/<deployment-name>";
     fallbackModel := "llama.cpp/qwen3-coder:a3b";
     licensing_requireProviders := ["azure-openai"; "github-copilot"];
     restore_enabled := true;
     restore_intervalHours := 24;
     fallback_onStatus := [402; 429];
     fallback_onErrorCodes :=
       ["CREDITS_EXHAUSTED"; "ACCOUNT_LIMIT_REACHED"; "QUOTA_EXCEEDED"];
     fallback_onMessageMatches :=
       ["credit"; "quota"; "insufficient"; "exceeded"; "payment"; "limit"];
     notifications_toastOnFallback := true;
     notifications_toastOnRestore := true;
     notifications_confirmOnFallback := false |}.

(** ** Classification of an event *)

(** The first candidate a [for ... of] loop returns on. *)
Fixpoint first_candidate {A : Type} (pick : JsVal -> option A)
    (candidates : list JsVal) : option A :=
  match candidates with
  | [] => None
  | value :: rest =>
      match pick value with
      | Some a => Some a
      | None => first_candidate pick rest
      end
  end.

(** The four places a field [k] of the error is looked for. *)
Definition error_candidates (event : JsVal) (k : string) : list JsVal :=
  [ prop (prop (prop event "properties") "error") k;
    prop (prop event "properties") k;
    prop (prop event "error") k;
    prop event k ].

(** [extractStatus(event)]; [None] is [null]. *)
Definition extractStatus (event : JsVal) : option Z :=
  first_candidate ToNumber (error_candidates event "status").

Definition nonblank_string (value : JsVal) : option string :=
  match value with
  | JStr s => if negb (trim s =? "")%string then Some s else None
  | _ => None
  end.

(** [extractCode(event)]; [None] is [null]. *)
Definition extractCode (event : JsVal) : option string :=
  first_candidate (fun value => option_map trim (nonblank_string value))
                  (error_candidates event "code").

(** [extractText(event)]: a message when there is one, the whole payload
    otherwise; the [catch] covers [JSON.stringify] returning [undefined]. *)
Definition extractText (event : JsVal) : string :=
  match first_candidate (fun value => option_map toLowerCase (nonblank_string value))
                        (error_candidates event "message") with
  | Some text => text
  | None =>
      match JSON_stringify event with
      | Some text => toLowerCase text
      | None => ""
      end
  end.

(** [extractSessionId(event)]; [None] is [null]. *)
Definition extractSessionId (event : JsVal) : option string :=
  first_candidate (fun value => option_map trim (nonblank_string value))
    [ prop (prop (prop event "properties") "session") "id";
      prop (prop event "properties") "sessionId";
      prop (prop event "properties") "id";
      prop (prop event "session") "id";
      prop event "sessionId";
      prop event "id" ].

Definition nonempty (s : string) : bool := negb (s =? "")%string.

(** [isCreditExhausted(event, config)]. *)
Definition isCreditExhausted (event : JsVal) (config : Config) : bool :=
  let status := extractStatus event in
  let code := extractCode event in
  let text := extractText event in
  let statusMatches :=
    existsb (fun value => match status with
                          | Some n => value =? n
                          | None => false
                          end) (fallback_onStatus config) in
  let codeMatches :=
    match code with
    | Some c =>
        nonempty c &&
        existsb (fun value => (toLowerCase value =? toLowerCase c)%string)
                (fallback_onErrorCodes config)
    | None => false
    end in
  let textMatches :=
    nonempty text &&
    existsb (fun value => includes text (toLowerCase value))
            (fallback_onMessageMatches config) in
  statusMatches || codeMatches || textMatches.

(** ** Persisted state *)

Module FallbackRecord.
(** One entry of [stateData.sessions]; [None] is an absent field. *)
Record t : Type := mk {
  exhaustedAt : option Z;
  lastFallbackAt : option Z;
  originalModel : option string;
  fallbackModel : option string;
  restoredAt : option Z;
  lastRestoreAttemptAt : option Z
}.
End FallbackRecord.

(** [sessions] keeps the entries in the order [Object.entries] lists them
    (insertion order for session ids). *)
Record PersistedState : Type := mkPersistedState {
  sessions : list (string * FallbackRecord.t);
  lastCheckAt : Z
}.

(** [sessions[sessionId] = record]. *)
Fixpoint set_session (sessionId : string) (record : FallbackRecord.t)
    (entries : list (string * FallbackRecord.t)) : list (string * FallbackRecord.t) :=
  match entries with
  | [] => [(sessionId, record)]
  | (k, r) :: rest =>
      if (k =? sessionId)%string then (k, record) :: rest
      else (k, r) :: set_session sessionId record rest
  end.

Fixpoint get_session (sessionId : string)
    (entries : list (string * FallbackRecord.t)) : option FallbackRecord.t :=
  match entries with
  | [] => None
  | (k, r) :: rest =>
      if (k =? sessionId)%string then Some r else get_session sessionId rest
  end.

(** The [state] object of [CreditSwitcher] (the timer handle left out). *)
Record PluginState : Type := mkPluginState {
  config : Config;
  configPath : option string;
  statePath : option string;
  stateData : option PersistedState;
  attemptedSessions : list string
}.

(** [attemptedSessions.has(id)] and [attemptedSessions.add(id)]. *)
Definition has (ids : list string) (id : string) : bool :=
  existsb (String.eqb id) ids.

Definition add (ids : list string) (id : string) : list string :=
  if has ids id then ids else ids ++ [id].

(** ** The host *)

(** The calls that leave the plugin: the [client] API, and [Bun.mkdir] (of
    the directory of [statePath]) and [Bun.write] for the state file. *)
Inductive Call : Type :=
| ConfigProviders
| SessionGet (id : string)
| SessionMessages (id : string)
| SessionPrompt (id : string) (providerID modelID : JsVal) (parts : JsVal)
| SessionUpdate (id : string) (providerID modelID : JsVal)
| TuiShowToast (message variant : string)
| TuiShowConfirm
| AppLog (level message : string)
| BunMkdir (statePath : string)
| BunWrite (statePath : string) (data : PersistedState).

Inductive Reply : Type :=
| Returned (response : JsVal)
| Thrown.

(** [reply n c] is the outcome of call [c] when [n] calls were issued before
    it; [tui_showConfirm] tells whether [client.tui.showConfirm] exists. *)
Record Host : Type := mkHost {
  reply : nat -> Call -> Reply;
  tui_showConfirm : bool
}.

Record World : Type := mkWorld {
  plugin : PluginState;
  trace : list Call
}.

(** ** Computations: state, trace and exceptions *)

Inductive Res (A : Type) : Type :=
| Ok (a : A)
| Exn.
Arguments Ok {A} a.
Arguments Exn {A}.

Definition M (A : Type) : Type := World -> Res A * World.

Definition ret {A : Type} (a : A) : M A := fun w => (Ok a, w).

Definition bind {A B : Type} (m : M A) (k : A -> M B) : M B :=
  fun w =>
    match m w with
    | (Ok a, w') => k a w'
    | (Exn, w') => (Exn, w')
    end.

Definition throw {A : Type} : M A := fun w => (Exn, w).

(** [try { body } catch { handler }]. *)
Definition try_catch {A : Type} (body handler : M A) : M A :=
  fun w =>
    match body w with
    | (Ok a, w') => (Ok a, w')
    | (Exn, w') => handler w'
    end.

Definition get_plugin : M PluginState := fun w => (Ok (plugin w), w).

Definition modify (f : PluginState -> PluginState) : M unit :=
  fun w => (Ok tt, {| plugin := f (plugin w); trace := trace w |}).

Declare Scope js_scope.
Delimit Scope js_scope with js.
Notation "x <- m ;; k" := (bind m (fun x => k))
  (at level 100, m at next level, right associativity) : js_scope.
Notation "m ;;; k" := (bind m (fun _ => k))
  (at level 100, right associativity) : js_scope.
Local Open Scope js_scope.

Definition with_attempted (sessionId : string) (s : PluginState) : PluginState :=
  {| config := config s; configPath := configPath s; statePath := statePath s;
     stateData := stateData s;
     attemptedSessions := add (attemptedSessions s) sessionId |}.

Definition with_stateData (d : option PersistedState) (s : PluginState) : PluginState :=
  {| config := config s; configPath := configPath s; statePath := statePath s;
     stateData := d;
     attemptedSessions := attemptedSessions s |}.

(** The world once call [c] has been issued. *)
Definition push (c : Call) (w : World) : World :=
  {| plugin := plugin w; trace := trace w ++ [c] |}.

Section Plugin.

Variable host : Host.

(** An awaited call: it is recorded, then it returns or throws. *)
Definition call (c : Call) : M JsVal :=
  fun w =>
    match reply host (length (trace w)) c with
    | Returned response => (Ok response, push c w)
    | Thrown => (Exn, push c w)
    end.

(** [safeLog(client, level, message, extra)]. *)
Definition safeLog (level message : string) : M unit :=
  try_catch (call (AppLog level message) ;;; ret tt) (ret tt).

(** [saveState(statePath, stateData, client)] for a loaded [stateData]. *)
Definition saveState (path : option string) (data : PersistedState) : M unit :=
  match path with
  | Some p =>
      if nonempty p then
        try_catch (call (BunMkdir p) ;;; call (BunWrite p data) ;;; ret tt)
                  (safeLog "error" "Failed to save state")
      else ret tt
  | None => ret tt
  end.

(** [response?.data ?? response]. *)
Definition payload_of (response : JsVal) : JsVal :=
  js_coalesce (prop response "data") response.

(** [getProviders(client)]. *)
Definition getProviders : M JsVal :=
  try_catch
    (response <- call ConfigProviders ;;
     ret (js_or (prop (payload_of response) "providers") (JArr [])))
    (ret (JArr [])).

(** [v.length] for a [v] that is neither [null] nor [undefined]. *)
Definition length_of (v : JsVal) : JsVal :=
  match v with
  | JArr items => JNum (Z.of_nat (List.length items))
  | JStr s => JNum (Z.of_nat (String.length s))
  | JObj fields => lookup "length" fields
  | _ => JUndefined
  end.

(** [provider.id || provider.providerID || provider.name], and the [map]
    of it over [providers]; [None] is the [TypeError] of reading a property
    of [null] or [undefined]. *)
Definition provider_name (provider : JsVal) : JsVal :=
  js_or (prop provider "id")
    (js_or (prop provider "providerID") (prop provider "name")).

Fixpoint provider_names (providers : list JsVal) : option (list JsVal) :=
  match providers with
  | [] => Some []
  | provider :: rest =>
      if nullish provider then None
      else
        match provider_names rest with
        | Some names => Some (provider_name provider :: names)
        | None => None
        end
  end.

(** The rest of the chain: [.filter(Boolean).map((value) =>
    String(value).toLowerCase())]. *)
Definition provider_ids (names : list JsVal) : list string :=
  map (fun value => toLowerCase (ToString value)) (filter truthy names).

(** [required.every((value) => ids.includes(String(value).toLowerCase()))]. *)
Definition all_required (required ids : list string) : bool :=
  forallb (fun value => existsb (String.eqb (toLowerCase value)) ids) required.

(** [hasRequiredProviders(client, config)].  A truthy [length] on something
    that is not an array makes [providers.map] a [TypeError]. *)
Definition hasRequiredProviders (config : Config) : M bool :=
  let required := licensing_requireProviders config in
  match required with
  | [] => ret true
  | _ =>
      providers <- getProviders ;;
      if negb (truthy (length_of providers)) then ret false
      else
        match providers with
        | JArr items =>
            match provider_names items with
            | Some names => ret (all_required required (provider_ids names))
            | None => throw
            end
        | _ => throw
        end
  end.

(** The model of a session payload, as [getSessionModel] reads it. *)
Definition session_model (response : JsVal) : option ModelRef :=
  let session := payload_of response in
  let model :=
    js_or (prop session "model")
      (js_or (prop (prop session "config") "model")
             (prop (prop session "current") "model")) in
  if negb (truthy model) then None
  else if is_string model then parseModel model
  else
    let providerId :=
      js_or (prop model "providerID")
        (js_or (prop model "providerId") (prop model "provider")) in
    let modelId :=
      js_or (prop model "modelID") (js_or (prop model "modelId") (prop model "id")) in
    if truthy providerId && truthy modelId
    then Some {| providerId := providerId; modelId := modelId |}
    else None.

(** [getSessionModel(client, sessionId)]. *)
Definition getSessionModel (sessionId : string) : M (option ModelRef) :=
  try_catch
    (response <- call (SessionGet sessionId) ;; ret (session_model response))
    (ret None).

(** [setSessionModel(client, sessionId, model)]. *)
Definition setSessionModel (sessionId : string) (model : option ModelRef) : M bool :=
  match model with
  | None => ret false
  | Some m =>
      try_catch
        (call (SessionUpdate sessionId (providerId m) (modelId m)) ;;; ret true)
        (ret false)
  end.

(** The test of the loop body of [getLastUserMessage]. *)
Definition is_user_entry (entry : JsVal) : bool :=
  let info := js_or (prop entry "info") (js_or (prop entry "message") (JObj [])) in
  let role := js_or (prop info "role") (js_or (prop info "type") (prop info "kind")) in
  let isUser :=
    strict_eq role (JStr "user") || strict_eq role (JStr "UserMessage")
    || strict_eq (prop info "user") (JBool true) in
  isUser && is_array (prop entry "parts") && truthy (length_of (prop entry "parts")).

(** The scan from the last message down to the first. *)
Definition last_user_entry (response : JsVal) : option JsVal :=
  match payload_of response with
  | JArr messages => find is_user_entry (rev messages)
  | _ => None
  end.

(** [getLastUserMessage(client, sessionId)]. *)
Definition getLastUserMessage (sessionId : string) : M (option JsVal) :=
  try_catch
    (response <- call (SessionMessages sessionId) ;; ret (last_user_entry response))
    (ret None).

(** What the body of the [try] of [confirmFallback] returns, if it does. *)
Definition confirm_answer (response : JsVal) : option bool :=
  let payload := payload_of response in
  match payload with
  | JBool b => Some b
  | _ =>
      let confirmed :=
        js_coalesce (prop payload "confirmed")
          (js_coalesce (prop payload "accepted")
             (js_coalesce (prop payload "value")
                (js_coalesce (prop payload "ok") (prop payload "success")))) in
      match confirmed with
      | JBool b => Some b
      | _ => None
      end
  end.

(** [confirmFallback({ client, config, sessionId, fallbackModel })]. *)
Definition confirmFallback (config : Config) : M bool :=
  if negb (notifications_confirmOnFallback config) then ret true
  else if negb (tui_showConfirm host) then ret true
  else
    answer <- try_catch
                (response <- call TuiShowConfirm ;; ret (confirm_answer response))
                (safeLog "debug" "Confirm prompt failed" ;;; ret None) ;;
    ret match answer with
        | Some b => b
        | None => true
        end.

End Plugin.

(** ** The decision engine *)

(** What the handler has gathered when it reaches [confirmFallback]. *)
Record Plan : Type := mkPlan {
  plan_sessionId : string;
  plan_primaryModel : option ModelRef;
  plan_fallbackModel : ModelRef;
  plan_sessionModel : option ModelRef;
  plan_lastUserMessage : JsVal
}.

(** [primaryModel && sessionModel && sessionModel.providerId] and then
    [sessionModel.providerId !== primaryModel.providerId]. *)
Definition provider_mismatch (primary session : option ModelRef) : bool :=
  match primary, session with
  | Some p, Some s =>
      truthy (providerId s) && negb (strict_eq (providerId s) (providerId p))
  | _, _ => false
  end.

(** [sessionModel || primaryModel]. *)
Definition model_or (a b : option ModelRef) : option ModelRef :=
  match a with
  | Some _ => a
  | None => b
  end.

(** The record the handler stores in [stateData.sessions[sessionId]]. *)
Definition fallback_record (now : Z) (p : Plan) : FallbackRecord.t :=
  {| FallbackRecord.exhaustedAt := Some now;
     FallbackRecord.lastFallbackAt := Some now;
     FallbackRecord.originalModel :=
       modelToString (model_or (plan_sessionModel p) (plan_primaryModel p));
     FallbackRecord.fallbackModel := modelToString (Some (plan_fallbackModel p));
     FallbackRecord.restoredAt := None;
     FallbackRecord.lastRestoreAttemptAt := None |}.

Section Engine.

Variable host : Host.

(** The handler up to, and without, the call of [confirmFallback]: [None]
    when it has returned. *)
Definition fallback_checks (event : JsVal) : M (option Plan) :=
  if negb (truthy event)
     || negb (strict_eq (prop event "type") (JStr "session.error"))
  then ret None
  else
    state <- get_plugin ;;
    if negb (enabled (config state)) then ret None
    else
      let config := config state in
      if negb (isCreditExhausted event config) then ret None
      else
        match extractSessionId event with
        | None => safeLog host "warn" "Credit error without session id" ;;; ret None
        | Some sessionId =>
            if negb (nonempty sessionId)
            then safeLog host "warn" "Credit error without session id" ;;; ret None
            else
              state <- get_plugin ;;
              if has (attemptedSessions state) sessionId then ret None
              else
                licensed <- hasRequiredProviders host config ;;
                if negb licensed
                then safeLog host "warn"
                       "Required providers not configured; skipping fallback" ;;;
                     ret None
                else
                  let primaryModel := parseModel (JStr (primaryModel config)) in
                  match parseModel (JStr (fallbackModel config)) with
                  | None =>
                      safeLog host "error" "Invalid fallbackModel in config" ;;;
                      ret None
                  | Some fallbackModel =>
                      sessionModel <- getSessionModel host sessionId ;;
                      if provider_mismatch primaryModel sessionModel then ret None
                      else
                        lastUserMessage <- getLastUserMessage host sessionId ;;
                        match lastUserMessage with
                        | None =>
                            safeLog host "warn" "No user message to retry" ;;;
                            ret None
                        | Some entry =>
                            ret (Some {| plan_sessionId := sessionId;
                                         plan_primaryModel := primaryModel;
                                         plan_fallbackModel := fallbackModel;
                                         plan_sessionModel := sessionModel;
                                         plan_lastUserMessage := entry |})
                        end
                  end
        end.

(** The handler from [confirmFallback] on. *)
Definition offer_fallback (now : Z) (p : Plan) : M unit :=
  state <- get_plugin ;;
  let config := config state in
  let sessionId := plan_sessionId p in
  shouldRetry <- confirmFallback host config ;;
  if negb shouldRetry
  then
    modify (with_attempted sessionId) ;;;
    safeLog host "info" "User declined fallback retry"
  else
    modify (with_attempted sessionId) ;;;
    safeLog host "info" "Retrying with fallback model" ;;;
    state <- get_plugin ;;
    match stateData state with
    | Some data =>
        let data' :=
          {| sessions := set_session sessionId (fallback_record now p) (sessions data);
             lastCheckAt := lastCheckAt data |} in
        modify (with_stateData (Some data')) ;;;
        saveState host (statePath state) data'
    | None => ret tt
    end ;;;
    call host (SessionPrompt sessionId
                 (providerId (plan_fallbackModel p))
                 (modelId (plan_fallbackModel p))
                 (prop (plan_lastUserMessage p) "parts")) ;;;
    if notifications_toastOnFallback config
    then try_catch
           (call host (TuiShowToast "Credits exhausted. Switched to fallback model."
                         "warning") ;;; ret tt)
           (safeLog host "debug" "Toast failed")
    else ret tt.

(** The [event] hook returned by [CreditSwitcher]. *)
Definition event_handler (now : Z) (event : JsVal) : M unit :=
  plan <- fallback_checks event ;;
  match plan with
  | Some p => offer_fallback now p
  | None => ret tt
  end.

End Engine.

(** ** The restore sweep *)

Definition with_restoredAt (now : Z) (r : FallbackRecord.t) : FallbackRecord.t :=
  {| FallbackRecord.exhaustedAt := FallbackRecord.exhaustedAt r;
     FallbackRecord.lastFallbackAt := FallbackRecord.lastFallbackAt r;
     FallbackRecord.originalModel := FallbackRecord.originalModel r;
     FallbackRecord.fallbackModel := FallbackRecord.fallbackModel r;
     FallbackRecord.restoredAt := Some now;
     FallbackRecord.lastRestoreAttemptAt := FallbackRecord.lastRestoreAttemptAt r |}.

Definition with_lastRestoreAttemptAt (now : Z) (r : FallbackRecord.t) : FallbackRecord.t :=
  {| FallbackRecord.exhaustedAt := FallbackRecord.exhaustedAt r;
     FallbackRecord.lastFallbackAt := FallbackRecord.lastFallbackAt r;
     FallbackRecord.originalModel := FallbackRecord.originalModel r;
     FallbackRecord.fallbackModel := FallbackRecord.fallbackModel r;
     FallbackRecord.restoredAt := FallbackRecord.restoredAt r;
     FallbackRecord.lastRestoreAttemptAt := Some now |}.

(** [stored || configured] on a stored model string. *)
Definition string_or (stored : option string) (configured : string) : JsVal :=
  match stored with
  | Some s => if nonempty s then JStr s else JStr configured
  | None => JStr configured
  end.

(** The two models the sweep parses for a record. *)
Definition record_originalModel (config : Config) (record : FallbackRecord.t)
  : option ModelRef :=
  parseModel (string_or (FallbackRecord.originalModel record) (primaryModel config)).

Definition record_fallbackModel (config : Config) (record : FallbackRecord.t)
  : option ModelRef :=
  parseModel (string_or (FallbackRecord.fallbackModel record) (fallbackModel config)).

(** [Number(record?.exhaustedAt || 0)]. *)
Definition record_exhaustedAt (record : FallbackRecord.t) : Z :=
  match FallbackRecord.exhaustedAt record with
  | Some t => t
  | None => 0
  end.

Definition is_some {A : Type} (o : option A) : bool :=
  match o with Some _ => true | None => false end.

(** [Math.max(1, Number(intervalHours || 24)) * 60 * 60 * 1000]. *)
Definition intervalMs_of (config : Config) : Z :=
  let hours :=
    if restore_intervalHours config =? 0 then 24 else restore_intervalHours config in
  Z.max 1 hours * 60 * 60 * 1000.

(** The threshold of a sweep: [intervalMs || DAY_MS]. *)
Definition threshold_of (intervalMs : Z) : Z :=
  if intervalMs =? 0 then DAY_MS else intervalMs.

Section Sweeper.

Variable host : Host.

(** The body of the loop of [runRestoreCheck]; the result is the record
    after the mutations of this pass. *)
Definition restore_record (config : Config) (now threshold : Z)
    (sessionId : string) (record : FallbackRecord.t) : M FallbackRecord.t :=
  let exhaustedAt := record_exhaustedAt record in
  if (exhaustedAt =? 0) || (now - exhaustedAt <? threshold) then ret record
  else
    match record_originalModel config record, record_fallbackModel config record with
    | Some originalModel, Some fallbackModel =>
        sessionModel <- getSessionModel host sessionId ;;
        if is_some sessionModel && modelsEqual sessionModel (Some originalModel)
        then ret (with_restoredAt now record)
        else if is_some sessionModel
                && negb (modelsEqual sessionModel (Some fallbackModel))
        then ret record
        else
          updated <- setSessionModel host sessionId (Some originalModel) ;;
          let record := with_lastRestoreAttemptAt now record in
          if updated
          then
            let record := with_restoredAt now record in
            (if notifications_toastOnRestore config
             then try_catch
                    (call host (TuiShowToast
                                  "Credits restored. Switched back to primary model."
                                  "success") ;;; ret tt)
                    (safeLog host "debug" "Restore toast failed")
             else ret tt) ;;;
            ret record
          else
            safeLog host "warn" "Failed to restore primary model" ;;;
            ret record
    | _, _ => ret record
    end.

(** The loop over [Object.entries(sessions)]. *)
Fixpoint sweep_records (config : Config) (now threshold : Z)
    (entries : list (string * FallbackRecord.t))
  : M (list (string * FallbackRecord.t)) :=
  match entries with
  | [] => ret []
  | (sessionId, record) :: rest =>
      record' <- restore_record config now threshold sessionId record ;;
      rest' <- sweep_records config now threshold rest ;;
      ret ((sessionId, record') :: rest')
  end.

(** [runRestoreCheck({ state, client, intervalMs })].  The loop mutates the
    records in place and cannot throw; the entries are written back to the
    state when it ends, before the state is saved. *)
Definition runRestoreCheck (now intervalMs : Z) : M unit :=
  state <- get_plugin ;;
  if negb (restore_enabled (config state)) then ret tt
  else
    match stateData state with
    | None => ret tt
    | Some data =>
        let threshold := threshold_of intervalMs in
        if now - lastCheckAt data <? threshold then ret tt
        else
          modify (with_stateData
                    (Some {| sessions := sessions data; lastCheckAt := now |})) ;;;
          entries <- sweep_records (config state) now threshold (sessions data) ;;
          let data' := {| sessions := entries; lastCheckAt := now |} in
          modify (with_stateData (Some data')) ;;;
          saveState host (statePath state) data'
    end.

(** The run [scheduleRestoreCheck] starts at once; the timer repeats it
    with the same [intervalMs]. *)
Definition scheduleRestoreCheck (now : Z) : M unit :=
  state <- get_plugin ;;
  runRestoreCheck now (intervalMs_of (config state)).

End Sweeper.

(** ** A process run *)

(** What happens to the plugin, one thing at a time: the host dispatches an
    event, or the timer fires.  Each step meets its own host behaviour; the
    plugin state outlives a handler that throws. *)
Inductive Step : Type :=
| Dispatch (host : Host) (now : Z) (event : JsVal)
| Tick (host : Host) (now intervalMs : Z).

Definition step (s : Step) (w : World) : World :=
  match s with
  | Dispatch host now event => snd (event_handler host now event w)
  | Tick host now intervalMs => snd (runRestoreCheck host now intervalMs w)
  end.

Fixpoint run (steps : list Step) (w : World) : World :=
  match steps with
  | [] => w
  | s :: rest => run rest (step s w)
  end.

(** Whether a step reaches the offer of a fallback for [sessionId]. *)
Definition offers_at (sessionId : string) (s : Step) (w : World) : bool :=
  match s with
  | Dispatch host now event =>
      match fst (fallback_checks host event w) with
      | Ok (Some p) => (plan_sessionId p =? sessionId)%string
      | _ => false
      end
  | Tick _ _ _ => false
  end.

(** The number of offers made for [sessionId] along a run. *)
Fixpoint offers (sessionId : string) (steps : list Step) (w : World) : nat :=
  match steps with
  | [] => 0%nat
  | s :: rest =>
      ((if offers_at sessionId s w then 1 else 0)
       + offers sessionId rest (step s w))%nat
  end.

Definition is_update_for (sessionId : string) (c : Call) : bool :=
  match c with
  | SessionUpdate id _ _ => (id =? sessionId)%string
  | _ => false
  end.

(** ** Vocabulary of the properties *)

(** *** The trigger condition *)

(** The three signals, read off the event. *)
Definition status_signal (event : JsVal) (config : Config) : Prop :=
  exists n, extractStatus event = Some n /\ In n (fallback_onStatus config).

Definition code_signal (event : JsVal) (config : Config) : Prop :=
  exists c value,
    extractCode event = Some c /\ In value (fallback_onErrorCodes config)
    /\ toLowerCase value = toLowerCase c.

(** [extractText] has already folded the text to lower case. *)
Definition text_signal (event : JsVal) (config : Config) : Prop :=
  exists value,
    In value (fallback_onMessageMatches config)
    /\ includes (extractText event) (toLowerCase value) = true.

(** *** Computations *)

(** A relation between the world before and after a computation holds
    whatever the computation returns. *)
Definition respects {A : Type} (R : World -> World -> Prop) (m : M A) : Prop :=
  forall w, R w (snd (m w)).

(** A computation that never throws. *)
Definition returns {A : Type} (m : M A) : Prop :=
  forall w, exists a, fst (m w) = Ok a.

(** Calls that only read from the host, or log. *)
Definition is_query (c : Call) : bool :=
  match c with
  | ConfigProviders | SessionGet _ | SessionMessages _ | AppLog _ _ => true
  | _ => false
  end.

(** The calls [saveState] can issue. *)
Definition is_save_call (c : Call) : bool :=
  match c with
  | BunMkdir _ | BunWrite _ _ | AppLog _ _ => true
  | _ => false
  end.

Definition not_update_for (sessionId : string) (c : Call) : bool :=
  negb (is_update_for sessionId c).

Definition any_call (_ : Call) : bool := true.

(** The plugin state is untouched and the calls issued all satisfy [ok]. *)
Definition only_calls (ok : Call -> bool) (w w' : World) : Prop :=
  plugin w' = plugin w
  /\ exists issued, trace w' = (trace w ++ issued)%list /\ forallb ok issued = true.

(** A call issued so far is still in the trace afterwards. *)
Definition trace_grows (w w' : World) : Prop :=
  exists issued, trace w' = (trace w ++ issued)%list.

(** The set of attempted sessions has only grown. *)
Definition attempted_grows (w w' : World) : Prop :=
  forall id,
    has (attemptedSessions (plugin w)) id = true ->
    has (attemptedSessions (plugin w')) id = true.

(** *** The host *)

(** The host reports model [m] for the session whenever it is asked. *)
Definition reports_model (host : Host) (sessionId : string) (m : ModelRef) : Prop :=
  forall n, exists response,
    reply host n (SessionGet sessionId) = Returned response
    /\ session_model response = Some m.

(** The providers the host lists, as [getProviders] sees them, whenever it
    is asked. *)
Definition lists_providers (host : Host) (providers : list JsVal) : Prop :=
  forall n, exists response,
    reply host n ConfigProviders = Returned response
    /\ js_or (prop (payload_of response) "providers") (JArr []) = JArr providers.

(** The ids the licensing check compares with, for a list of providers. *)
Definition listed_ids (providers : list JsVal) : list string :=
  provider_ids (map provider_name providers).

(** A payload of [showConfirm] with no boolean answer in it. *)
Definition no_boolean_answer (payload : JsVal) : Prop :=
  is_boolean payload = false
  /\ is_boolean (prop payload "confirmed") = false
  /\ is_boolean (prop payload "accepted") = false
  /\ is_boolean (prop payload "value") = false
  /\ is_boolean (prop payload "ok") = false
  /\ is_boolean (prop payload "success") = false.

(** *** The engine *)

(** The prompt the handler sends for a plan. *)
Definition prompt_of (p : Plan) : Call :=
  SessionPrompt (plan_sessionId p)
    (providerId (plan_fallbackModel p)) (modelId (plan_fallbackModel p))
    (prop (plan_lastUserMessage p) "parts").

(** The record of a session in the persisted state, if any. *)
Definition record_of (sessionId : string) (w : World) : option FallbackRecord.t :=
  match stateData (plugin w) with
  | Some data => get_session sessionId (sessions data)
  | None => None
  end.

(** The plugin state once an accepted offer has marked the session and
    stored its record. *)
Definition after_accept (now : Z) (p : Plan) (s : PluginState) : PluginState :=
  let s1 := with_attempted (plan_sessionId p) s in
  match stateData s1 with
  | Some data =>
      with_stateData
        (Some {| sessions :=
                   set_session (plan_sessionId p) (fallback_record now p) (sessions data);
                 lastCheckAt := lastCheckAt data |}) s1
  | None => s1
  end.

(** *** The sweep *)

(** The world in which the loop of a sweep that proceeds starts. *)
Definition sweep_start (now : Z) (data : PersistedState) (w : World) : World :=
  {| plugin :=
       with_stateData (Some {| sessions := sessions data; lastCheckAt := now |})
                      (plugin w);
     trace := trace w |}.

(** The fields of a record no sweep writes. *)
Definition same_episode (r r' : FallbackRecord.t) : Prop :=
  FallbackRecord.exhaustedAt r' = FallbackRecord.exhaustedAt r
  /\ FallbackRecord.lastFallbackAt r' = FallbackRecord.lastFallbackAt r
  /\ FallbackRecord.originalModel r' = FallbackRecord.originalModel r
  /\ FallbackRecord.fallbackModel r' = FallbackRecord.fallbackModel r.

(** A record the sweep finds eligible, of a session the host reports to be
    on the record's original model. *)
Definition on_original (host : Host) (config : Config) (now threshold : Z)
    (sessionId : string) (record : FallbackRecord.t) : Prop :=
  record_exhaustedAt record <> 0
  /\ threshold <= now - record_exhaustedAt record
  /\ record_fallbackModel config record <> None
  /\ exists originalModel sessionModel,
       record_originalModel config record = Some originalModel
       /\ reports_model host sessionId sessionModel
       /\ modelsEqual (Some sessionModel) (Some originalModel) = true.

(** ** Scenarios *)

Definition scenario_config (primary fallback : string) (required : list string)
    (confirm : bool) : Config :=
  {| enabled := true;
     primaryModel := primary;
     fallbackModel := fallback;
     licensing_requireProviders := required;
     restore_enabled := true;
     restore_intervalHours := 24;
     fallback_onStatus := [429];
     fallback_onErrorCodes := [];
     fallback_onMessageMatches := [];
     notifications_toastOnFallback := true;
     notifications_toastOnRestore := true;
     notifications_confirmOnFallback := confirm |}.

(** Primary ["p1/m1"], fallback ["p2/m2"], no licensing, no confirmation. *)
Definition p1_p2_config : Config := scenario_config "p1/m1" "p2/m2" [] false.

(** A [session.error] event of session ["s1"] with status 429. *)
Definition scenario_event : JsVal :=
  JObj [("type", JStr "session.error");
        ("properties",
         JObj [("sessionId", JStr "s1");
               ("error", JObj [("status", JNum 429)])])].

Definition scenario_parts : JsVal :=
  JArr [JObj [("type", JStr "text"); ("text", JStr "hi")]].

Definition scenario_messages : JsVal :=
  JArr [JObj [("info", JObj [("role", JStr "user")]); ("parts", scenario_parts)];
        JObj [("info", JObj [("role", JStr "assistant")]); ("parts", JArr [])]].

(** A host whose session is on [model], that lists [providers], and whose
    prompt and confirm calls end as given; every other call returns. *)
Definition scenario_host (model : JsVal) (providers : list JsVal)
    (prompt confirm : Reply) : Host :=
  {| reply := fun _ c =>
       match c with
       | ConfigProviders =>
           Returned (JObj [("data", JObj [("providers", JArr providers)])])
       | SessionGet _ => Returned (JObj [("data", JObj [("model", model)])])
       | SessionMessages _ => Returned (JObj [("data", scenario_messages)])
       | SessionPrompt _ _ _ _ => prompt
       | TuiShowConfirm => confirm
       | _ => Returned JUndefined
       end;
     tui_showConfirm := true |}.

(** A host on which everything succeeds, with the session on [model]. *)
Definition host_on (model : string) : Host :=
  scenario_host (JStr model) [] (Returned JUndefined) (Returned JUndefined).

Definition scenario_world (cfg : Config) (entries : list (string * FallbackRecord.t))
    (checked : Z) : World :=
  {| plugin :=
       {| config := cfg;
          configPath := Some "/project/.opencode/credit-switcher.json";
          statePath := Some "/project/.opencode/credit-switcher.state.json";
          stateData := Some {| sessions := entries; lastCheckAt := checked |};
          attemptedSessions := [] |};
     trace := [] |}.

Definition scenario_record (exhausted : Z) (original fallback : string)
    (restored : option Z) : FallbackRecord.t :=
  {| FallbackRecord.exhaustedAt := Some exhausted;
     FallbackRecord.lastFallbackAt := Some exhausted;
     FallbackRecord.originalModel := Some original;
     FallbackRecord.fallbackModel := Some fallback;
     FallbackRecord.restoredAt := restored;
     FallbackRecord.lastRestoreAttemptAt := None |}.

(** The plan the handler reaches for [scenario_event] when the session is on
    ["p1/m1"], the primary model. *)
Definition scenario_plan : Plan :=
  {| plan_sessionId := "s1";
     plan_primaryModel := Some {| providerId := JStr "p1"; modelId := JStr "m1" |};
     plan_fallbackModel := {| providerId := JStr "p2"; modelId := JStr "m2" |};
     plan_sessionModel := Some {| providerId := JStr "p1"; modelId := JStr "m1" |};
     plan_lastUserMessage :=
       JObj [("info", JObj [("role", JStr "user")]); ("parts", scenario_parts)] |}.

(** The fields of a [session.error] event of session ["s1"] whose status,
    500, is not a configured one. *)
Definition other_error_fields : list (string * JsVal) :=
  [("type", JStr "session.error");
   ("properties",
    JObj [("sessionId", JStr "s1");
          ("error", JObj [("status", JNum 500)])])].

(** ** Vocabulary of the further properties *)

(** The confirm dialog and the log. *)
Definition is_dialog_call (c : Call) : bool :=
  match c with
  | TuiShowConfirm | AppLog _ _ => true
  | _ => false
  end.

(** Anything but the state file. *)
Definition not_file_call (c : Call) : bool :=
  match c with
  | BunMkdir _ | BunWrite _ _ => false
  | _ => true
  end.

(** The session ids of the persisted state are distinct, as the keys of an
    object are. *)
Definition distinct_ids (w : World) : Prop :=
  match stateData (plugin w) with
  | Some data => NoDup (map fst (sessions data))
  | None => True
  end.

(** The session ids of the persisted state, in order. *)
Definition session_ids (w : World) : list string :=
  match stateData (plugin w) with
  | Some data => map fst (sessions data)
  | None => []
  end.

(** What [getSessionModel] answers for the session whenever it is asked;
    [None] is a model that could not be read. *)
Definition session_reads (host : Host) (sessionId : string)
    (model : option ModelRef) : Prop :=
  forall w,
    getSessionModel host sessionId w = (Ok model, push (SessionGet sessionId) w).

(** The outcome of [client.session.update] to [model] for the session,
    whenever it is called. *)
Definition update_returns (host : Host) (sessionId : string) (model : ModelRef) : Prop :=
  forall n, exists response,
    reply host n (SessionUpdate sessionId (providerId model) (modelId model))
    = Returned response.

Definition update_throws (host : Host) (sessionId : string) (model : ModelRef) : Prop :=
  forall n,
    reply host n (SessionUpdate sessionId (providerId model) (modelId model)) = Thrown.

(** The calls that name the session. *)
Definition mentions (sessionId : string) (c : Call) : bool :=
  match c with
  | SessionGet id | SessionMessages id | SessionPrompt id _ _ _
  | SessionUpdate id _ _ => (id =? sessionId)%string
  | _ => false
  end.

Definition not_about (sessionId : string) (c : Call) : bool :=
  negb (mentions sessionId c).

(** A toast or a log entry. *)
Definition is_notice (c : Call) : bool :=
  match c with
  | TuiShowToast _ _ | AppLog _ _ => true
  | _ => false
  end.

(** A record the sweep finds eligible and whose two models parse. *)
Definition eligible (config : Config) (now threshold : Z) (record : FallbackRecord.t)
    (originalModel fallbackModel : ModelRef) : Prop :=
  record_exhaustedAt record <> 0
  /\ threshold <= now - record_exhaustedAt record
  /\ record_originalModel config record = Some originalModel
  /\ record_fallbackModel config record = Some fallbackModel.

(** The session is not on the original model, and it is on the recorded
    fallback model or its model is unknown: the cases in which the sweep
    tries to switch back. *)
Definition to_restore (sessionModel : option ModelRef)
    (originalModel fallbackModel : ModelRef) : Prop :=
  match sessionModel with
  | None => True
  | Some _ =>
      modelsEqual sessionModel (Some originalModel) = false
      /\ modelsEqual sessionModel (Some fallbackModel) = true
  end.

(** The sweep passes its three guards. *)
Definition sweep_proceeds (now intervalMs : Z) (w : World) (data : PersistedState)
  : Prop :=
  restore_enabled (config (plugin w)) = true
  /\ stateData (plugin w) = Some data
  /\ threshold_of intervalMs <= now - lastCheckAt data.

(** The records a pass of the loop body can leave for [record]. *)
Definition stamped (now : Z) (record record' : FallbackRecord.t) : Prop :=
  record' = record
  \/ record' = with_restoredAt now record
  \/ record' = with_lastRestoreAttemptAt now record
  \/ record' = with_restoredAt now (with_lastRestoreAttemptAt now record).

(** ** Start-up: the configuration and the state file

    [normalizeConfig], [loadConfig], [loadState] and [getConfigPaths] work on
    the parsed JSON of the files, an untyped value.  The files are read, never
    written, at start-up: [Files] gives, for a path, what the reads of
    [Bun.file(path)] come to.  An object built by a spread keeps the keys of
    the target in place and appends the new keys in the order of the source;
    these objects are only ever read by property name, so the place the
    engine gives to integer-like keys is not modelled. *)

Module Startup.

Definition DEFAULT_CONFIG : JsVal :=
  JObj [("enabled", JBool true);
        ("primaryModel", JStr "azure-openai/<deployment-name>");
        ("fallbackModel", JStr "llama.cpp/qwen3-coder:a3b");
        ("licensing",
         JObj [("requireProviders", JArr [JStr "azure-openai"; JStr "github-copilot"])]);
        ("restore", JObj [("enabled", JBool true); ("intervalHours", JNum 24)]);
        ("fallback",
         JObj [("onStatus", JArr [JNum 402; JNum 429]);
               ("onErrorCodes",
                JArr [JStr "CREDITS_EXHAUSTED"; JStr "ACCOUNT_LIMIT_REACHED";
                      JStr "QUOTA_EXCEEDED"]);
               ("onMessageMatches",
                JArr [JStr "credit"; JStr "quota"; JStr "insufficient";
                      JStr "exceeded"; JStr "payment"; JStr "limit"])]);
        ("notifications",
         JObj [("toastOnFallback", JBool true); ("toastOnRestore", JBool true);
               ("confirmOnFallback", JBool false)])].

(** [target[k] = v]. *)
Fixpoint set_field (k : string) (v : JsVal) (target : list (string * JsVal))
  : list (string * JsVal) :=
  match target with
  | [] => [(k, v)]
  | (k', v') :: rest =>
      if (k' =? k)%string then (k', v) :: rest
      else (k', v') :: set_field k v rest
  end.

(** The own enumerable properties a spread copies: the members of an
    object, the elements of an array and the characters of a string under
    their indices, nothing for the other values. *)
Fixpoint index_fields (i : nat) (items : list JsVal) : list (string * JsVal) :=
  match items with
  | [] => []
  | x :: rest => (number_to_string (Z.of_nat i), x) :: index_fields (S i) rest
  end.

Fixpoint characters (s : string) : list JsVal :=
  match s with
  | EmptyString => []
  | String c r => JStr (String c EmptyString) :: characters r
  end.

Definition own_fields (v : JsVal) : list (string * JsVal) :=
  match v with
  | JObj fields => fields
  | JArr items => index_fields 0 items
  | JStr s => index_fields 0 (characters s)
  | _ => []
  end.

(** [{ ...target, ...source }], for the members [target] collected so far. *)
Definition spread (target : list (string * JsVal)) (source : JsVal)
  : list (string * JsVal) :=
  fold_left (fun acc kv => set_field (fst kv) (snd kv) acc) (own_fields source) target.

(** [normalizeArray(value, fallback)]. *)
Definition normalizeArray (value fallback : JsVal) : JsVal :=
  if is_array value then value
  else if is_array fallback then fallback else JArr [].

(** [{ ...DEFAULT_CONFIG.name, ...(raw.name || {}) }]. *)
Definition merged_section (raw : JsVal) (name : string) : list (string * JsVal) :=
  spread (spread [] (prop DEFAULT_CONFIG name)) (js_or (prop raw name) (JObj [])).

(** [section.key = normalizeArray(section.key, DEFAULT_CONFIG.name.key)]. *)
Definition normalize_list (name key : string) (section : list (string * JsVal))
  : list (string * JsVal) :=
  set_field key
    (normalizeArray (lookup key section) (prop (prop DEFAULT_CONFIG name) key))
    section.

(** [normalizeConfig(raw)]; [None] is the [TypeError] of [raw.licensing] on
    [null] or [undefined]. *)
Definition normalizeConfig (raw : JsVal) : option JsVal :=
  if nullish raw then None
  else
    let merged := spread (spread [] DEFAULT_CONFIG) raw in
    let merged := set_field "licensing" (JObj (merged_section raw "licensing")) merged in
    let merged := set_field "restore" (JObj (merged_section raw "restore")) merged in
    let merged := set_field "fallback" (JObj (merged_section raw "fallback")) merged in
    let merged :=
      set_field "notifications" (JObj (merged_section raw "notifications")) merged in
    let licensing :=
      normalize_list "licensing" "requireProviders" (own_fields (lookup "licensing" merged)) in
    let merged := set_field "licensing" (JObj licensing) merged in
    let fallback := own_fields (lookup "fallback" merged) in
    let fallback := normalize_list "fallback" "onStatus" fallback in
    let fallback := normalize_list "fallback" "onErrorCodes" fallback in
    let fallback := normalize_list "fallback" "onMessageMatches" fallback in
    let merged := set_field "fallback" (JObj fallback) merged in
    Some (JObj merged).

(** What the reads of [Bun.file(path)] come to: no such file, a file that
    cannot be read or whose text is not JSON (one of [exists], [text] and
    [JSON.parse] throws), or the parsed text. *)
Inductive File : Type :=
| Absent
| Broken
| Parsed (raw : JsVal).

Definition Files : Type := string -> File.

(** The result of [loadConfig]. *)
Record Loaded : Type := mkLoaded {
  config : JsVal;
  path : option string
}.

Definition disabled : JsVal := JObj [("enabled", JBool false)].

(** The [empty] state of [loadState]. *)
Definition empty : JsVal := JObj [("sessions", JObj []); ("lastCheckAt", JNum 0)].

Section Loading.

Variable fs : Files.
Variable host : Host.

(** [loadConfig(paths, client)]. *)
Fixpoint loadConfig (paths : list string) : M Loaded :=
  match paths with
  | [] => ret {| config := disabled; path := None |}
  | p :: rest =>
      if negb (nonempty p) then loadConfig rest
      else
        found <-
          try_catch
            (match fs p with
             | Absent => ret None
             | Broken => throw
             | Parsed raw =>
                 match normalizeConfig raw with
                 | Some normalized =>
                     ret (Some {| config := normalized; path := Some p |})
                 | None => throw
                 end
             end)
            (safeLog host "error" "Failed to load config" ;;;
             ret (Some {| config := disabled; path := Some p |})) ;;
        match found with
        | Some loaded => ret loaded
        | None => loadConfig rest
        end
  end.

(** [loadState(statePath, client)]. *)
Definition loadState (statePath : option string) : M JsVal :=
  match statePath with
  | None => ret empty
  | Some p =>
      if negb (nonempty p) then ret empty
      else
        try_catch
          (match fs p with
           | Absent => ret empty
           | Broken => throw
           | Parsed raw =>
               let merged := spread (spread [] empty) raw in
               if nullish raw then throw
               else
                 ret (JObj (set_field "sessions"
                              (js_or (prop raw "sessions") (JObj [])) merged))
           end)
          (safeLog host "error" "Failed to load state" ;;; ret empty)
  end.

End Loading.

(** The two variables of [Bun.env] the plugin reads. *)
Record Env : Type := mkEnv {
  OPENCODE_CREDIT_SWITCHER_CONFIG : option string;
  HOME : option string
}.

(** The test [if (value)] on a string that may be missing. *)
Definition given (value : option string) : bool :=
  match value with
  | Some s => nonempty s
  | None => false
  end.

Definition text_of (value : option string) : string :=
  match value with
  | Some s => s
  | None => "undefined"
  end.

Definition same_text (a b : option string) : bool :=
  match a, b with
  | Some x, Some y => (x =? y)%string
  | None, None => true
  | _, _ => false
  end.

(** [getConfigPaths(directory, worktree)]. *)
Definition getConfigPaths (env : Env) (directory worktree : option string)
  : list string :=
  ((if given (OPENCODE_CREDIT_SWITCHER_CONFIG env)
    then [text_of (OPENCODE_CREDIT_SWITCHER_CONFIG env)] else [])
   ++ (if given worktree
       then [(text_of worktree ++ "/.opencode/credit-switcher.json")%string] else [])
   ++ (if given directory && negb (same_text directory worktree)
       then [(text_of directory ++ "/.opencode/credit-switcher.json")%string] else [])
   ++ (if given (HOME env)
       then [(text_of (HOME env) ++ "/.config/opencode/credit-switcher.json")%string]
       else []))%list.

End Startup.

(** Has the object a member [k]? *)
Definition has_key (k : string) (fields : list (string * JsVal)) : bool :=
  existsb (String.eqb k) (map fst fields).

(** The list settings of the configuration: section and key. *)
Definition list_settings : list (string * string) :=
  [("licensing", "requireProviders"); ("fallback", "onStatus");
   ("fallback", "onErrorCodes"); ("fallback", "onMessageMatches")].

(** The sections of the configuration. *)
Definition section_names : list string :=
  ["licensing"; "restore"; "fallback"; "notifications"].

(** No file is there at any of the paths before the first one that counts:
    the path is empty or the file is absent. *)
Definition passed_over (fs : Startup.Files) (p : string) : Prop :=
  nonempty p = false \/ fs p = Startup.Absent.

(** ** Further scenarios *)

(** A host whose session is on [model] and on which every model update
    throws; every other call returns. *)
Definition host_refusing_update (model : string) : Host :=
  {| reply := fun _ c =>
       match c with
       | SessionGet _ => Returned (JObj [("data", JObj [("model", JStr model)])])
       | SessionUpdate _ _ _ => Thrown
       | _ => Returned JUndefined
       end;
     tui_showConfirm := true |}.

(** One file, at [p]. *)
Definition one_file (p : string) (file : Startup.File) : Startup.Files :=
  fun q => if (q =? p)%string then file else Startup.Absent.

(** A record that fell back at [exhausted], from ["p1/m1"] to ["p2/m2"], in
    a state last checked at [0], under the default scenario configuration. *)
Definition sweep_world (exhausted : Z) : World :=
  scenario_world p1_p2_config
    [("s1", scenario_record exhausted "p1/m1" "p2/m2" None)] 0.

Definition sweep_data (exhausted : Z) : PersistedState :=
  {| sessions := [("s1", scenario_record exhausted "p1/m1" "p2/m2" None)];
     lastCheckAt := 0 |}.

(** ** Comparison up to case, as the specification words it

    These relations do not go through [toLowerCase]: two characters are the
    same letter when they are equal or when one is an upper-case ASCII letter
    and the other the lower-case letter 32 places further. *)

Definition same_letter (a b : ascii) : Prop :=
  let m := nat_of_ascii a in
  let n := nat_of_ascii b in
  (m = n
   \/ ((65 <= m)%nat /\ (m <= 90)%nat /\ n = (m + 32)%nat)
   \/ ((65 <= n)%nat /\ (n <= 90)%nat /\ m = (n + 32)%nat)).

(** Equal up to case: the same length, the same letter at every place. *)
Fixpoint same_letters (s t : string) : Prop :=
  match s, t with
  | EmptyString, EmptyString => True
  | String a s', String b t' => same_letter a b /\ same_letters s' t'
  | _, _ => False
  end.

(** [fragment] occurs in [text] up to case. *)
Definition contains_up_to_case (text fragment : string) : Prop :=
  exists before middle after,
    text = before ++ middle ++ after /\ same_letters middle fragment.

(** The text [extractText] matches against, as it stands in the event: the
    first message that is a string with something else than white space in
    it, and the whole payload written as JSON when there is none. *)
Definition message_text (event : JsVal) : option string :=
  match first_candidate nonblank_string (error_candidates event "message") with
  | Some text => Some text
  | None => JSON_stringify event
  end.

(** The code signal: the extracted code is a configured code up to case. *)
Definition code_matches_up_to_case (event : JsVal) (config : Config) : Prop :=
  exists code value,
    extractCode event = Some code
    /\ In value (fallback_onErrorCodes config)
    /\ same_letters value code.

(** The text signal: the message text contains a configured fragment up to
    case. *)
Definition text_contains_up_to_case (event : JsVal) (config : Config) : Prop :=
  exists text value,
    message_text event = Some text
    /\ In value (fallback_onMessageMatches config)
    /\ contains_up_to_case text value.

(** The value [provider.id || provider.providerID || provider.name] stands
    for, in words: the first of the three that is truthy. *)
Definition provider_known_as (provider name : JsVal) : Prop :=
  truthy name = true
  /\ (name = prop provider "id"
      \/ (truthy (prop provider "id") = false /\ name = prop provider "providerID")
      \/ (truthy (prop provider "id") = false
          /\ truthy (prop provider "providerID") = false
          /\ name = prop provider "name")).

(** A required provider is listed: some provider of the list is known under
    a name that, written as a string, is the required id up to case. *)
Definition provider_listed (providers : list JsVal) (required : string) : Prop :=
  exists provider name,
    In provider providers
    /\ provider_known_as provider name
    /\ same_letters (ToString name) required.

(** ** Scenarios of the trigger condition *)

(** The scenario configuration with the given rule lists. *)
Definition rules_config (statuses : list Z) (codes fragments : list string) : Config :=
  {| enabled := true;
     primaryModel := "p1/m1";
     fallbackModel := "p2/m2";
     licensing_requireProviders := [];
     restore_enabled := true;
     restore_intervalHours := 24;
     fallback_onStatus := statuses;
     fallback_onErrorCodes := codes;
     fallback_onMessageMatches := fragments;
     notifications_toastOnFallback := true;
     notifications_toastOnRestore := true;
     notifications_confirmOnFallback := false |}.

(** The fields of a [session.error] event of session ["s1"] with the given
    error code and message and a status, 500, that is not configured. *)
Definition error_fields (code message : string) : list (string * JsVal) :=
  [("type", JStr "session.error");
   ("properties",
    JObj [("sessionId", JStr "s1");
          ("error", JObj [("status", JNum 500); ("code", JStr code);
                          ("message", JStr message)])])].

(** ** The handler and the sweep as asynchronous functions

    Above, a call of the handler or of the sweep runs from its first line to
    its last.  Here the same code is written with its [await]s, so that one
    call can be left at an [await] while another one runs: a task runs from
    one [await] to the next in one piece, reading and writing the plugin
    state on the way, and is suspended at each [await].  An [await] of a call
    of the host issues the call and resumes with the reply ([Await]); an
    [await] of an async function of the plugin runs the function and resumes
    in a later turn ([Pause]).  The reply to a call is, as above, what the
    host answers to the call issued at that place of the trace. *)

Module Async.

Inductive Task (A : Type) : Type :=
| Return (a : A)
| Throw
| Read (k : PluginState -> Task A)
| Write (f : PluginState -> PluginState) (next : Task A)
| Pause (next : Task A)
| Await (c : Call) (k : Reply -> Task A).

Arguments Return {A} a.
Arguments Throw {A}.
Arguments Read {A} k.
Arguments Write {A} f next.
Arguments Pause {A} next.
Arguments Await {A} c k.

Fixpoint bind {A B : Type} (t : Task A) (k : A -> Task B) : Task B :=
  match t with
  | Return a => k a
  | Throw => Throw
  | Read g => Read (fun s => bind (g s) k)
  | Write f next => Write f (bind next k)
  | Pause next => Pause (bind next k)
  | Await c g => Await c (fun r => bind (g r) k)
  end.

(** [try { body } catch { handler }]. *)
Fixpoint try_catch {A : Type} (body handler : Task A) : Task A :=
  match body with
  | Return a => Return a
  | Throw => handler
  | Read g => Read (fun s => try_catch (g s) handler)
  | Write f next => Write f (try_catch next handler)
  | Pause next => Pause (try_catch next handler)
  | Await c g => Await c (fun r => try_catch (g r) handler)
  end.

Definition ret {A : Type} (a : A) : Task A := Return a.
Definition throw {A : Type} : Task A := Throw.
Definition get_plugin : Task PluginState := Read Return.
Definition modify (f : PluginState -> PluginState) : Task unit := Write f (Return tt).

Declare Scope task_scope.
Delimit Scope task_scope with task.
Notation "x <- m ;; k" := (bind m (fun x => k))
  (at level 100, m at next level, right associativity) : task_scope.
Notation "m ;;; k" := (bind m (fun _ => k))
  (at level 100, right associativity) : task_scope.
Local Open Scope task_scope.

(** [await client.f(...)]: the call is issued, and the task resumes with
    what it returns or throws. *)
Definition call (c : Call) : Task JsVal :=
  Await c (fun r => match r with
                    | Returned response => Return response
                    | Thrown => Throw
                    end).

(** [await f(...)] for an async function [f] of the plugin: [f] runs, and
    the caller resumes, with what [f] returned or threw, in a later turn. *)
Definition await {A : Type} (t : Task A) : Task A :=
  try_catch (a <- t ;; Pause (Return a)) (Pause Throw).

(** [safeLog(client, level, message, extra)]. *)
Definition safeLog (level message : string) : Task unit :=
  try_catch (call (AppLog level message) ;;; ret tt) (ret tt).

(** [saveState(statePath, stateData, client)].  [stateData] is the object of
    the plugin state, which both callers have found present: what is written
    is what it holds when [Bun.write] is called. *)
Definition saveState (path : option string) : Task unit :=
  match path with
  | Some p =>
      if nonempty p then
        try_catch
          (call (BunMkdir p) ;;;
           state <- get_plugin ;;
           match stateData state with
           | Some data => call (BunWrite p data) ;;; ret tt
           | None => ret tt
           end)
          (await (safeLog "error" "Failed to save state"))
      else ret tt
  | None => ret tt
  end.

(** [getProviders(client)]. *)
Definition getProviders : Task JsVal :=
  try_catch
    (response <- call ConfigProviders ;;
     ret (js_or (prop (payload_of response) "providers") (JArr [])))
    (ret (JArr [])).

(** [hasRequiredProviders(client, config)]. *)
Definition hasRequiredProviders (config : Config) : Task bool :=
  let required := licensing_requireProviders config in
  match required with
  | [] => ret true
  | _ =>
      providers <- await getProviders ;;
      if negb (truthy (length_of providers)) then ret false
      else
        match providers with
        | JArr items =>
            match provider_names items with
            | Some names => ret (all_required required (provider_ids names))
            | None => throw
            end
        | _ => throw
        end
  end.

(** [getSessionModel(client, sessionId)]. *)
Definition getSessionModel (sessionId : string) : Task (option ModelRef) :=
  try_catch
    (response <- call (SessionGet sessionId) ;; ret (session_model response))
    (ret None).

(** [setSessionModel(client, sessionId, model)]. *)
Definition setSessionModel (sessionId : string) (model : option ModelRef) : Task bool :=
  match model with
  | None => ret false
  | Some m =>
      try_catch
        (call (SessionUpdate sessionId (providerId m) (modelId m)) ;;; ret true)
        (ret false)
  end.

(** [getLastUserMessage(client, sessionId)]. *)
Definition getLastUserMessage (sessionId : string) : Task (option JsVal) :=
  try_catch
    (response <- call (SessionMessages sessionId) ;; ret (last_user_entry response))
    (ret None).

(** [state.stateData.sessions[sessionId] = record]. *)
Definition store_record (sessionId : string) (record : FallbackRecord.t)
    (s : PluginState) : PluginState :=
  match stateData s with
  | Some data =>
      with_stateData
        (Some {| sessions := set_session sessionId record (sessions data);
                 lastCheckAt := lastCheckAt data |}) s
  | None => s
  end.

(** A field of the record of a session set in place: [record.field = value]
    for the record object the loop of the sweep holds.  The object is reached
    through its session id, which is the same thing as long as no handler
    replaces the record of the session while the pass is suspended. *)
Definition update_session (sessionId : string)
    (f : FallbackRecord.t -> FallbackRecord.t)
    (entries : list (string * FallbackRecord.t)) : list (string * FallbackRecord.t) :=
  map (fun entry : string * FallbackRecord.t =>
         if (fst entry =? sessionId)%string then (fst entry, f (snd entry)) else entry)
      entries.

Definition mutate_record (sessionId : string)
    (f : FallbackRecord.t -> FallbackRecord.t) (s : PluginState) : PluginState :=
  match stateData s with
  | Some data =>
      with_stateData
        (Some {| sessions := update_session sessionId f (sessions data);
                 lastCheckAt := lastCheckAt data |}) s
  | None => s
  end.

(** [state.stateData.lastCheckAt = now]. *)
Definition stamp_lastCheckAt (now : Z) (s : PluginState) : PluginState :=
  match stateData s with
  | Some data =>
      with_stateData (Some {| sessions := sessions data; lastCheckAt := now |}) s
  | None => s
  end.

Section Plugin.

Variable host : Host.

(** [confirmFallback({ client, config, sessionId, fallbackModel })]. *)
Definition confirmFallback (config : Config) : Task bool :=
  if negb (notifications_confirmOnFallback config) then ret true
  else if negb (tui_showConfirm host) then ret true
  else
    answer <- try_catch
                (response <- call TuiShowConfirm ;; ret (confirm_answer response))
                (await (safeLog "debug" "Confirm prompt failed") ;;; ret None) ;;
    ret match answer with
        | Some b => b
        | None => true
        end.

(** The [event] hook returned by [CreditSwitcher]; [now] is what
    [Date.now()] returns when the record is built. *)
Definition event_handler (now : Z) (event : JsVal) : Task unit :=
  if negb (truthy event)
     || negb (strict_eq (prop event "type") (JStr "session.error"))
  then ret tt
  else
    state <- get_plugin ;;
    if negb (enabled (config state)) then ret tt
    else
      let config := config state in
      if negb (isCreditExhausted event config) then ret tt
      else
        match extractSessionId event with
        | None => await (safeLog "warn" "Credit error without session id")
        | Some sessionId =>
            if negb (nonempty sessionId)
            then await (safeLog "warn" "Credit error without session id")
            else
              if has (attemptedSessions state) sessionId then ret tt
              else
                licensed <- await (hasRequiredProviders config) ;;
                if negb licensed
                then await (safeLog "warn"
                              "Required providers not configured; skipping fallback")
                else
                  let primaryModel := parseModel (JStr (primaryModel config)) in
                  match parseModel (JStr (fallbackModel config)) with
                  | None => await (safeLog "error" "Invalid fallbackModel in config")
                  | Some fallbackModel =>
                      sessionModel <- await (getSessionModel sessionId) ;;
                      if provider_mismatch primaryModel sessionModel then ret tt
                      else
                        lastUserMessage <- await (getLastUserMessage sessionId) ;;
                        match lastUserMessage with
                        | None => await (safeLog "warn" "No user message to retry")
                        | Some entry =>
                            let p := {| plan_sessionId := sessionId;
                                        plan_primaryModel := primaryModel;
                                        plan_fallbackModel := fallbackModel;
                                        plan_sessionModel := sessionModel;
                                        plan_lastUserMessage := entry |} in
                            shouldRetry <- await (confirmFallback config) ;;
                            if negb shouldRetry
                            then
                              modify (with_attempted sessionId) ;;;
                              await (safeLog "info" "User declined fallback retry")
                            else
                              modify (with_attempted sessionId) ;;;
                              await (safeLog "info" "Retrying with fallback model") ;;;
                              state <- get_plugin ;;
                              match stateData state with
                              | Some _ =>
                                  modify (store_record sessionId (fallback_record now p)) ;;;
                                  await (saveState (statePath state))
                              | None => ret tt
                              end ;;;
                              call (SessionPrompt sessionId
                                      (providerId fallbackModel) (modelId fallbackModel)
                                      (prop entry "parts")) ;;;
                              if notifications_toastOnFallback config
                              then try_catch
                                     (call (TuiShowToast
                                              "Credits exhausted. Switched to fallback model."
                                              "warning") ;;; ret tt)
                                     (await (safeLog "debug" "Toast failed"))
                              else ret tt
                        end
                  end
        end.

End Plugin.

(** The body of the loop of [runRestoreCheck] for one entry of the snapshot
    [Object.entries(sessions)]; the pass never writes the fields of the record
    it reads. *)
Definition restore_record (config : Config) (now threshold : Z)
    (sessionId : string) (record : FallbackRecord.t) : Task unit :=
  let exhaustedAt := record_exhaustedAt record in
  if (exhaustedAt =? 0) || (now - exhaustedAt <? threshold) then ret tt
  else
    match record_originalModel config record, record_fallbackModel config record with
    | Some originalModel, Some fallbackModel =>
        sessionModel <- await (getSessionModel sessionId) ;;
        if is_some sessionModel && modelsEqual sessionModel (Some originalModel)
        then modify (mutate_record sessionId (with_restoredAt now))
        else if is_some sessionModel
                && negb (modelsEqual sessionModel (Some fallbackModel))
        then ret tt
        else
          updated <- await (setSessionModel sessionId (Some originalModel)) ;;
          modify (mutate_record sessionId (with_lastRestoreAttemptAt now)) ;;;
          if updated
          then
            modify (mutate_record sessionId (with_restoredAt now)) ;;;
            if notifications_toastOnRestore config
            then try_catch
                   (call (TuiShowToast
                            "Credits restored. Switched back to primary model."
                            "success") ;;; ret tt)
                   (await (safeLog "debug" "Restore toast failed"))
            else ret tt
          else await (safeLog "warn" "Failed to restore primary model")
    | _, _ => ret tt
    end.

(** The loop over [Object.entries(sessions)]. *)
Fixpoint sweep_records (config : Config) (now threshold : Z)
    (entries : list (string * FallbackRecord.t)) : Task unit :=
  match entries with
  | [] => ret tt
  | (sessionId, record) :: rest =>
      restore_record config now threshold sessionId record ;;;
      sweep_records config now threshold rest
  end.

(** [runRestoreCheck({ state, client, intervalMs })]; [now] is what
    [Date.now()] returns at its start. *)
Definition runRestoreCheck (now intervalMs : Z) : Task unit :=
  state <- get_plugin ;;
  if negb (restore_enabled (config state)) then ret tt
  else
    match stateData state with
    | None => ret tt
    | Some data =>
        let threshold := threshold_of intervalMs in
        if now - lastCheckAt data <? threshold then ret tt
        else
          modify (stamp_lastCheckAt now) ;;;
          sweep_records (config state) now threshold (sessions data) ;;;
          await (saveState (statePath state))
    end.

(** *** Running a task *)

(** Where a task stands after a turn. *)
Inductive Status (A : Type) : Type :=
| Done (r : Res A)
| Suspended (rest : Task A).

Arguments Done {A} r.
Arguments Suspended {A} rest.

Section Run.

Variable host : Host.

(** One turn: the task runs up to its next [await], or to its end. *)
Fixpoint advance {A : Type} (t : Task A) (w : World) : Status A * World :=
  match t with
  | Return a => (Done (Ok a), w)
  | Throw => (Done Exn, w)
  | Read k => advance (k (plugin w)) w
  | Write f next => advance next {| plugin := f (plugin w); trace := trace w |}
  | Pause next => (Suspended next, w)
  | Await c k => (Suspended (k (reply host (length (trace w)) c)), push c w)
  end.

(** The first turn of a task and [n] resumptions, with nothing else running
    in between. *)
Fixpoint resume {A : Type} (n : nat) (t : Task A) (w : World) : Status A * World :=
  match n with
  | O => advance t w
  | S n' =>
      match advance t w with
      | (Suspended rest, w') => resume n' rest w'
      | done => done
      end
  end.

(** The task run to its end with nothing else running in between. *)
Fixpoint complete {A : Type} (t : Task A) : M A :=
  match t with
  | Return a => fun w => (Ok a, w)
  | Throw => fun w => (Exn, w)
  | Read k => fun w => complete (k (plugin w)) w
  | Write f next => fun w => complete next {| plugin := f (plugin w); trace := trace w |}
  | Pause next => complete next
  | Await c k => fun w => complete (k (reply host (length (trace w)) c)) (push c w)
  end.

End Run.

End Async.

(** *** Vocabulary of the asynchronous runs *)

(** Every write of the task keeps [P]. *)
Fixpoint keeps {A : Type} (P : PluginState -> Prop) (t : Async.Task A) : Prop :=
  match t with
  | Async.Return _ | Async.Throw => True
  | Async.Read k => forall s, keeps P (k s)
  | Async.Write f next => (forall s, P s -> P (f s)) /\ keeps P next
  | Async.Pause next => keeps P next
  | Async.Await _ k => forall r, keeps P (k r)
  end.

(** The state has been checked at [now]. *)
Definition checked_at (now : Z) (s : PluginState) : Prop :=
  exists entries, stateData s = Some {| sessions := entries; lastCheckAt := now |}.

(** The confirm dialogs among the calls, and the prompts sent for a
    session. *)
Definition dialogs (calls : list Call) : nat :=
  length (filter (fun c => match c with TuiShowConfirm => true | _ => false end) calls).

Definition prompts_for (sessionId : string) (calls : list Call) : nat :=
  length (filter (fun c => match c with
                           | SessionPrompt id _ _ _ => (id =? sessionId)%string
                           | _ => false
                           end) calls).

(** A host with the session on ["p1/m1"] and a user who accepts in the
    confirm dialog, and the scenario configuration with the dialog on. *)
Definition accepting_host : Host :=
  scenario_host (JStr "p1/m1") [] (Returned JUndefined) (Returned (JBool true)).

Definition confirming_config : Config := scenario_config "p1/m1" "p2/m2" [] true.

(** The plugin state is the one it was: what a computation that only calls
    the host leaves of it. *)
Definition same_plugin (w w' : World) : Prop := plugin w' = plugin w.

(** ** The configuration and the state as loaded *)

(** [normalizeConfig] and [loadState] return what the files hold, whatever
    its types; [Config] and [PersistedState] are those values once every
    setting has the type the defaults give it.  The functions below read a
    loaded value into its typed form, and are [None] on a value that has
    none. *)

Fixpoint strings_of (items : list JsVal) : option (list string) :=
  match items with
  | [] => Some []
  | JStr s :: rest =>
      match strings_of rest with
      | Some l => Some (s :: l)
      | None => None
      end
  | _ :: _ => None
  end.

Fixpoint numbers_of (items : list JsVal) : option (list Z) :=
  match items with
  | [] => Some []
  | JNum n :: rest =>
      match numbers_of rest with
      | Some l => Some (n :: l)
      | None => None
      end
  | _ :: _ => None
  end.

Definition string_list (v : JsVal) : option (list string) :=
  match v with
  | JArr items => strings_of items
  | _ => None
  end.

Definition number_list (v : JsVal) : option (list Z) :=
  match v with
  | JArr items => numbers_of items
  | _ => None
  end.

(** The typed form of a loaded configuration: the two models are strings,
    the interval a number, the lists arrays of strings (of numbers for the
    statuses); the flags, which the plugin only tests, are their truth
    values. *)
Definition typed_config (loaded : JsVal) : option Config :=
  match prop loaded "primaryModel", prop loaded "fallbackModel",
        prop (prop loaded "restore") "intervalHours" with
  | JStr primary, JStr fallback, JNum hours =>
      match string_list (prop (prop loaded "licensing") "requireProviders"),
            number_list (prop (prop loaded "fallback") "onStatus"),
            string_list (prop (prop loaded "fallback") "onErrorCodes"),
            string_list (prop (prop loaded "fallback") "onMessageMatches") with
      | Some required, Some statuses, Some codes, Some fragments =>
          Some {| enabled := truthy (prop loaded "enabled");
                  primaryModel := primary;
                  fallbackModel := fallback;
                  licensing_requireProviders := required;
                  restore_enabled := truthy (prop (prop loaded "restore") "enabled");
                  restore_intervalHours := hours;
                  fallback_onStatus := statuses;
                  fallback_onErrorCodes := codes;
                  fallback_onMessageMatches := fragments;
                  notifications_toastOnFallback :=
                    truthy (prop (prop loaded "notifications") "toastOnFallback");
                  notifications_toastOnRestore :=
                    truthy (prop (prop loaded "notifications") "toastOnRestore");
                  notifications_confirmOnFallback :=
                    truthy (prop (prop loaded "notifications") "confirmOnFallback") |}
      | _, _, _, _ => None
      end
  | _, _, _ => None
  end.

(** A field of a record that is a number, a string, or missing ([null]
    counts as missing: the plugin reads these fields through [||]). *)
Definition number_field (v : JsVal) : option (option Z) :=
  match v with
  | JUndefined | JNull => Some None
  | JNum n => Some (Some n)
  | _ => None
  end.

Definition string_field (v : JsVal) : option (option string) :=
  match v with
  | JUndefined | JNull => Some None
  | JStr s => Some (Some s)
  | _ => None
  end.

Definition typed_record (v : JsVal) : option FallbackRecord.t :=
  match v with
  | JObj _ =>
      match number_field (prop v "exhaustedAt"), number_field (prop v "lastFallbackAt"),
            string_field (prop v "originalModel"), string_field (prop v "fallbackModel"),
            number_field (prop v "restoredAt"),
            number_field (prop v "lastRestoreAttemptAt") with
      | Some exhausted, Some last, Some original, Some fallback, Some restored,
        Some attempt =>
          Some {| FallbackRecord.exhaustedAt := exhausted;
                  FallbackRecord.lastFallbackAt := last;
                  FallbackRecord.originalModel := original;
                  FallbackRecord.fallbackModel := fallback;
                  FallbackRecord.restoredAt := restored;
                  FallbackRecord.lastRestoreAttemptAt := attempt |}
      | _, _, _, _, _, _ => None
      end
  | _ => None
  end.

Fixpoint typed_sessions (fields : list (string * JsVal))
  : option (list (string * FallbackRecord.t)) :=
  match fields with
  | [] => Some []
  | (sessionId, v) :: rest =>
      match typed_record v, typed_sessions rest with
      | Some record, Some entries => Some ((sessionId, record) :: entries)
      | _, _ => None
      end
  end.

(** The typed form of a loaded state: [sessions] is an object of records,
    [lastCheckAt] a number. *)
Definition typed_state (loaded : JsVal) : option PersistedState :=
  match prop loaded "sessions", prop loaded "lastCheckAt" with
  | JObj fields, JNum checked =>
      match typed_sessions fields with
      | Some entries => Some {| sessions := entries; lastCheckAt := checked |}
      | None => None
      end
  | _, _ => None
  end.

(** The plugin state [s] is the typed form of what was loaded. *)
Definition loaded_as (loadedConfig loadedState : JsVal) (s : PluginState) : Prop :=
  typed_config loadedConfig = Some (config s)
  /\ typed_state loadedState = stateData s.

Module Raw.

(** [values.some((value) => value.toLowerCase() === normalized)] on the list
    as loaded; [None] is the [TypeError] of calling [toLowerCase] on a member
    that has none, which [some] reaches unless a member before it matches. *)
Fixpoint some_equal (normalized : string) (values : list JsVal) : option bool :=
  match values with
  | [] => Some false
  | JStr value :: rest =>
      if (toLowerCase value =? normalized)%string then Some true
      else some_equal normalized rest
  | _ :: _ => None
  end.

(** [values.some((value) => text.includes(value.toLowerCase()))]. *)
Fixpoint some_included (text : string) (values : list JsVal) : option bool :=
  match values with
  | [] => Some false
  | JStr value :: rest =>
      if includes text (toLowerCase value) then Some true
      else some_included text rest
  | _ :: _ => None
  end.

(** [list.some(test)] for a [list] that need not be an array. *)
Definition some_of (test : list JsVal -> option bool) (list : JsVal) : option bool :=
  match list with
  | JArr values => test values
  | _ => None
  end.

(** [isCreditExhausted(event, config)] on the configuration as loaded. *)
Definition isCreditExhausted (event config : JsVal) : option bool :=
  let status := extractStatus event in
  let code := extractCode event in
  let text := extractText event in
  match some_of (fun values =>
                   Some (existsb (fun value => match ToNumber value, status with
                                               | Some v, Some n => v =? n
                                               | _, _ => false
                                               end) values))
                (prop (prop config "fallback") "onStatus") with
  | None => None
  | Some statusMatches =>
      match match code with
            | Some c =>
                if nonempty c
                then some_of (some_equal (toLowerCase c))
                             (prop (prop config "fallback") "onErrorCodes")
                else Some false
            | None => Some false
            end with
      | None => None
      | Some codeMatches =>
          match (if nonempty text
                 then some_of (some_included text)
                              (prop (prop config "fallback") "onMessageMatches")
                 else Some false) with
          | None => None
          | Some textMatches => Some (statusMatches || codeMatches || textMatches)
          end
      end
  end.

(** [Math.max(1, Number(config?.restore?.intervalHours || 24)) * 60 * 60 *
    1000] in [scheduleRestoreCheck]; [None] is [NaN]. *)
Definition intervalMs (config : JsVal) : option Z :=
  match ToNumber (js_or (prop (prop config "restore") "intervalHours") (JNum 24)) with
  | Some hours => Some (Z.max 1 hours * 60 * 60 * 1000)
  | None => None
  end.

(** [intervalMs || DAY_MS] in [runRestoreCheck]: [NaN] is falsy. *)
Definition threshold (intervalMs : option Z) : Z :=
  match intervalMs with
  | Some ms => threshold_of ms
  | None => DAY_MS
  end.

End Raw.

(** A loaded configuration with the given interval and the given lists of
    codes and message fragments; the other settings are those of the
    scenarios. *)
Definition loaded_config (intervalHours codes fragments : JsVal) : JsVal :=
  JObj [("enabled", JBool true);
        ("primaryModel", JStr "p1/m1");
        ("fallbackModel", JStr "p2/m2");
        ("licensing", JObj [("requireProviders", JArr [])]);
        ("restore", JObj [("enabled", JBool true); ("intervalHours", intervalHours)]);
        ("fallback",
         JObj [("onStatus", JArr [JNum 429]);
               ("onErrorCodes", codes);
               ("onMessageMatches", fragments)]);
        ("notifications",
         JObj [("toastOnFallback", JBool true); ("toastOnRestore", JBool true);
               ("confirmOnFallback", JBool false)])].

(** The world with another plugin state, and a computation that neither
    reads nor writes the plugin state: it does the same, whatever that
    state is. *)
Definition with_plugin (s : PluginState) (w : World) : World :=
  {| plugin := s; trace := trace w |}.

Definition host_only {A : Type} (m : M A) : Prop :=
  forall s w, m (with_plugin s w) = (fst (m w), with_plugin s (snd (m w))).

(** The plugin state [s] with the given entries, checked at [l]. *)
Definition checked_state (s : PluginState) (l : Z)
    (entries : list (string * FallbackRecord.t)) : PluginState :=
  with_stateData (Some {| sessions := entries; lastCheckAt := l |}) s.

(** * Properties *)

(** ** Strings and model references *)

Lemma split_cons (sep : ascii) (s : string) :
  exists h t, split sep s = h :: t.
Proof.
  destruct s as [|c r]; simpl.
  - eauto.
  - destruct (Ascii.eqb c sep); [eauto|].
    destruct (split sep r); eauto.
Qed.

Lemma join_cons (sep p : string) (rest : list string) :
  rest <> [] -> join sep (p :: rest) = p ++ sep ++ join sep rest.
Proof.
  destruct rest; [congruence | reflexivity].
Qed.

(** Joining the parts of a split with the separator gives the string back. *)
Lemma join_split (sep : ascii) (s : string) :
  join (String sep EmptyString) (split sep s) = s.
Proof.
  induction s as [|c r IH]; [reflexivity|].
  cbn [split].
  destruct (Ascii.eqb_spec c sep) as [->|Hne].
  - destruct (split_cons sep r) as (h & t & E).
    rewrite join_cons by (rewrite E; discriminate).
    rewrite IH. reflexivity.
  - destruct (split_cons sep r) as (h & t & E).
    rewrite E in *.
    destruct t as [|h' t'].
    + cbn in *. now rewrite IH.
    + cbv iota beta.
      rewrite (join_cons _ (String c h)) by discriminate.
      rewrite <- IH, (join_cons _ h) by discriminate.
      reflexivity.
Qed.

Lemma truthy_JStr (s : string) : truthy (JStr s) = nonempty s.
Proof. reflexivity. Qed.

(** A parsed model whose two ids are not empty prints as the string it was
    parsed from. *)
Lemma modelToString_parseModel (s : string) (m : ModelRef) :
  parseModel (JStr s) = Some m ->
  modelToString (Some m) = None
  \/ (modelToString (Some m) = Some s /\ nonempty s = true).
Proof.
  unfold parseModel. rewrite truthy_JStr.
  destruct (nonempty s) eqn:Hs; cbn [negb]; [|discriminate].
  destruct (split_cons "/" s) as (h & t & E).
  pose proof (join_split "/" s) as J. rewrite E in *.
  destruct t as [|h' t']; cbn -[join modelToString]; [intros [=]|].
  intros [= <-]. cbn [modelToString providerId modelId ToString].
  match goal with |- context [if ?b then _ else _] => destruct b end; [|now left].
  right. split; [|reflexivity].
  rewrite <- J. reflexivity.
Qed.

(** The record the engine builds for a plan parses back, in the sweep of the
    same configuration, to the fallback model of the plan. *)
Lemma record_fallbackModel_round_trip (cfg : Config) (now : Z) (p : Plan) :
  parseModel (JStr (fallbackModel cfg)) = Some (plan_fallbackModel p) ->
  record_fallbackModel cfg (fallback_record now p) = Some (plan_fallbackModel p).
Proof.
  intros Hparse.
  unfold record_fallbackModel, fallback_record; cbn [FallbackRecord.fallbackModel].
  destruct (modelToString_parseModel _ _ Hparse) as [-> | [-> Hs]];
    cbn [string_or]; [assumption|].
  now rewrite Hs.
Qed.

(** ** Relations that every step of a computation respects *)

Section Respects.

Variable R : World -> World -> Prop.
Hypothesis R_refl : forall w, R w w.
Hypothesis R_trans : forall a b c, R a b -> R b c -> R a c.

(** The calls the relation tolerates. *)
Variable ok : Call -> bool.
Hypothesis R_call : forall c w, ok c = true -> R w (push c w).

Variable host : Host.

Lemma respects_ret {A : Type} (a : A) : respects R (ret a).
Proof. intros w. apply R_refl. Qed.

Lemma respects_throw {A : Type} : respects R (@throw A).
Proof. intros w. apply R_refl. Qed.

Lemma respects_get_plugin : respects R get_plugin.
Proof. intros w. apply R_refl. Qed.

Lemma respects_bind {A B : Type} (m : M A) (k : A -> M B) :
  respects R m -> (forall a, respects R (k a)) -> respects R (bind m k).
Proof.
  intros Hm Hk w. unfold bind.
  specialize (Hm w). destruct (m w) as [[a|] w1]; cbn [snd] in *.
  - eapply R_trans; [exact Hm | apply Hk].
  - exact Hm.
Qed.

Lemma respects_try_catch {A : Type} (body handler : M A) :
  respects R body -> respects R handler -> respects R (try_catch body handler).
Proof.
  intros Hb Hh w. unfold try_catch.
  specialize (Hb w). destruct (body w) as [[a|] w1]; cbn [snd] in *.
  - exact Hb.
  - eapply R_trans; [exact Hb | apply Hh].
Qed.

Lemma respects_call (c : Call) : ok c = true -> respects R (call host c).
Proof.
  intros Hc w. unfold call.
  destruct (reply host (length (trace w)) c); cbn [snd]; now apply R_call.
Qed.

End Respects.

(** One step of a proof that a program respects a relation: peel a
    combinator, or split on the scrutinee of a conditional. *)
Ltac respects_step :=
  match goal with
  | |- respects _ (bind _ _) => apply respects_bind; [assumption .. | | intros ?]
  | |- respects _ (try_catch _ _) => apply respects_try_catch; [assumption .. | |]
  | |- respects _ (call _ _) =>
      eapply respects_call; [eassumption .. | solve [auto]]
  | |- respects _ (ret _) => apply respects_ret; assumption
  | |- respects _ throw => apply respects_throw; assumption
  | |- respects _ get_plugin => apply respects_get_plugin; assumption
  | |- respects _ (if ?b then _ else _) => destruct b
  | |- respects _ (match ?x with _ => _ end) => destruct x
  end.

Ltac respects_auto := repeat respects_step; eauto.

Section RespectsHost.

Variable R : World -> World -> Prop.
Hypothesis R_refl : forall w, R w w.
Hypothesis R_trans : forall a b c, R a b -> R b c -> R a c.
Variable ok : Call -> bool.
Hypothesis R_call : forall c w, ok c = true -> R w (push c w).
Hypothesis ok_log : forall level message, ok (AppLog level message) = true.

Variable host : Host.

Lemma respects_safeLog (level message : string) :
  respects R (safeLog host level message).
Proof. unfold safeLog. respects_auto. Qed.

Lemma respects_getProviders :
  ok ConfigProviders = true -> respects R (getProviders host).
Proof. intros Hok. unfold getProviders. respects_auto. Qed.

Lemma respects_hasRequiredProviders (config : Config) :
  ok ConfigProviders = true -> respects R (hasRequiredProviders host config).
Proof.
  intros Hok. unfold hasRequiredProviders.
  destruct (licensing_requireProviders config); [respects_auto|].
  apply respects_bind; try assumption; [now apply respects_getProviders|].
  intros providers. respects_auto.
Qed.

Lemma respects_getSessionModel (sessionId : string) :
  ok (SessionGet sessionId) = true -> respects R (getSessionModel host sessionId).
Proof. intros Hok. unfold getSessionModel. respects_auto. Qed.

Lemma respects_getLastUserMessage (sessionId : string) :
  ok (SessionMessages sessionId) = true ->
  respects R (getLastUserMessage host sessionId).
Proof. intros Hok. unfold getLastUserMessage. respects_auto. Qed.

(** The checks of the handler issue queries only and write nothing. *)
Lemma respects_fallback_checks (event : JsVal) :
  (forall c, is_query c = true -> ok c = true) ->
  respects R (fallback_checks host event).
Proof.
  intros Hquery.
  pose proof respects_safeLog.
  pose proof (fun config =>
                respects_hasRequiredProviders config (Hquery ConfigProviders eq_refl)).
  pose proof (fun id => respects_getSessionModel id (Hquery (SessionGet id) eq_refl)).
  pose proof (fun id =>
                respects_getLastUserMessage id (Hquery (SessionMessages id) eq_refl)).
  unfold fallback_checks. respects_auto.
Qed.

Lemma respects_saveState_ok (path : option string) (data : PersistedState) :
  (forall p, ok (BunMkdir p) = true) ->
  (forall p d, ok (BunWrite p d) = true) ->
  respects R (saveState host path data).
Proof.
  intros Hmkdir Hwrite. pose proof respects_safeLog.
  unfold saveState. respects_auto.
Qed.

(** The loop body of the sweep, when the relation tolerates the read and
    the update of this session, and the toast. *)
Lemma respects_restore_record_ok (config : Config) (now threshold : Z)
    (sessionId : string) (record : FallbackRecord.t) :
  ok (SessionGet sessionId) = true ->
  (forall providerID modelID,
      ok (SessionUpdate sessionId providerID modelID) = true) ->
  (forall message variant, ok (TuiShowToast message variant) = true) ->
  respects R (restore_record host config now threshold sessionId record).
Proof.
  intros Hget Hupdate Htoast.
  pose proof respects_safeLog. pose proof (respects_getSessionModel _ Hget).
  unfold restore_record, setSessionModel. respects_auto.
Qed.

End RespectsHost.

Section RespectsPlugin.

Variable R : World -> World -> Prop.
Hypothesis R_refl : forall w, R w w.
Hypothesis R_trans : forall a b c, R a b -> R b c -> R a c.
Hypothesis R_push : forall c w, R w (push c w).
Hypothesis R_modify_attempted :
  forall sessionId w,
    R w {| plugin := with_attempted sessionId (plugin w); trace := trace w |}.
Hypothesis R_modify_stateData :
  forall d w,
    R w {| plugin := with_stateData d (plugin w); trace := trace w |}.

Variable host : Host.

(** Every call is tolerated here. *)
Let any (_ : Call) : bool := true.
Let R_call (c : Call) (w : World) (_ : any c = true) : R w (push c w) :=
  R_push c w.
Let any_log (level message : string) : any (AppLog level message) = true :=
  eq_refl.

Lemma respects_modify_attempted (sessionId : string) :
  respects R (modify (with_attempted sessionId)).
Proof. intros w. apply R_modify_attempted. Qed.

Lemma respects_modify_stateData (d : option PersistedState) :
  respects R (modify (with_stateData d)).
Proof. intros w. apply R_modify_stateData. Qed.


Lemma respects_saveState (path : option string) (data : PersistedState) :
  respects R (saveState host path data).
Proof.
  pose proof (respects_safeLog R R_refl R_trans any R_call any_log host).
  unfold saveState. respects_auto.
Qed.

Lemma respects_confirmFallback (config : Config) :
  respects R (confirmFallback host config).
Proof.
  pose proof (respects_safeLog R R_refl R_trans any R_call any_log host).
  unfold confirmFallback. respects_auto.
Qed.

Lemma respects_setSessionModel (sessionId : string) (model : option ModelRef) :
  respects R (setSessionModel host sessionId model).
Proof. unfold setSessionModel. respects_auto. Qed.

Lemma respects_offer_fallback (now : Z) (p : Plan) :
  respects R (offer_fallback host now p).
Proof.
  pose proof (respects_safeLog R R_refl R_trans any R_call any_log host).
  pose proof respects_saveState. pose proof respects_confirmFallback.
  pose proof respects_modify_attempted. pose proof respects_modify_stateData.
  unfold offer_fallback. respects_auto.
Qed.

Lemma respects_event_handler (now : Z) (event : JsVal) :
  respects R (event_handler host now event).
Proof.
  pose proof (fun event =>
                respects_fallback_checks R R_refl R_trans any R_call any_log host
                  event (fun _ _ => eq_refl)).
  pose proof respects_offer_fallback.
  unfold event_handler. respects_auto.
Qed.

Lemma respects_restore_record (config : Config) (now threshold : Z)
    (sessionId : string) (record : FallbackRecord.t) :
  respects R (restore_record host config now threshold sessionId record).
Proof.
  pose proof (respects_safeLog R R_refl R_trans any R_call any_log host).
  pose proof (fun id =>
                respects_getSessionModel R R_refl R_trans any R_call host
                  id eq_refl).
  pose proof respects_setSessionModel.
  unfold restore_record. respects_auto.
Qed.

Lemma respects_sweep_records (config : Config) (now threshold : Z)
    (entries : list (string * FallbackRecord.t)) :
  respects R (sweep_records host config now threshold entries).
Proof.
  pose proof respects_restore_record.
  induction entries as [|[sessionId record] rest IH]; cbn [sweep_records];
    respects_auto.
Qed.

Lemma respects_runRestoreCheck (now intervalMs : Z) :
  respects R (runRestoreCheck host now intervalMs).
Proof.
  pose proof respects_sweep_records. pose proof respects_saveState.
  pose proof respects_modify_stateData.
  unfold runRestoreCheck. respects_auto.
Qed.

End RespectsPlugin.

(** ** The relations used below *)

Lemma only_calls_refl (ok : Call -> bool) (w : World) : only_calls ok w w.
Proof.
  split; [reflexivity|]. exists []. split; [now rewrite app_nil_r | reflexivity].
Qed.

Lemma only_calls_trans (ok : Call -> bool) (a b c : World) :
  only_calls ok a b -> only_calls ok b c -> only_calls ok a c.
Proof.
  intros [Hp (i1 & Ht1 & Hf1)] [Hq (i2 & Ht2 & Hf2)]. split; [congruence|].
  exists (i1 ++ i2)%list. split.
  - now rewrite Ht2, Ht1, app_assoc.
  - rewrite forallb_app, Hf1, Hf2. reflexivity.
Qed.

Lemma only_calls_push (ok : Call -> bool) (c : Call) (w : World) :
  ok c = true -> only_calls ok w (push c w).
Proof.
  intros Hc. split; [reflexivity|]. exists [c]. split; [reflexivity|].
  cbn. now rewrite Hc.
Qed.

Lemma only_calls_weaken (ok ok' : Call -> bool) (w w' : World) :
  (forall c, ok c = true -> ok' c = true) ->
  only_calls ok w w' -> only_calls ok' w w'.
Proof.
  intros Hsub [Hp (issued & Ht & Hf)]. split; [exact Hp|].
  exists issued. split; [exact Ht|].
  rewrite forallb_forall in *. auto.
Qed.

Lemma attempted_grows_refl (w : World) : attempted_grows w w.
Proof. intros id H. exact H. Qed.

Lemma attempted_grows_trans (a b c : World) :
  attempted_grows a b -> attempted_grows b c -> attempted_grows a c.
Proof. intros H1 H2 id H. apply H2, H1, H. Qed.

Lemma attempted_grows_push (c : Call) (w : World) : attempted_grows w (push c w).
Proof. intros id H. exact H. Qed.

Lemma has_app (ids more : list string) (id : string) :
  has (ids ++ more) id = has ids id || has more id.
Proof. unfold has. apply existsb_app. Qed.

Lemma has_add_same (ids : list string) (id : string) : has (add ids id) id = true.
Proof.
  unfold add. destruct (has ids id) eqn:E; [exact E|].
  rewrite has_app. cbn. rewrite String.eqb_refl. now rewrite orb_true_r.
Qed.

Lemma has_add_other (ids : list string) (id x : string) :
  has ids x = true -> has (add ids id) x = true.
Proof.
  intros H. unfold add. destruct (has ids id); [exact H|].
  rewrite has_app, H. reflexivity.
Qed.

Lemma attempted_grows_attempted (sessionId : string) (w : World) :
  attempted_grows w
    {| plugin := with_attempted sessionId (plugin w); trace := trace w |}.
Proof. intros id H. cbn. now apply has_add_other. Qed.

Lemma attempted_grows_stateData (d : option PersistedState) (w : World) :
  attempted_grows w {| plugin := with_stateData d (plugin w); trace := trace w |}.
Proof. intros id H. exact H. Qed.

(** The checks of the handler leave the plugin state alone and only query
    the host. *)
Lemma fallback_checks_only_queries (host : Host) (event : JsVal) :
  respects (only_calls is_query) (fallback_checks host event).
Proof.
  exact (respects_fallback_checks _ (only_calls_refl _) (only_calls_trans _)
           is_query (only_calls_push _) (fun _ _ => eq_refl) host event
           (fun _ H => H)).
Qed.

Lemma event_handler_attempted_grows (host : Host) (now : Z) (event : JsVal) :
  respects attempted_grows (event_handler host now event).
Proof.
  exact (respects_event_handler _ attempted_grows_refl attempted_grows_trans
           attempted_grows_push attempted_grows_attempted attempted_grows_stateData
           host now event).
Qed.

Lemma runRestoreCheck_attempted_grows (host : Host) (now intervalMs : Z) :
  respects attempted_grows (runRestoreCheck host now intervalMs).
Proof.
  exact (respects_runRestoreCheck _ attempted_grows_refl attempted_grows_trans
           attempted_grows_push attempted_grows_stateData host now intervalMs).
Qed.

Lemma step_attempted_grows (s : Step) (w : World) : attempted_grows w (step s w).
Proof.
  destruct s; cbn [step].
  - apply event_handler_attempted_grows.
  - apply runRestoreCheck_attempted_grows.
Qed.

(** ** Running a computation *)

(** Unfold the combinators in [H] and split on what the run depends on. *)
Ltac run_in H :=
  repeat (unfold bind, ret, throw, get_plugin, modify, try_catch in H;
          cbn [fst snd] in H;
          match type of H with
          | context [if ?b then _ else _] => destruct b eqn:?
          | context [match ?x with _ => _ end] => destruct x eqn:?
          end);
  unfold bind, ret, throw, get_plugin, modify, try_catch in H;
  cbn [fst snd] in H.

Lemma first_candidate_some {A : Type} (pick : JsVal -> option A)
    (candidates : list JsVal) (a : A) :
  first_candidate pick candidates = Some a ->
  exists value, In value candidates /\ pick value = Some a.
Proof.
  induction candidates as [|v rest IH]; cbn; [discriminate|].
  destruct (pick v) eqn:E.
  - intros [= <-]. eauto.
  - intros H. destruct (IH H) as (value & Hin & Hp). eauto.
Qed.

Lemma nonblank_trim (value : JsVal) (s : string) :
  option_map trim (nonblank_string value) = Some s -> nonempty s = true.
Proof.
  destruct value; cbn; try discriminate.
  destruct (trim s0 =? "")%string eqn:E; cbn; [discriminate|].
  intros [= <-]. unfold nonempty. now rewrite E.
Qed.

Lemma extractSessionId_nonempty (event : JsVal) (sessionId : string) :
  extractSessionId event = Some sessionId -> nonempty sessionId = true.
Proof.
  intros H. apply first_candidate_some in H as (value & _ & H).
  eapply nonblank_trim, H.
Qed.

Lemma extractCode_nonempty (event : JsVal) (code : string) :
  extractCode event = Some code -> nonempty code = true.
Proof.
  intros H. apply first_candidate_some in H as (value & _ & H).
  eapply nonblank_trim, H.
Qed.

(** What the handler has established when it reaches the offer. *)
Lemma fallback_checks_plan (host : Host) (event : JsVal) (w : World) (p : Plan) :
  fst (fallback_checks host event w) = Ok (Some p) ->
  extractSessionId event = Some (plan_sessionId p)
  /\ has (attemptedSessions (plugin w)) (plan_sessionId p) = false
  /\ isCreditExhausted event (config (plugin w)) = true
  /\ parseModel (JStr (fallbackModel (config (plugin w)))) = Some (plan_fallbackModel p)
  /\ plan_primaryModel p = parseModel (JStr (primaryModel (config (plugin w))))
  /\ provider_mismatch (plan_primaryModel p) (plan_sessionModel p) = false
  /\ exists w0 w1,
       hasRequiredProviders host (config (plugin w)) w = (Ok true, w0)
       /\ getSessionModel host (plan_sessionId p) w0 = (Ok (plan_sessionModel p), w1).
Proof.
  intros H. unfold fallback_checks in H.
  run_in H; try discriminate.
  injection H as <-. cbn [plan_sessionId plan_primaryModel plan_fallbackModel
                            plan_sessionModel].
  rewrite negb_false_iff in *. subst. eauto 12.
Qed.

(** Without an offer, the handler is its checks: queries and nothing else. *)
Lemma event_handler_no_offer (host : Host) (now : Z) (event : JsVal) (w : World) :
  (forall p, fst (fallback_checks host event w) <> Ok (Some p)) ->
  only_calls is_query w (snd (event_handler host now event w)).
Proof.
  intros Hno. pose proof (fallback_checks_only_queries host event w) as Hq.
  unfold event_handler, bind.
  destruct (fallback_checks host event w) as [[[p|]|] w1]; cbn [fst snd] in *;
    [now elim (Hno p) | exact Hq | exact Hq].
Qed.

(** Once the session is in the attempted set the handler returns at once:
    nothing is called and nothing is written. *)
Lemma event_handler_attempted (host : Host) (now : Z) (event : JsVal) (w : World)
    (sessionId : string) :
  extractSessionId event = Some sessionId ->
  has (attemptedSessions (plugin w)) sessionId = true ->
  event_handler host now event w = (Ok tt, w).
Proof.
  intros Hid Hhas. pose proof (extractSessionId_nonempty _ _ Hid) as Hne.
  unfold event_handler, fallback_checks. rewrite Hid, Hne. cbn [negb].
  unfold bind, ret, get_plugin.
  repeat match goal with
         | |- context [if ?b then _ else _] => destruct b eqn:?
         end; try reflexivity; congruence.
Qed.

Lemma confirmFallback_returns (host : Host) (config : Config) (w : World) :
  exists b, fst (confirmFallback host config w) = Ok b.
Proof.
  unfold confirmFallback, safeLog, call, bind, ret, try_catch.
  destruct (notifications_confirmOnFallback config); cbn [negb fst]; eauto.
  destruct (tui_showConfirm host); cbn [negb fst]; eauto.
  repeat match goal with
         | |- context [reply ?h ?n ?c] => destruct (reply h n c)
         end; cbn [fst]; eauto.
Qed.

Lemma grows_has (w w' : World) (id : string) :
  attempted_grows w w' ->
  has (attemptedSessions (plugin w)) id = true ->
  has (attemptedSessions (plugin w')) id = true.
Proof. intros H. apply H. Qed.

(** Reaching the offer puts the session in the attempted set, whatever the
    answer and whatever happens afterwards. *)
Lemma offer_fallback_attempted (host : Host) (now : Z) (p : Plan) (w : World) :
  has (attemptedSessions (plugin (snd (offer_fallback host now p w))))
      (plan_sessionId p) = true.
Proof.
  unfold offer_fallback.
  unfold bind at 1. unfold get_plugin at 1. unfold bind at 1.
  destruct (confirmFallback_returns host (config (plugin w)) w) as [b Hb].
  destruct (confirmFallback host (config (plugin w)) w) as [r w1].
  cbn [fst] in Hb. subst r.
  assert (Hgrow : forall (m : M unit),
             respects attempted_grows m ->
             has (attemptedSessions
                    (plugin (snd (bind (modify (with_attempted (plan_sessionId p)))
                                       (fun _ => m) w1))))
                 (plan_sessionId p) = true).
  { intros m Hm. unfold bind, modify.
    eapply grows_has; [apply Hm|]. cbn. apply has_add_same. }
  destruct b; cbn [negb]; apply Hgrow.
  - pose proof (respects_safeLog _ attempted_grows_refl attempted_grows_trans
                  any_call (fun c w _ => attempted_grows_push c w)
                  (fun _ _ => eq_refl) host).
    pose proof (respects_saveState _ attempted_grows_refl attempted_grows_trans
                  attempted_grows_push host).
    pose proof (respects_modify_stateData _ attempted_grows_stateData).
    pose proof attempted_grows_refl. pose proof attempted_grows_trans.
    pose proof (fun c w (_ : any_call c = true) => attempted_grows_push c w).
    respects_auto.
  - exact (respects_safeLog _ attempted_grows_refl attempted_grows_trans
             any_call (fun c w _ => attempted_grows_push c w)
             (fun _ _ => eq_refl) host _ _).
Qed.

(** ** At most one offer per session *)

Lemma offers_at_fresh (sessionId : string) (s : Step) (w : World) :
  offers_at sessionId s w = true ->
  has (attemptedSessions (plugin w)) sessionId = false
  /\ has (attemptedSessions (plugin (step s w))) sessionId = true.
Proof.
  destruct s as [host now event | host now intervalMs]; cbn [offers_at step];
    [|discriminate].
  destruct (fst (fallback_checks host event w)) as [[p|]|] eqn:E; try discriminate.
  intros Hid. apply String.eqb_eq in Hid. subst sessionId.
  destruct (fallback_checks_plan _ _ _ _ E) as (_ & Hfresh & _).
  split; [exact Hfresh|].
  unfold event_handler, bind.
  destruct (fallback_checks host event w) as [r w1]. cbn [fst] in E. subst r.
  apply offer_fallback_attempted.
Qed.

Lemma offers_none_once_attempted (sessionId : string) (steps : list Step) :
  forall w,
    has (attemptedSessions (plugin w)) sessionId = true ->
    offers sessionId steps w = 0%nat.
Proof.
  induction steps as [|s rest IH]; intros w Hhas; cbn [offers]; [reflexivity|].
  destruct (offers_at sessionId s w) eqn:E.
  - apply offers_at_fresh in E as [Hfresh _]. congruence.
  - rewrite IH; [reflexivity|].
    eapply grows_has; [apply step_attempted_grows | exact Hhas].
Qed.

(** When the events are handled one after the other (each call of the
    handler ends before the next one starts, sweeps in between, each against
    an arbitrary host behaviour) at most one fallback offer is made for a
    session id; reaching the offer adds the id to the attempted set whether
    the user accepts or declines; and an event that carries an id already in
    the set makes the handler return with no call and no write. *)
Theorem at_most_one_offer_per_session (sessionId : string) :
  (forall steps w, (offers sessionId steps w <= 1)%nat)
  /\ (forall host now event w p,
        fst (fallback_checks host event w) = Ok (Some p) ->
        has (attemptedSessions (plugin (snd (event_handler host now event w))))
            (plan_sessionId p) = true)
  /\ (forall host now event w,
        extractSessionId event = Some sessionId ->
        has (attemptedSessions (plugin w)) sessionId = true ->
        event_handler host now event w = (Ok tt, w))
  /\ (forall steps s w,
        has (attemptedSessions (plugin w)) sessionId = true ->
        offers_at sessionId s (run steps w) = false).
Proof.
  split; [|split; [|split]].
  - induction steps as [|s rest IH]; intros w; cbn [offers]; [lia|].
    destruct (offers_at sessionId s w) eqn:E.
    + apply offers_at_fresh in E as [_ Hadded].
      rewrite (offers_none_once_attempted _ _ _ Hadded). lia.
    + specialize (IH (step s w)). lia.
  - intros host now event w p E.
    unfold event_handler, bind.
    destruct (fallback_checks host event w) as [r w1]. cbn [fst] in E. subst r.
    apply offer_fallback_attempted.
  - intros host now event w. apply event_handler_attempted.
  - induction steps as [|s' rest IH]; intros s w Hhas; cbn [run].
    + destruct (offers_at sessionId s w) eqn:E; [|reflexivity].
      apply offers_at_fresh in E as [Hfresh _]. congruence.
    + apply IH. eapply grows_has; [apply step_attempted_grows | exact Hhas].
Qed.

(** ** Two events of one session that overlap *)

(** C2.  The guard fails when two events of one session overlap.  The
    handler tests [attemptedSessions] when it starts and adds the session only
    after it has awaited the provider list, the session, the messages and the
    confirm dialog.  Here the first call of the handler is suspended with its
    dialog open, the session not yet marked; a second event of the same
    session is then handled to its end: it passes the guard, opens a second
    dialog and sends the prompt; the first call, resumed, sends the prompt
    again although the session is marked by then.  Handled one after the
    other, the same two events give one dialog and one prompt. *)
Theorem overlapping_events_offer_twice :
  let host := accepting_host in
  let w := scenario_world confirming_config [] 0 in
  exists first w1,
    Async.resume host 5 (Async.event_handler host 3000 scenario_event) w
    = (Async.Suspended first, w1)
    /\ trace w1 = [SessionGet "s1"; SessionMessages "s1"; TuiShowConfirm]
    /\ has (attemptedSessions (plugin w1)) "s1" = false
    /\ (let w2 := snd (Async.complete host
                         (Async.event_handler host 2000 scenario_event) w1) in
        let w3 := snd (Async.complete host first w2) in
        dialogs (trace w2) = 2%nat
        /\ prompts_for "s1" (trace w2) = 1%nat
        /\ has (attemptedSessions (plugin w2)) "s1" = true
        /\ dialogs (trace w3) = 2%nat
        /\ prompts_for "s1" (trace w3) = 2%nat)
    /\ (let w' := run [Dispatch host 2000 scenario_event;
                       Dispatch host 3000 scenario_event] w in
        dialogs (trace w') = 1%nat /\ prompts_for "s1" (trace w') = 1%nat).
Proof.
  cbv zeta. eexists. eexists. split; [vm_compute; reflexivity|].
  vm_compute. repeat split.
Qed.

(** ** The trigger condition *)

Lemma toLowerCase_nonempty (s : string) : nonempty (toLowerCase s) = nonempty s.
Proof. destruct s; reflexivity. Qed.

Lemma nonblank_nonempty (value : JsVal) (s : string) :
  nonblank_string value = Some s -> nonempty s = true.
Proof.
  destruct value; cbn; try discriminate.
  destruct (trim s0 =? "")%string eqn:E; cbn; [discriminate|].
  intros [= <-]. destruct s0; [discriminate | reflexivity].
Qed.

(** The text extracted from an event that is an object is never empty: it is
    a message, or a serialisation that starts with a brace. *)
Lemma extractText_nonempty (fields : list (string * JsVal)) :
  nonempty (extractText (JObj fields)) = true.
Proof.
  unfold extractText.
  destruct (first_candidate _ _) as [text|] eqn:E.
  - apply first_candidate_some in E as (value & _ & E).
    destruct (nonblank_string value) as [s|] eqn:Es; cbn in E; [|discriminate].
    injection E as <-. rewrite toLowerCase_nonempty.
    eapply nonblank_nonempty, Es.
  - reflexivity.
Qed.

Lemma status_matches_iff (event : JsVal) (config : Config) :
  existsb (fun value => match extractStatus event with
                        | Some n => value =? n
                        | None => false
                        end) (fallback_onStatus config) = true
  <-> status_signal event config.
Proof.
  unfold status_signal. rewrite existsb_exists. split.
  - intros (value & Hin & H). destruct (extractStatus event) as [n|]; [|discriminate].
    apply Z.eqb_eq in H. subst. eauto.
  - intros (n & -> & Hin). exists n. split; [exact Hin | apply Z.eqb_refl].
Qed.

Lemma code_matches_iff (event : JsVal) (config : Config) :
  match extractCode event with
  | Some c =>
      nonempty c
      && existsb (fun value => (toLowerCase value =? toLowerCase c)%string)
           (fallback_onErrorCodes config)
  | None => false
  end = true
  <-> code_signal event config.
Proof.
  unfold code_signal. split.
  - destruct (extractCode event) as [c|]; [|discriminate].
    rewrite andb_true_iff, existsb_exists.
    intros (_ & value & Hin & H). apply String.eqb_eq in H. eauto.
  - intros (c & value & E & Hin & H). rewrite E.
    rewrite (extractCode_nonempty _ _ E). cbn [andb].
    apply existsb_exists. exists value. split; [exact Hin|].
    now apply String.eqb_eq.
Qed.

Lemma text_matches_iff (fields : list (string * JsVal)) (config : Config) :
  nonempty (extractText (JObj fields))
  && existsb (fun value => includes (extractText (JObj fields)) (toLowerCase value))
       (fallback_onMessageMatches config) = true
  <-> text_signal (JObj fields) config.
Proof.
  unfold text_signal. rewrite extractText_nonempty. cbn [andb].
  rewrite existsb_exists. reflexivity.
Qed.

(** The classifier is the disjunction of the three signals. *)
Lemma isCreditExhausted_iff (fields : list (string * JsVal)) (config : Config) :
  isCreditExhausted (JObj fields) config = true
  <-> status_signal (JObj fields) config
      \/ code_signal (JObj fields) config
      \/ text_signal (JObj fields) config.
Proof.
  unfold isCreditExhausted. cbv zeta.
  rewrite !orb_true_iff, status_matches_iff, code_matches_iff, text_matches_iff.
  tauto.
Qed.

(** An event the classifier rejects leaves no trace at all. *)
Lemma event_handler_not_exhausted (host : Host) (now : Z) (event : JsVal) (w : World) :
  isCreditExhausted event (config (plugin w)) = false ->
  event_handler host now event w = (Ok tt, w).
Proof.
  intros H. unfold event_handler, fallback_checks.
  destruct (negb (truthy event) || _); [reflexivity|].
  unfold bind, get_plugin, ret. cbv beta iota.
  destruct (negb (enabled (config (plugin w)))); [reflexivity|].
  rewrite H. reflexivity.
Qed.

(** Anything that is not an object is not a [session.error] event. *)
Lemma event_handler_not_object (host : Host) (now : Z) (event : JsVal) (w : World) :
  (forall fields, event <> JObj fields) ->
  event_handler host now event w = (Ok tt, w).
Proof.
  intros H. unfold event_handler, fallback_checks, bind, ret.
  destruct event; try reflexivity.
  - now destruct b.
  - cbn. now destruct (n =? 0).
  - cbn. now destruct (s =? "")%string.
  - now elim (H fields).
Qed.

(** ** Up to case *)

Lemma nat_of_lower_ascii (c : ascii) :
  nat_of_ascii (lower_ascii c)
  = if ((65 <=? nat_of_ascii c) && (nat_of_ascii c <=? 90))%nat
    then (nat_of_ascii c + 32)%nat
    else nat_of_ascii c.
Proof.
  unfold lower_ascii. cbv zeta.
  destruct ((65 <=? nat_of_ascii c) && (nat_of_ascii c <=? 90))%nat eqn:E;
    [|reflexivity].
  apply andb_true_iff in E as [_ E]. apply Nat.leb_le in E.
  apply nat_ascii_embedding. lia.
Qed.

Lemma nat_of_ascii_eq (a b : ascii) : nat_of_ascii a = nat_of_ascii b -> a = b.
Proof.
  intros H. rewrite <- (ascii_nat_embedding a), <- (ascii_nat_embedding b).
  now rewrite H.
Qed.

(** Folding to lower case identifies exactly the characters that are the
    same letter. *)
Lemma lower_ascii_same_letter (a b : ascii) :
  lower_ascii a = lower_ascii b <-> same_letter a b.
Proof.
  unfold same_letter. cbv zeta. split.
  - intros H. apply (f_equal nat_of_ascii) in H.
    rewrite !nat_of_lower_ascii in H. revert H.
    destruct (Nat.leb_spec 65 (nat_of_ascii a)), (Nat.leb_spec (nat_of_ascii a) 90),
      (Nat.leb_spec 65 (nat_of_ascii b)), (Nat.leb_spec (nat_of_ascii b) 90);
      cbn [andb]; lia.
  - intros H. apply nat_of_ascii_eq. rewrite !nat_of_lower_ascii.
    destruct (Nat.leb_spec 65 (nat_of_ascii a)), (Nat.leb_spec (nat_of_ascii a) 90),
      (Nat.leb_spec 65 (nat_of_ascii b)), (Nat.leb_spec (nat_of_ascii b) 90);
      cbn [andb]; lia.
Qed.

Lemma toLowerCase_same_letters (s t : string) :
  toLowerCase s = toLowerCase t <-> same_letters s t.
Proof.
  revert t. induction s as [|a s IH]; intros [|b t]; cbn;
    try (split; [discriminate | contradiction]); [tauto|].
  rewrite <- IH, <- lower_ascii_same_letter. split.
  - intros [= H1 H2]. now split.
  - intros [-> ->]. reflexivity.
Qed.

Lemma toLowerCase_app (s t : string) :
  toLowerCase (s ++ t) = toLowerCase s ++ toLowerCase t.
Proof. induction s as [|a s IH]; cbn; [reflexivity | now rewrite IH]. Qed.

(** A text whose lower-case form splits in two splits the same way. *)
Lemma toLowerCase_split (s x y : string) :
  toLowerCase s = x ++ y ->
  exists a b, s = a ++ b /\ toLowerCase a = x /\ toLowerCase b = y.
Proof.
  revert s. induction x as [|c x IH]; intros s H.
  - exists "", s. now repeat split.
  - destruct s as [|d s]; [discriminate|]. cbn in H. injection H as Hc H.
    destruct (IH s H) as (a & b & -> & Ha & Hb).
    exists (String d a), b. cbn. now rewrite Hc, Ha.
Qed.

Lemma prefix_iff (t s : string) :
  prefix t s = true <-> exists after, s = t ++ after.
Proof.
  revert s. induction t as [|c t IH]; intros s.
  - destruct s; cbn; (split; [intros _; eauto | reflexivity]).
  - destruct s as [|d s]; cbn.
    + split; [discriminate | intros [after H]; discriminate].
    + destruct (ascii_dec c d) as [->|Hne].
      * rewrite IH. split; intros [after H]; exists after; [now rewrite H|].
        now injection H.
      * split; [discriminate | intros [after H]; injection H; congruence].
Qed.

Lemma includes_iff (s t : string) :
  includes s t = true <-> exists before after, s = before ++ t ++ after.
Proof.
  induction s as [|c s IH]; cbn [includes]; rewrite orb_true_iff, prefix_iff.
  - split.
    + intros [[after H]|H]; [|discriminate]. now exists "", after.
    + intros (before & after & H). left. exists after.
      destruct before; [exact H | discriminate].
  - rewrite IH. split.
    + intros [[after H]|(before & after & ->)].
      * now exists "", after.
      * now exists (String c before), after.
    + intros (before & after & H). destruct before as [|d before].
      * left. now exists after.
      * right. cbn in H. injection H as _ H. now exists before, after.
Qed.

(** [text.toLowerCase().includes(value.toLowerCase())] says that [value]
    occurs in [text] up to case. *)
Lemma includes_up_to_case (text value : string) :
  includes (toLowerCase text) (toLowerCase value) = true
  <-> contains_up_to_case text value.
Proof.
  unfold contains_up_to_case. rewrite includes_iff. split.
  - intros (x & z & H).
    destruct (toLowerCase_split _ _ _ H) as (before & rest & -> & _ & Hrest).
    destruct (toLowerCase_split _ _ _ Hrest) as (middle & after & -> & Hm & _).
    exists before, middle, after. split; [reflexivity|].
    now apply toLowerCase_same_letters.
  - intros (before & middle & after & -> & Hm).
    apply toLowerCase_same_letters in Hm.
    exists (toLowerCase before), (toLowerCase after).
    now rewrite !toLowerCase_app, Hm.
Qed.

Lemma first_candidate_map {A B : Type} (f : A -> B) (pick : JsVal -> option A)
    (candidates : list JsVal) :
  first_candidate (fun value => option_map f (pick value)) candidates
  = option_map f (first_candidate pick candidates).
Proof.
  induction candidates as [|v rest IH]; cbn; [reflexivity|].
  now destruct (pick v).
Qed.

(** [extractText] is the message text folded to lower case. *)
Lemma extractText_message_text (event : JsVal) :
  extractText event
  = match message_text event with
    | Some text => toLowerCase text
    | None => ""
    end.
Proof.
  unfold extractText, message_text. rewrite first_candidate_map.
  now destruct (first_candidate nonblank_string _).
Qed.

Lemma code_signal_up_to_case (event : JsVal) (config : Config) :
  code_signal event config <-> code_matches_up_to_case event config.
Proof.
  unfold code_signal, code_matches_up_to_case.
  split; intros (c & value & E & Hin & H); exists c, value;
    (split; [exact E|]); (split; [exact Hin|]);
    now apply toLowerCase_same_letters.
Qed.

Lemma text_signal_up_to_case (fields : list (string * JsVal)) (config : Config) :
  text_signal (JObj fields) config
  <-> text_contains_up_to_case (JObj fields) config.
Proof.
  unfold text_signal, text_contains_up_to_case.
  rewrite extractText_message_text.
  destruct (message_text (JObj fields)) as [text|] eqn:E.
  - split.
    + intros (value & Hin & H). exists text, value.
      split; [reflexivity|]. split; [exact Hin|]. now apply includes_up_to_case.
    + intros (text' & value & [= <-] & Hin & H). exists value.
      split; [exact Hin|]. now apply includes_up_to_case.
  - unfold message_text in E. cbn [JSON_stringify] in E.
    now destruct (first_candidate nonblank_string _).
Qed.

Lemma digits_of_pos_nonempty (fuel : nat) :
  forall (n : Z) (c : ascii) (acc : string),
    nonempty (digits_of_pos fuel n (String c acc)) = true.
Proof.
  induction fuel as [|fuel IH]; intros n c acc; cbn [digits_of_pos]; [reflexivity|].
  destruct (n <? 10); [reflexivity | apply IH].
Qed.

Lemma number_to_string_nonempty (n : Z) : nonempty (number_to_string n) = true.
Proof.
  unfold number_to_string. destruct (n <? 0); [reflexivity|].
  cbn [digits_of_pos]. destruct (n <? 10); [reflexivity | apply digits_of_pos_nonempty].
Qed.

(** What [JSON.stringify] writes is never the empty string. *)
Lemma JSON_stringify_nonempty (v : JsVal) (text : string) :
  JSON_stringify v = Some text -> nonempty text = true.
Proof.
  destruct v as [| |[]|n|s|items|fields]; cbn [JSON_stringify];
    try discriminate; intros [= <-]; try reflexivity.
  apply number_to_string_nonempty.
Qed.

Lemma message_text_nonempty (event : JsVal) (text : string) :
  message_text event = Some text -> nonempty text = true.
Proof.
  unfold message_text.
  destruct (first_candidate nonblank_string _) as [message|] eqn:E.
  - intros [= <-]. apply first_candidate_some in E as (value & _ & E).
    eapply nonblank_nonempty, E.
  - apply JSON_stringify_nonempty.
Qed.

(** The test of the text in [isCreditExhausted], for any event. *)
Lemma text_matches_up_to_case (event : JsVal) (config : Config) :
  nonempty (extractText event)
  && existsb (fun value => includes (extractText event) (toLowerCase value))
       (fallback_onMessageMatches config) = true
  <-> text_contains_up_to_case event config.
Proof.
  unfold text_contains_up_to_case. rewrite extractText_message_text.
  destruct (message_text event) as [text|] eqn:E.
  - rewrite toLowerCase_nonempty, (message_text_nonempty _ _ E). cbn [andb].
    rewrite existsb_exists. split.
    + intros (value & Hin & H). exists text, value.
      split; [reflexivity|]. split; [exact Hin|]. now apply includes_up_to_case.
    + intros (text' & value & [= <-] & Hin & H). exists value.
      split; [exact Hin|]. now apply includes_up_to_case.
  - cbn [nonempty String.eqb negb andb]. split; [discriminate|].
    intros (text & value & Hnone & _). discriminate.
Qed.

(** C3.  For every event and configuration, [isCreditExhausted] is true
    exactly when the extracted status is in the configured set, or the
    extracted code is a configured code up to case, or the message text
    contains a configured fragment up to case.  Equality and containment up
    to case are stated letter by letter ([same_letters],
    [contains_up_to_case]) on the text as it stands in the event, not
    through the lower-casing the code performs.  On every event for which
    none of the three holds the handler calls nothing and writes nothing,
    as it does on everything that is not an object. *)
Theorem trigger_is_any_signal (event : JsVal) (cfg : Config) :
  (isCreditExhausted event cfg = true
   <-> status_signal event cfg
       \/ code_matches_up_to_case event cfg
       \/ text_contains_up_to_case event cfg)
  /\ (forall host now w,
        config (plugin w) = cfg ->
        ~ (status_signal event cfg
           \/ code_matches_up_to_case event cfg
           \/ text_contains_up_to_case event cfg) ->
        event_handler host now event w = (Ok tt, w))
  /\ (forall host now w,
        (forall fields, event <> JObj fields) ->
        event_handler host now event w = (Ok tt, w)).
Proof.
  assert (Hiff : isCreditExhausted event cfg = true
                 <-> status_signal event cfg
                     \/ code_matches_up_to_case event cfg
                     \/ text_contains_up_to_case event cfg).
  { unfold isCreditExhausted. cbv zeta.
    rewrite !orb_true_iff, status_matches_iff, code_matches_iff,
      code_signal_up_to_case, text_matches_up_to_case.
    tauto. }
  split; [exact Hiff|]. split.
  - intros host now w <- Hnone.
    apply event_handler_not_exhausted, not_true_is_false.
    intros E. apply Hiff in E. contradiction.
  - intros host now w. apply event_handler_not_object.
Qed.

(** ** Computations that cannot throw *)

Lemma returns_ret {A : Type} (a : A) : returns (ret a).
Proof. intros w. now exists a. Qed.

Lemma returns_get_plugin : returns get_plugin.
Proof. intros w. now exists (plugin w). Qed.

Lemma returns_modify (f : PluginState -> PluginState) : returns (modify f).
Proof. intros w. now exists tt. Qed.

Lemma returns_bind {A B : Type} (m : M A) (k : A -> M B) :
  returns m -> (forall a, returns (k a)) -> returns (bind m k).
Proof.
  intros Hm Hk w. unfold bind.
  destruct (Hm w) as [a Ha]. destruct (m w) as [r w1]. cbn [fst] in Ha. subst r.
  apply Hk.
Qed.

(** A [try] whose handler cannot throw cannot throw. *)
Lemma returns_try_catch {A : Type} (body handler : M A) :
  returns handler -> returns (try_catch body handler).
Proof.
  intros Hh w. unfold try_catch.
  destruct (body w) as [[a|] w1]; [now exists a | apply Hh].
Qed.

Ltac returns_step :=
  match goal with
  | |- returns (bind _ _) => apply returns_bind; [|intros ?]
  | |- returns (try_catch _ _) => apply returns_try_catch
  | |- returns (ret _) => apply returns_ret
  | |- returns get_plugin => apply returns_get_plugin
  | |- returns (modify _) => apply returns_modify
  | |- returns (if ?b then _ else _) => destruct b
  | |- returns (match ?x with _ => _ end) => destruct x
  end.

Ltac returns_auto := repeat returns_step; eauto.

Section Returns.

Variable host : Host.

Lemma returns_safeLog (level message : string) :
  returns (safeLog host level message).
Proof. unfold safeLog. returns_auto. Qed.

Lemma returns_saveState (path : option string) (data : PersistedState) :
  returns (saveState host path data).
Proof. pose proof returns_safeLog. unfold saveState. returns_auto. Qed.

Lemma returns_getProviders : returns (getProviders host).
Proof. unfold getProviders. returns_auto. Qed.

Lemma returns_getSessionModel (sessionId : string) :
  returns (getSessionModel host sessionId).
Proof. unfold getSessionModel. returns_auto. Qed.

Lemma returns_setSessionModel (sessionId : string) (model : option ModelRef) :
  returns (setSessionModel host sessionId model).
Proof. unfold setSessionModel. returns_auto. Qed.

Lemma returns_getLastUserMessage (sessionId : string) :
  returns (getLastUserMessage host sessionId).
Proof. unfold getLastUserMessage. returns_auto. Qed.

Lemma returns_confirmFallback (config : Config) :
  returns (confirmFallback host config).
Proof. pose proof returns_safeLog. unfold confirmFallback. returns_auto. Qed.

Lemma returns_restore_record (config : Config) (now threshold : Z)
    (sessionId : string) (record : FallbackRecord.t) :
  returns (restore_record host config now threshold sessionId record).
Proof.
  pose proof returns_safeLog. pose proof returns_getSessionModel.
  pose proof returns_setSessionModel.
  unfold restore_record. returns_auto.
Qed.

Lemma returns_sweep_records (config : Config) (now threshold : Z)
    (entries : list (string * FallbackRecord.t)) :
  returns (sweep_records host config now threshold entries).
Proof.
  pose proof returns_restore_record.
  induction entries as [|[sessionId record] rest IH]; cbn [sweep_records];
    returns_auto.
Qed.

(** The sweep never throws. *)
Lemma returns_runRestoreCheck (now intervalMs : Z) :
  returns (runRestoreCheck host now intervalMs).
Proof.
  pose proof returns_sweep_records. pose proof returns_saveState.
  unfold runRestoreCheck. returns_auto.
Qed.

End Returns.

(** ** Rate limit of the sweep *)

Lemma sweep_records_only_calls (host : Host) (config : Config) (now threshold : Z)
    (entries : list (string * FallbackRecord.t)) :
  respects (only_calls any_call) (sweep_records host config now threshold entries).
Proof.
  exact (respects_sweep_records _ (only_calls_refl _) (only_calls_trans _)
           (fun c w => only_calls_push any_call c w eq_refl)
           host config now threshold entries).
Qed.

Lemma saveState_only_calls (host : Host) (path : option string)
    (data : PersistedState) :
  respects (only_calls is_save_call) (saveState host path data).
Proof.
  apply (respects_saveState_ok _ (only_calls_refl _) (only_calls_trans _)
           is_save_call (only_calls_push _)); reflexivity.
Qed.

(** A sweep that passes the rate limit is the loop over the records, started
    in a world where [lastCheckAt] is already [now], followed by the write
    back and the save. *)
Lemma runRestoreCheck_proceeds (host : Host) (now intervalMs : Z) (w : World)
    (data : PersistedState) :
  restore_enabled (config (plugin w)) = true ->
  stateData (plugin w) = Some data ->
  threshold_of intervalMs <= now - lastCheckAt data ->
  runRestoreCheck host now intervalMs w
  = (entries <- sweep_records host (config (plugin w)) now
                  (threshold_of intervalMs) (sessions data) ;;
     modify (with_stateData (Some {| sessions := entries; lastCheckAt := now |})) ;;;
     saveState host (statePath (plugin w))
       {| sessions := entries; lastCheckAt := now |})
      (sweep_start now data w).
Proof.
  intros Hen Hdata Hold. unfold runRestoreCheck.
  unfold bind at 1. unfold get_plugin at 1. rewrite Hen, Hdata. cbn [negb].
  destruct (Z.ltb_spec (now - lastCheckAt data) (threshold_of intervalMs)); [lia|].
  reflexivity.
Qed.

Lemma runRestoreCheck_skips (host : Host) (now intervalMs : Z) (w : World)
    (data : PersistedState) :
  stateData (plugin w) = Some data ->
  now - lastCheckAt data < threshold_of intervalMs ->
  runRestoreCheck host now intervalMs w = (Ok tt, w).
Proof.
  intros Hdata Hrecent. unfold runRestoreCheck, bind, get_plugin, ret.
  rewrite Hdata.
  destruct (negb (restore_enabled (config (plugin w)))); [reflexivity|].
  destruct (Z.ltb_spec (now - lastCheckAt data) (threshold_of intervalMs)); [|lia].
  reflexivity.
Qed.

(** After a sweep that proceeds the state holds [lastCheckAt = now]. *)
Lemma runRestoreCheck_lastCheckAt (host : Host) (now intervalMs : Z) (w : World)
    (data : PersistedState) :
  restore_enabled (config (plugin w)) = true ->
  stateData (plugin w) = Some data ->
  threshold_of intervalMs <= now - lastCheckAt data ->
  exists entries,
    stateData (plugin (snd (runRestoreCheck host now intervalMs w)))
    = Some {| sessions := entries; lastCheckAt := now |}.
Proof.
  intros Hen Hdata Hold.
  rewrite (runRestoreCheck_proceeds _ _ _ _ _ Hen Hdata Hold).
  unfold bind at 1.
  destruct (returns_sweep_records host (config (plugin w)) now
              (threshold_of intervalMs) (sessions data) (sweep_start now data w))
    as [entries He].
  destruct (sweep_records _ _ _ _ _ _) as [r w1]. cbn [fst] in He. subst r.
  exists entries. unfold bind, modify.
  destruct (saveState_only_calls host (statePath (plugin w))
              {| sessions := entries; lastCheckAt := now |}
              {| plugin :=
                   with_stateData
                     (Some {| sessions := entries; lastCheckAt := now |}) (plugin w1);
                 trace := trace w1 |}) as [Hp _].
  rewrite Hp. reflexivity.
Qed.

(** ** Suspended passes *)

Section Keeps.

Context {A : Type}.
Variable P : PluginState -> Prop.

Lemma keeps_bind {B : Type} (t : Async.Task A) (k : A -> Async.Task B) :
  keeps P t -> (forall a, keeps P (k a)) -> keeps P (Async.bind t k).
Proof.
  intros Ht Hk. induction t as [a| |g IH|f next IH|next IH|c g IH]; cbn in *; auto.
  destruct Ht as [Hf Hnext]. auto.
Qed.

Lemma keeps_try_catch (body handler : Async.Task A) :
  keeps P body -> keeps P handler -> keeps P (Async.try_catch body handler).
Proof.
  intros Hb Hh.
  induction body as [a| |g IH|f next IH|next IH|c g IH]; cbn in *; auto.
  destruct Hb as [Hf Hnext]. auto.
Qed.

Lemma keeps_await (t : Async.Task A) : keeps P t -> keeps P (Async.await t).
Proof.
  intros Ht. unfold Async.await. apply keeps_try_catch; [|exact I].
  apply keeps_bind; [exact Ht | intros a; exact I].
Qed.

Variable host : Host.

(** A turn of a task that keeps [P] keeps it, and so does what is left of
    the task. *)
Lemma advance_keeps (t : Async.Task A) :
  keeps P t ->
  forall w,
    P (plugin w) ->
    P (plugin (snd (Async.advance host t w)))
    /\ match fst (Async.advance host t w) with
       | Async.Suspended rest => keeps P rest
       | Async.Done _ => True
       end.
Proof.
  induction t as [a| |g IH|f next IH|next IH|c g IH]; cbn; intros Ht w Hw; auto.
  destruct Ht as [Hf Hnext]. apply IH; [exact Hnext | apply Hf, Hw].
Qed.

Lemma resume_keeps (n : nat) :
  forall (t : Async.Task A) w,
    keeps P t ->
    P (plugin w) ->
    P (plugin (snd (Async.resume host n t w))).
Proof.
  induction n as [|n IH]; intros t w Ht Hw; cbn [Async.resume].
  - now apply advance_keeps.
  - destruct (advance_keeps t Ht w Hw) as [Hp Hrest].
    destruct (Async.advance host t w) as [[r|rest] w1]; cbn [fst snd] in *;
      [exact Hp | now apply IH].
Qed.

Lemma resume_Read (n : nat) (k : PluginState -> Async.Task A) (w : World) :
  Async.resume host n (Async.Read k) w = Async.resume host n (k (plugin w)) w.
Proof. now destruct n. Qed.

Lemma resume_Write (n : nat) (f : PluginState -> PluginState) (next : Async.Task A)
    (w : World) :
  Async.resume host n (Async.Write f next) w
  = Async.resume host n next {| plugin := f (plugin w); trace := trace w |}.
Proof. now destruct n. Qed.

End Keeps.

Lemma keeps_call (P : PluginState -> Prop) (c : Call) : keeps P (Async.call c).
Proof. intros []; exact I. Qed.

Ltac keeps_step :=
  match goal with
  | |- keeps _ (Async.bind _ _) => apply keeps_bind; [|intros ?]
  | |- keeps _ (Async.try_catch _ _) => apply keeps_try_catch
  | |- keeps _ (Async.await _) => apply keeps_await
  | |- keeps _ (Async.call _) => apply keeps_call
  | |- keeps _ (Async.ret _) => exact I
  | |- keeps _ Async.get_plugin => intros ?; exact I
  | |- keeps _ (if ?b then _ else _) => destruct b
  | |- keeps _ (match ?x with _ => _ end) => destruct x
  | H : _ |- _ => solve [apply H]
  end.

Ltac keeps_auto := repeat keeps_step.

Lemma keeps_safeLog (P : PluginState -> Prop) (level message : string) :
  keeps P (Async.safeLog level message).
Proof. unfold Async.safeLog. keeps_auto. Qed.

Lemma keeps_getSessionModel (P : PluginState -> Prop) (sessionId : string) :
  keeps P (Async.getSessionModel sessionId).
Proof. unfold Async.getSessionModel. keeps_auto. Qed.

Lemma keeps_setSessionModel (P : PluginState -> Prop) (sessionId : string)
    (model : option ModelRef) :
  keeps P (Async.setSessionModel sessionId model).
Proof. unfold Async.setSessionModel. keeps_auto. Qed.

Lemma keeps_saveState (P : PluginState -> Prop) (path : option string) :
  keeps P (Async.saveState path).
Proof.
  pose proof (keeps_safeLog P). unfold Async.saveState.
  destruct path as [p|]; [|exact I]. destruct (nonempty p); [|exact I].
  keeps_auto.
Qed.

Lemma keeps_mutate_record (now : Z) (sessionId : string)
    (f : FallbackRecord.t -> FallbackRecord.t) :
  keeps (checked_at now) (Async.modify (Async.mutate_record sessionId f)).
Proof.
  split; [|exact I]. intros s [entries Hs]. unfold Async.mutate_record.
  rewrite Hs. now eexists.
Qed.

(** The loop of a pass leaves [lastCheckAt] where the pass has put it. *)
Lemma keeps_restore_record (stamp : Z) (config : Config) (now threshold : Z)
    (sessionId : string) (record : FallbackRecord.t) :
  keeps (checked_at stamp)
        (Async.restore_record config now threshold sessionId record).
Proof.
  pose proof (keeps_safeLog (checked_at stamp)).
  pose proof (keeps_getSessionModel (checked_at stamp)).
  pose proof (keeps_setSessionModel (checked_at stamp)).
  pose proof (keeps_mutate_record stamp).
  unfold Async.restore_record. cbv zeta. keeps_auto.
Qed.

Lemma keeps_sweep_records (stamp : Z) (config : Config) (now threshold : Z)
    (entries : list (string * FallbackRecord.t)) :
  keeps (checked_at stamp) (Async.sweep_records config now threshold entries).
Proof.
  pose proof (keeps_restore_record stamp).
  induction entries as [|[sessionId record] rest IH]; cbn [Async.sweep_records];
    keeps_auto.
Qed.

(** A call of the sweep less than one interval after [lastCheckAt] ends in
    its first turn, with no call and no write. *)
Lemma async_runRestoreCheck_skips (host : Host) (now intervalMs : Z) (w : World)
    (data : PersistedState) :
  stateData (plugin w) = Some data ->
  now - lastCheckAt data < threshold_of intervalMs ->
  Async.advance host (Async.runRestoreCheck now intervalMs) w = (Async.Done (Ok tt), w).
Proof.
  intros Hdata Hrecent. unfold Async.runRestoreCheck, Async.get_plugin.
  cbn [Async.bind Async.advance]. rewrite Hdata.
  destruct (negb (restore_enabled (config (plugin w)))); [reflexivity|].
  destruct (Z.ltb_spec (now - lastCheckAt data) (threshold_of intervalMs)); [|lia].
  reflexivity.
Qed.

(** A pass that proceeds has set [lastCheckAt] by the time it is first
    suspended, and it is still set at every later suspension and at the
    end. *)
Lemma async_runRestoreCheck_checked (host : Host) (now intervalMs : Z) (w : World)
    (data : PersistedState) (n : nat) :
  restore_enabled (config (plugin w)) = true ->
  stateData (plugin w) = Some data ->
  threshold_of intervalMs <= now - lastCheckAt data ->
  checked_at now
    (plugin (snd (Async.resume host n (Async.runRestoreCheck now intervalMs) w))).
Proof.
  intros Hen Hdata Hold. unfold Async.runRestoreCheck, Async.get_plugin.
  cbn [Async.bind]. rewrite resume_Read, Hen, Hdata. cbn [negb].
  destruct (Z.ltb_spec (now - lastCheckAt data) (threshold_of intervalMs)); [lia|].
  unfold Async.modify. cbn [Async.bind]. rewrite resume_Write.
  apply resume_keeps.
  - pose proof (keeps_sweep_records now). pose proof (keeps_saveState (checked_at now)).
    keeps_auto.
  - cbn [plugin]. unfold Async.stamp_lastCheckAt. rewrite Hdata. now eexists.
Qed.

(** C5.  A sweep invoked less than one interval after [lastCheckAt] is a
    complete no-op: it ends in its first turn, no record is scanned, nothing
    is written, nothing is called.  A sweep that proceeds sets [lastCheckAt]
    to the current time before it processes any record: at every [await] at
    which the pass can be suspended, and when it has ended, [lastCheckAt] is
    the time of the pass, so that an invocation that starts there less than
    one interval after the pass started is a no-op, however slow the pass
    is. *)
Theorem sweep_rate_limit (host : Host) (now intervalMs : Z) (w : World)
    (data : PersistedState) :
  stateData (plugin w) = Some data ->
  (now - lastCheckAt data < threshold_of intervalMs ->
   runRestoreCheck host now intervalMs w = (Ok tt, w)
   /\ Async.advance host (Async.runRestoreCheck now intervalMs) w
      = (Async.Done (Ok tt), w))
  /\ (restore_enabled (config (plugin w)) = true ->
      threshold_of intervalMs <= now - lastCheckAt data ->
      (forall n host' now' intervalMs',
          let suspended :=
            snd (Async.resume host n (Async.runRestoreCheck now intervalMs) w) in
          now' - now < threshold_of intervalMs' ->
          checked_at now (plugin suspended)
          /\ Async.advance host' (Async.runRestoreCheck now' intervalMs') suspended
             = (Async.Done (Ok tt), suspended)
          /\ runRestoreCheck host' now' intervalMs' suspended = (Ok tt, suspended))
      /\ forall host' now',
           now' - now < threshold_of intervalMs ->
           runRestoreCheck host' now' intervalMs
             (snd (runRestoreCheck host now intervalMs w))
           = (Ok tt, snd (runRestoreCheck host now intervalMs w))).
Proof.
  intros Hdata. split.
  - intros Hrecent. split.
    + now apply runRestoreCheck_skips with (data := data).
    + now apply async_runRestoreCheck_skips with (data := data).
  - intros Hen Hold. split.
    + intros n host' now' intervalMs' suspended Hsoon.
      pose proof (async_runRestoreCheck_checked host now intervalMs w data n
                    Hen Hdata Hold) as Hchecked.
      fold suspended in Hchecked. split; [exact Hchecked|].
      destruct Hchecked as [entries He]. split.
      * now apply async_runRestoreCheck_skips
          with (data := {| sessions := entries; lastCheckAt := now |}).
      * now apply runRestoreCheck_skips
          with (data := {| sessions := entries; lastCheckAt := now |}).
    + intros host' now' Hsoon.
      destruct (runRestoreCheck_lastCheckAt host _ _ _ _ Hen Hdata Hold)
        as [entries He].
      eapply runRestoreCheck_skips; [exact He | exact Hsoon].
Qed.

(** ** What a sweep does to a record *)

Lemma same_episode_refl (r : FallbackRecord.t) : same_episode r r.
Proof. repeat split. Qed.

(** Whatever branch the loop body takes, the episode fields of the record
    stay, and a [restoredAt] that is set stays set. *)
Lemma restore_record_episode (host : Host) (config : Config) (now threshold : Z)
    (sessionId : string) (r r' : FallbackRecord.t) (w : World) :
  fst (restore_record host config now threshold sessionId r w) = Ok r' ->
  same_episode r r'
  /\ (FallbackRecord.restoredAt r <> None -> FallbackRecord.restoredAt r' <> None).
Proof.
  intros H. unfold restore_record in H. run_in H; try discriminate;
    injection H as <-; (split; [repeat split | cbn; congruence]).
Qed.

(** The entries a sweep returns, against the ones it was given. *)
Lemma sweep_records_episode (host : Host) (config : Config) (now threshold : Z)
    (sessionId : string) (entries : list (string * FallbackRecord.t)) :
  forall w entries' r,
    fst (sweep_records host config now threshold entries w) = Ok entries' ->
    get_session sessionId entries = Some r ->
    exists r',
      get_session sessionId entries' = Some r'
      /\ same_episode r r'
      /\ (FallbackRecord.restoredAt r <> None -> FallbackRecord.restoredAt r' <> None).
Proof.
  induction entries as [|[k record] rest IH]; intros w entries' r Hrun Hget;
    [discriminate|].
  cbn [sweep_records] in Hrun. unfold bind at 1 in Hrun.
  destruct (restore_record host config now threshold k record w) as [[record'|] w1]
    eqn:E1; [|discriminate].
  unfold bind at 1 in Hrun.
  destruct (sweep_records host config now threshold rest w1) as [[rest'|] w2]
    eqn:E2; [|discriminate].
  cbn in Hrun. injection Hrun as <-.
  cbn [get_session] in *. destruct (k =? sessionId)%string.
  - injection Hget as <-. exists record'. split; [reflexivity|].
    eapply restore_record_episode. now rewrite E1.
  - eapply IH; [|exact Hget]. now rewrite E2.
Qed.

Lemma runRestoreCheck_proceeds_result (host : Host) (now intervalMs : Z) (w : World)
    (data : PersistedState) :
  restore_enabled (config (plugin w)) = true ->
  stateData (plugin w) = Some data ->
  threshold_of intervalMs <= now - lastCheckAt data ->
  exists entries w1 w2,
    sweep_records host (config (plugin w)) now (threshold_of intervalMs)
      (sessions data) (sweep_start now data w) = (Ok entries, w1)
    /\ snd (runRestoreCheck host now intervalMs w) = w2
    /\ stateData (plugin w2) = Some {| sessions := entries; lastCheckAt := now |}
    /\ only_calls is_save_call
         {| plugin :=
              with_stateData
                (Some {| sessions := entries; lastCheckAt := now |}) (plugin w1);
            trace := trace w1 |} w2.
Proof.
  intros Hen Hdata Hold.
  rewrite (runRestoreCheck_proceeds _ _ _ _ _ Hen Hdata Hold).
  unfold bind at 1.
  destruct (returns_sweep_records host (config (plugin w)) now
              (threshold_of intervalMs) (sessions data) (sweep_start now data w))
    as [entries He].
  destruct (sweep_records _ _ _ _ _ _) as [r w1]. cbn [fst] in He. subst r.
  exists entries, w1. eexists. split; [reflexivity|]. split; [reflexivity|].
  unfold bind, modify.
  pose proof (saveState_only_calls host (statePath (plugin w))
                {| sessions := entries; lastCheckAt := now |}
                {| plugin :=
                     with_stateData
                       (Some {| sessions := entries; lastCheckAt := now |}) (plugin w1);
                   trace := trace w1 |}) as Hsave.
  split; [|exact Hsave]. destruct Hsave as [Hp _]. rewrite Hp. reflexivity.
Qed.

(** A sweep skips, or runs the loop and stores what the loop returns. *)
Lemma runRestoreCheck_result (host : Host) (now intervalMs : Z) (w : World)
    (data : PersistedState) :
  stateData (plugin w) = Some data ->
  snd (runRestoreCheck host now intervalMs w) = w
  \/ exists entries w1,
       sweep_records host (config (plugin w)) now (threshold_of intervalMs)
         (sessions data) (sweep_start now data w) = (Ok entries, w1)
       /\ stateData (plugin (snd (runRestoreCheck host now intervalMs w)))
          = Some {| sessions := entries; lastCheckAt := now |}.
Proof.
  intros Hdata.
  destruct (restore_enabled (config (plugin w))) eqn:Hen.
  2:{ left. unfold runRestoreCheck, bind, get_plugin, ret. now rewrite Hen. }
  destruct (Z.lt_ge_cases (now - lastCheckAt data) (threshold_of intervalMs))
    as [Hrecent | Hold].
  { left. now rewrite (runRestoreCheck_skips _ _ _ _ _ Hdata Hrecent). }
  right.
  destruct (runRestoreCheck_proceeds_result host _ _ _ _ Hen Hdata Hold)
    as (entries & w1 & w2 & Hsweep & <- & Hfinal & _).
  eauto.
Qed.

Lemma get_set_session (sessionId : string) (record : FallbackRecord.t)
    (entries : list (string * FallbackRecord.t)) :
  get_session sessionId (set_session sessionId record entries) = Some record.
Proof.
  induction entries as [|[k r] rest IH]; cbn.
  - now rewrite String.eqb_refl.
  - destruct (k =? sessionId)%string eqn:E; cbn; rewrite E; [reflexivity | exact IH].
Qed.

(** ** A session already back on its original model *)

Lemma getSessionModel_reports (host : Host) (sessionId : string) (m : ModelRef)
    (w : World) :
  reports_model host sessionId m ->
  getSessionModel host sessionId w = (Ok (Some m), push (SessionGet sessionId) w).
Proof.
  intros H. destruct (H (length (trace w))) as (response & Hr & Hm).
  unfold getSessionModel, try_catch, bind, call, ret. rewrite Hr, Hm. reflexivity.
Qed.

(** The loop body on such a record: one read of the session, and the record
    with [restoredAt] set to [now]. *)
Lemma restore_record_on_original (host : Host) (config : Config) (now threshold : Z)
    (sessionId : string) (record : FallbackRecord.t) (w : World) :
  on_original host config now threshold sessionId record ->
  restore_record host config now threshold sessionId record w
  = (Ok (with_restoredAt now record), push (SessionGet sessionId) w).
Proof.
  intros (Hset & Hold & Hfallback & om & sm & Hom & Hsm & Heq).
  unfold restore_record.
  destruct (Z.eqb_spec (record_exhaustedAt record) 0) as [|_]; [contradiction|].
  destruct (Z.ltb_spec (now - record_exhaustedAt record) threshold) as [|_]; [lia|].
  cbn [orb]. rewrite Hom.
  destruct (record_fallbackModel config record) as [fm|]; [|contradiction].
  unfold bind. rewrite (getSessionModel_reports _ _ _ _ Hsm).
  cbn [is_some andb]. rewrite Heq. reflexivity.
Qed.

Lemma only_calls_get (sessionId id : string) (w : World) :
  only_calls (not_update_for sessionId) w (push (SessionGet id) w).
Proof. now apply only_calls_push. Qed.

(** The loop body on the record of another session does not update this
    one. *)
Lemma restore_record_other (host : Host) (config : Config) (now threshold : Z)
    (sessionId k : string) (record : FallbackRecord.t) :
  k <> sessionId ->
  respects (only_calls (not_update_for sessionId))
           (restore_record host config now threshold k record).
Proof.
  intros Hk.
  apply (respects_restore_record_ok _ (only_calls_refl _) (only_calls_trans _)
           (not_update_for sessionId) (only_calls_push _)).
  - reflexivity.
  - reflexivity.
  - intros providerID modelID. unfold not_update_for. cbn.
    apply negb_true_iff, String.eqb_neq, Hk.
  - reflexivity.
Qed.

(** The sweep marks the record, wherever it is among the entries. *)
Lemma sweep_records_marks (host : Host) (config : Config) (now threshold : Z)
    (sessionId : string) (record : FallbackRecord.t)
    (entries : list (string * FallbackRecord.t)) :
  on_original host config now threshold sessionId record ->
  get_session sessionId entries = Some record ->
  forall w entries' w',
    sweep_records host config now threshold entries w = (Ok entries', w') ->
    get_session sessionId entries' = Some (with_restoredAt now record).
Proof.
  intros Hon. induction entries as [|[k r] rest IH]; intros Hget w entries' w' Hrun;
    [discriminate|].
  cbn [sweep_records] in Hrun. unfold bind at 1 in Hrun.
  destruct (restore_record host config now threshold k r w) as [[r'|] w1] eqn:E1;
    [|discriminate].
  unfold bind at 1 in Hrun.
  destruct (sweep_records host config now threshold rest w1) as [[rest'|] w2] eqn:E2;
    [|discriminate].
  cbn in Hrun. injection Hrun as <- <-.
  cbn [get_session] in *. destruct (String.eqb_spec k sessionId) as [->|Hk].
  - injection Hget as ->.
    rewrite (restore_record_on_original host config now threshold sessionId
               record w Hon) in E1.
    now injection E1 as <- _.
  - eapply IH; eassumption.
Qed.

(** When every entry of the session is such a record, the sweep issues no
    update for the session. *)
Lemma sweep_records_no_update (host : Host) (config : Config) (now threshold : Z)
    (sessionId : string) (entries : list (string * FallbackRecord.t)) :
  (forall record,
      In (sessionId, record) entries ->
      on_original host config now threshold sessionId record) ->
  forall w entries' w',
    sweep_records host config now threshold entries w = (Ok entries', w') ->
    only_calls (not_update_for sessionId) w w'.
Proof.
  induction entries as [|[k record] rest IH]; intros Hall w entries' w' Hrun.
  - cbn in Hrun. injection Hrun as <- <-. apply only_calls_refl.
  - cbn [sweep_records] in Hrun. unfold bind at 1 in Hrun.
    destruct (restore_record host config now threshold k record w)
      as [[record'|] w1] eqn:E1; [|discriminate].
    unfold bind at 1 in Hrun.
    destruct (sweep_records host config now threshold rest w1) as [[rest'|] w2]
      eqn:E2; [|discriminate].
    cbn in Hrun. injection Hrun as <- <-.
    pose proof (IH (fun r Hin => Hall r (or_intror Hin)) _ _ _ E2) as Hcalls.
    eapply only_calls_trans; [|exact Hcalls].
    destruct (String.eqb_spec k sessionId) as [->|Hk].
    + rewrite (restore_record_on_original host config now threshold sessionId
                 record w (Hall record (or_introl eq_refl))) in E1.
      injection E1 as _ <-. apply only_calls_get.
    + pose proof (restore_record_other host config now threshold sessionId k
                    record Hk w) as Hother.
      now rewrite E1 in Hother.
Qed.

Lemma get_session_In (sessionId : string) (entries : list (string * FallbackRecord.t))
    (record r : FallbackRecord.t) :
  NoDup (map fst entries) ->
  get_session sessionId entries = Some record ->
  In (sessionId, r) entries ->
  r = record.
Proof.
  induction entries as [|[k x] rest IH]; intros Hnd Hget Hin; [contradiction|].
  cbn in Hnd. inversion Hnd as [|? ? Hnotin Hnd']; subst.
  cbn [get_session] in Hget. destruct Hin as [[= -> ->] | Hin].
  - rewrite String.eqb_refl in Hget. now injection Hget.
  - destruct (String.eqb_spec k sessionId) as [->|_]; [|now apply IH].
    elim Hnotin. change sessionId with (fst (sessionId, r)). now apply in_map.
Qed.

(** C8, as the sweep implements it.  In a sweep pass that proceeds, take a
    record whose exhaustion timestamp is present (not zero) and at least one
    interval old, whose original and fallback model strings both parse, and
    whose session the host reports on the parsed original model.  The pass
    sets [restoredAt] to [now] on that record and changes no other field of
    it; processing the record issues one call, the read of the session, and
    so no model update; and, session ids being the keys of an object, no
    [client.session.update] is issued for that session in the whole pass. *)
Theorem already_restored_is_marked (host : Host) (now intervalMs : Z) (w : World)
    (data : PersistedState) (sessionId : string) (record : FallbackRecord.t) :
  restore_enabled (config (plugin w)) = true ->
  stateData (plugin w) = Some data ->
  threshold_of intervalMs <= now - lastCheckAt data ->
  get_session sessionId (sessions data) = Some record ->
  on_original host (config (plugin w)) now (threshold_of intervalMs) sessionId record ->
  let w' := snd (runRestoreCheck host now intervalMs w) in
  record_of sessionId w' = Some (with_restoredAt now record)
  /\ (forall w0,
        restore_record host (config (plugin w)) now (threshold_of intervalMs)
          sessionId record w0
        = (Ok (with_restoredAt now record), push (SessionGet sessionId) w0))
  /\ (NoDup (map fst (sessions data)) ->
      exists issued,
        trace w' = (trace w ++ issued)%list
        /\ forallb (not_update_for sessionId) issued = true).
Proof.
  intros Hen Hdata Hold Hget Hon w'.
  destruct (runRestoreCheck_proceeds_result host now intervalMs w data Hen Hdata Hold)
    as (entries & w1 & w2 & Hsweep & Hw2 & Hfinal & Hsave).
  subst w'. rewrite Hw2. split; [|split].
  - unfold record_of. rewrite Hfinal. cbn [sessions].
    eapply sweep_records_marks; eassumption.
  - intros w0. now apply restore_record_on_original.
  - intros Hnd.
    assert (Hall : forall r,
               In (sessionId, r) (sessions data) ->
               on_original host (config (plugin w)) now (threshold_of intervalMs)
                 sessionId r).
    { intros r Hin. now rewrite (get_session_In _ _ _ _ Hnd Hget Hin). }
    pose proof (sweep_records_no_update host _ now _ sessionId _ Hall _ _ _ Hsweep)
      as Hcalls.
    apply (only_calls_weaken _ (not_update_for sessionId)) in Hsave;
      [|now intros []].
    destruct Hcalls as [_ (i1 & Ht1 & Hf1)]. destruct Hsave as [_ (i2 & Ht2 & Hf2)].
    cbn [trace sweep_start] in Ht1, Ht2.
    exists (i1 ++ i2)%list. split.
    + now rewrite Ht2, Ht1, app_assoc.
    + now rewrite forallb_app, Hf1, Hf2.
Qed.

(** ** Licensing *)

Lemma getProviders_lists (host : Host) (providers : list JsVal) (w : World) :
  lists_providers host providers ->
  getProviders host w = (Ok (JArr providers), push ConfigProviders w).
Proof.
  intros H. destruct (H (length (trace w))) as (response & Hr & Hp).
  unfold getProviders, try_catch, bind, call, ret. rewrite Hr, Hp. reflexivity.
Qed.

Lemma provider_names_map (providers names : list JsVal) :
  provider_names providers = Some names -> names = map provider_name providers.
Proof.
  revert names. induction providers as [|p rest IH]; intros names; cbn.
  - now intros [= <-].
  - destruct (nullish p); [discriminate|].
    destruct (provider_names rest) as [names'|]; [|discriminate].
    intros [= <-]. now rewrite (IH names' eq_refl).
Qed.

Lemma all_required_missing (required ids : list string) (value : string) :
  In value required ->
  ~ In (toLowerCase value) ids ->
  all_required required ids = false.
Proof.
  intros Hin Hmissing. unfold all_required.
  destruct (forallb _ required) eqn:E; [|reflexivity].
  rewrite forallb_forall in E. specialize (E value Hin).
  apply existsb_exists in E as (id & Hid & Heq).
  apply String.eqb_eq in Heq. subst id. contradiction.
Qed.

(** The licensing check on a host that lists [providers]. *)
Lemma hasRequiredProviders_missing (host : Host) (config : Config)
    (providers : list JsVal) (w : World) :
  licensing_requireProviders config <> [] ->
  lists_providers host providers ->
  providers = []
  \/ (exists value,
         In value (licensing_requireProviders config)
         /\ ~ In (toLowerCase value) (listed_ids providers)) ->
  fst (hasRequiredProviders host config w) <> Ok true
  /\ (provider_names providers <> None ->
      hasRequiredProviders host config w = (Ok false, push ConfigProviders w)).
Proof.
  intros Hreq Hlists Hmissing. unfold hasRequiredProviders.
  destruct (licensing_requireProviders config) as [|r0 required] eqn:Er;
    [contradiction|].
  unfold bind. rewrite (getProviders_lists _ _ _ Hlists).
  destruct providers as [|p rest].
  - cbn. split; [discriminate | reflexivity].
  - destruct Hmissing as [|(value & Hin & Hnot)]; [discriminate|].
    cbn [length_of truthy length]. rewrite Nat2Z.inj_succ.
    destruct (Z.eqb_spec (Z.succ (Z.of_nat (length rest))) 0) as [|_]; [lia|].
    cbn [negb].
    destruct (provider_names (p :: rest)) as [names|] eqn:En.
    + rewrite (provider_names_map _ _ En).
      unfold listed_ids in Hnot.
      rewrite (all_required_missing _ _ _ Hin Hnot).
      split; [discriminate | reflexivity].
    + split; [discriminate | congruence].
Qed.

(** C6.  With a non-empty set of required provider ids, when the list of
    providers the host returns is empty, or misses a required id under the
    case-insensitive comparison of ids, the licensing check does not pass and
    the fallback does not proceed: the handler only queries the host (no
    confirm, no prompt, no model update, no write) and the plugin state is as
    before. *)
Theorem missing_provider_blocks_fallback (host : Host) (now : Z) (event : JsVal)
    (w : World) (providers : list JsVal) :
  licensing_requireProviders (config (plugin w)) <> [] ->
  lists_providers host providers ->
  providers = []
  \/ (exists value,
         In value (licensing_requireProviders (config (plugin w)))
         /\ ~ In (toLowerCase value) (listed_ids providers)) ->
  fst (hasRequiredProviders host (config (plugin w)) w) <> Ok true
  /\ (provider_names providers <> None ->
      fst (hasRequiredProviders host (config (plugin w)) w) = Ok false)
  /\ only_calls is_query w (snd (event_handler host now event w)).
Proof.
  intros Hreq Hlists Hmissing.
  destruct (hasRequiredProviders_missing host _ providers w Hreq Hlists Hmissing)
    as [Hnot Hfalse].
  split; [exact Hnot|]. split.
  - intros Hnames. now rewrite (Hfalse Hnames).
  - apply event_handler_no_offer. intros p Hp.
    destruct (fallback_checks_plan _ _ _ _ Hp)
      as (_ & _ & _ & _ & _ & _ & w0 & w1 & Hlicensed & _).
    now rewrite Hlicensed in Hnot.
Qed.

(** ** The session is on another provider *)

(** C7, as the handler implements it.  When the host reports a current model
    for the session whose provider id is not empty, a primary model is
    configured and parses, and the two provider ids differ, the handler
    returns after its checks: it only queries the host (no confirm, no prompt,
    no model update, no write) and the plugin state, and with it the stored
    records, is as before. *)
Theorem other_provider_aborts (host : Host) (now : Z) (event : JsVal) (w : World)
    (sessionId : string) (primary current : ModelRef) :
  extractSessionId event = Some sessionId ->
  parseModel (JStr (primaryModel (config (plugin w)))) = Some primary ->
  reports_model host sessionId current ->
  truthy (providerId current) = true ->
  strict_eq (providerId current) (providerId primary) = false ->
  only_calls is_query w (snd (event_handler host now event w)).
Proof.
  intros Hid Hprimary Hreports Hknown Hdiffers.
  apply event_handler_no_offer. intros p Hp.
  destruct (fallback_checks_plan _ _ _ _ Hp)
    as (Hid' & _ & _ & _ & Hpm & Hmatch & w0 & w1 & _ & Hmodel).
  rewrite Hid in Hid'. injection Hid' as Hsid. rewrite <- Hsid in Hmodel.
  rewrite (getSessionModel_reports _ _ _ _ Hreports) in Hmodel.
  injection Hmodel as Hmodel _.
  rewrite Hpm, Hprimary, <- Hmodel in Hmatch. cbn [provider_mismatch] in Hmatch.
  now rewrite Hknown, Hdiffers in Hmatch.
Qed.

(** ** From the offer to the prompt *)

Lemma trace_grows_refl (w : World) : trace_grows w w.
Proof. exists []. now rewrite app_nil_r. Qed.

Lemma trace_grows_trans (a b c : World) :
  trace_grows a b -> trace_grows b c -> trace_grows a c.
Proof.
  intros [i1 H1] [i2 H2]. exists (i1 ++ i2)%list. now rewrite H2, H1, app_assoc.
Qed.

Lemma trace_grows_push (c : Call) (w : World) : trace_grows w (push c w).
Proof. now exists [c]. Qed.

Lemma trace_grows_In (w w' : World) (c : Call) :
  trace_grows w w' -> In c (trace w) -> In c (trace w').
Proof. intros [issued ->] H. apply in_or_app. now left. Qed.

(** The toast that ends the handler. *)
Lemma toast_trace_grows (host : Host) (flag : bool) (message variant : string) :
  respects trace_grows
    (if flag
     then try_catch (call host (TuiShowToast message variant) ;;; ret tt)
                    (safeLog host "debug" "Toast failed")
     else ret tt).
Proof.
  pose proof trace_grows_refl. pose proof trace_grows_trans.
  pose proof (fun c w (_ : any_call c = true) => trace_grows_push c w).
  pose proof (respects_safeLog _ trace_grows_refl trace_grows_trans any_call
                (fun c w _ => trace_grows_push c w) (fun _ _ => eq_refl) host).
  respects_auto.
Qed.

Lemma confirmFallback_only_calls (host : Host) (config : Config) :
  respects (only_calls any_call) (confirmFallback host config).
Proof.
  exact (respects_confirmFallback _ (only_calls_refl _) (only_calls_trans _)
           (fun c w => only_calls_push any_call c w eq_refl) host config).
Qed.

Lemma safeLog_only_calls (host : Host) (level message : string) :
  respects (only_calls any_call) (safeLog host level message).
Proof.
  exact (respects_safeLog _ (only_calls_refl _) (only_calls_trans _) any_call
           (only_calls_push _) (fun _ _ => eq_refl) host level message).
Qed.

(** The toast that ends the handler: calls, and no write. *)
Lemma toast_only_calls (host : Host) (flag : bool) (message variant : string) :
  respects (only_calls any_call)
    (if flag
     then try_catch (call host (TuiShowToast message variant) ;;; ret tt)
                    (safeLog host "debug" "Toast failed")
     else ret tt).
Proof.
  pose proof (only_calls_refl any_call). pose proof (only_calls_trans any_call).
  pose proof (only_calls_push any_call). pose proof (safeLog_only_calls host).
  respects_auto.
Qed.

(** Once [confirmFallback] has answered [true], the handler gets to the
    prompt: the session is marked, its record is stored, and what is left is
    the prompt call and the toast. *)
Lemma offer_fallback_reaches_prompt (host : Host) (now : Z) (p : Plan) (w : World) :
  fst (confirmFallback host (config (plugin w)) w) = Ok true ->
  exists w',
    plugin w' = after_accept now p (plugin w)
    /\ offer_fallback host now p w
       = (call host (prompt_of p) ;;;
          if notifications_toastOnFallback (config (plugin w))
          then try_catch
                 (call host (TuiShowToast
                               "Credits exhausted. Switched to fallback model."
                               "warning") ;;; ret tt)
                 (safeLog host "debug" "Toast failed")
          else ret tt) w'.
Proof.
  intros Hconfirm. unfold offer_fallback.
  unfold bind at 1. unfold get_plugin at 1. unfold bind at 1.
  pose proof (confirmFallback_only_calls host (config (plugin w)) w) as [Hp1 _].
  destruct (confirmFallback host (config (plugin w)) w) as [r w1].
  cbn [fst snd] in Hconfirm, Hp1. subst r. cbn [negb].
  unfold bind at 1. unfold modify at 1. unfold bind at 1.
  match goal with
  | |- context [safeLog host ?l ?m ?w2] =>
      destruct (returns_safeLog host l m w2) as [[] Hlog];
      pose proof (safeLog_only_calls host l m w2) as [Hp3 _];
      destruct (safeLog host l m w2) as [r w3]; cbn [fst snd] in Hlog, Hp3; subst r
  end.
  cbn [plugin] in Hp3. rewrite Hp1 in Hp3.
  unfold bind at 1. unfold get_plugin at 1. unfold bind at 1.
  unfold after_accept. cbv zeta. rewrite Hp3.
  destruct (stateData (with_attempted (plan_sessionId p) (plugin w))) as [data|].
  - unfold bind at 1. unfold modify at 1.
    match goal with
    | |- context [saveState host ?path ?d ?w4] =>
        destruct (returns_saveState host path d w4) as [[] Hsave];
        pose proof (saveState_only_calls host path d w4) as [Hp5 _];
        destruct (saveState host path d w4) as [r w5];
        cbn [fst snd] in Hsave, Hp5; subst r
    end.
    exists w5. split; [|reflexivity].
    cbn [plugin] in Hp5. now rewrite Hp5, Hp3.
  - now exists w3.
Qed.

(** ... and the prompt is issued, whatever its outcome. *)
Lemma offer_fallback_prompts (host : Host) (now : Z) (p : Plan) (w : World) :
  fst (confirmFallback host (config (plugin w)) w) = Ok true ->
  In (prompt_of p) (trace (snd (offer_fallback host now p w))).
Proof.
  intros Hconfirm.
  destruct (offer_fallback_reaches_prompt host now p w Hconfirm) as (w' & _ & ->).
  unfold bind, call.
  destruct (reply host (length (trace w')) (prompt_of p)).
  - eapply trace_grows_In; [apply toast_trace_grows|].
    cbn [trace]. apply in_or_app. right. now left.
  - cbn [snd trace]. apply in_or_app. right. now left.
Qed.

(** The state an accepted offer leaves, whatever the prompt and the toast
    do. *)
Lemma offer_fallback_plugin (host : Host) (now : Z) (p : Plan) (w : World) :
  fst (confirmFallback host (config (plugin w)) w) = Ok true ->
  plugin (snd (offer_fallback host now p w)) = after_accept now p (plugin w).
Proof.
  intros Hconfirm.
  destruct (offer_fallback_reaches_prompt host now p w Hconfirm) as (w' & <- & ->).
  unfold bind, call.
  destruct (reply host (length (trace w')) (prompt_of p)); [|reflexivity].
  match goal with
  | |- plugin (snd (?m ?w0)) = _ =>
      destruct (toast_only_calls host
                  (notifications_toastOnFallback (config (plugin w)))
                  "Credits exhausted. Switched to fallback model." "warning" w0)
        as [Hp _]
  end.
  exact Hp.
Qed.

(** The record an accepted offer stores for its session. *)
Lemma offer_fallback_record (host : Host) (now : Z) (p : Plan) (w : World)
    (data : PersistedState) :
  fst (confirmFallback host (config (plugin w)) w) = Ok true ->
  stateData (plugin w) = Some data ->
  record_of (plan_sessionId p) (snd (offer_fallback host now p w))
  = Some (fallback_record now p).
Proof.
  intros Hconfirm Hdata. unfold record_of.
  rewrite (offer_fallback_plugin host now p w Hconfirm).
  unfold after_accept. cbn [with_attempted stateData]. rewrite Hdata.
  cbn [with_stateData stateData sessions]. apply get_set_session.
Qed.

(** ** An unanswered confirmation *)

Lemma confirm_answer_none (response : JsVal) :
  no_boolean_answer (payload_of response) -> confirm_answer response = None.
Proof.
  intros (H0 & H1 & H2 & H3 & H4 & H5). unfold confirm_answer.
  destruct (payload_of response) eqn:E; try discriminate; cbn in *;
    unfold js_coalesce;
    repeat match goal with
           | |- context [nullish ?v] => destruct (nullish v)
           end;
    repeat match goal with
           | |- context [match ?v with JBool _ => _ | _ => _ end] =>
               destruct v; try discriminate
           end; reflexivity.
Qed.

(** C10.  With confirmation enabled and [client.tui.showConfirm] present, a
    [showConfirm] call that throws, or that returns a payload in which none of
    the payload itself, [confirmed], [accepted], [value], [ok] and [success]
    is a boolean, counts as acceptance: [confirmFallback] returns [true], and
    the handler goes on to send the prompt on the fallback model. *)
Theorem unanswered_confirm_is_acceptance (host : Host) (w : World) :
  notifications_confirmOnFallback (config (plugin w)) = true ->
  tui_showConfirm host = true ->
  reply host (length (trace w)) TuiShowConfirm = Thrown
  \/ (exists response,
         reply host (length (trace w)) TuiShowConfirm = Returned response
         /\ no_boolean_answer (payload_of response)) ->
  fst (confirmFallback host (config (plugin w)) w) = Ok true
  /\ forall now p,
       In (prompt_of p) (trace (snd (offer_fallback host now p w)))
       /\ has (attemptedSessions (plugin (snd (offer_fallback host now p w))))
              (plan_sessionId p) = true.
Proof.
  intros Hflag Hcap Hreply.
  assert (Hconfirm : fst (confirmFallback host (config (plugin w)) w) = Ok true).
  { unfold confirmFallback. rewrite Hflag, Hcap. cbn [negb].
    unfold bind, try_catch, call, ret.
    destruct Hreply as [-> | (response & -> & Hnone)].
    - destruct (returns_safeLog host "debug" "Confirm prompt failed"
                  (push TuiShowConfirm w)) as [[] Hlog].
      destruct (safeLog host _ _ _) as [r w1]. cbn [fst] in Hlog. now subst r.
    - now rewrite (confirm_answer_none _ Hnone). }
  split; [exact Hconfirm|]. intros now p. split.
  - now apply offer_fallback_prompts.
  - apply offer_fallback_attempted.
Qed.

(** ** A prompt that fails *)

(** C1.  The handler does throw into the host's dispatch: the prompt is the
    one awaited call of the handler outside any [try].  Whenever the checks
    pass, no confirmation is configured and [client.session.prompt] throws,
    the handler ends with the exception (the session is already marked as
    attempted and its record already stored by then). *)
Theorem prompt_failure_escapes (host : Host) (now : Z) (event : JsVal) (w : World)
    (p : Plan) :
  fst (fallback_checks host event w) = Ok (Some p) ->
  notifications_confirmOnFallback (config (plugin w)) = false ->
  (forall n, reply host n (prompt_of p) = Thrown) ->
  fst (event_handler host now event w) = Exn.
Proof.
  intros Hchecks Hflag Hthrows.
  pose proof (fallback_checks_only_queries host event w) as [Hplugin _].
  unfold event_handler, bind.
  destruct (fallback_checks host event w) as [r w1]. cbn [fst snd] in *. subst r.
  assert (Hconfirm : fst (confirmFallback host (config (plugin w1)) w1) = Ok true).
  { unfold confirmFallback. now rewrite Hplugin, Hflag. }
  destruct (offer_fallback_reaches_prompt host now p w1 Hconfirm) as (w' & _ & ->).
  unfold bind, call. now rewrite Hthrows.
Qed.

(** Every other way out of the handler is a normal return: an exception
    comes from the licensing check reading a malformed provider list, or from
    the prompt. *)
Lemma event_handler_throws_only (host : Host) (now : Z) (event : JsVal) (w : World) :
  fst (event_handler host now event w) = Exn ->
  fst (hasRequiredProviders host (config (plugin w)) w) = Exn
  \/ (exists p w', reply host (length (trace w')) (prompt_of p) = Thrown).
Proof.
  unfold event_handler, bind.
  destruct (fallback_checks host event w) as [[[p|]|] w1] eqn:Echecks; cbn [fst].
  - intros Hexn. right. exists p.
    destruct (confirmFallback_returns host (config (plugin w1)) w1) as [[] Hb].
    + destruct (offer_fallback_reaches_prompt host now p w1 Hb) as (w' & _ & Hw').
      rewrite Hw' in Hexn. exists w'. unfold bind, call in Hexn.
      destruct (reply host (length (trace w')) (prompt_of p)); [|reflexivity].
      exfalso. revert Hexn.
      match goal with
      | |- fst (?m ?w) = Exn -> _ =>
          assert (Hr : returns m)
            by (pose proof (returns_safeLog host); returns_auto);
          destruct (Hr w) as [[] Hw]; rewrite Hw; discriminate
      end.
    + exfalso. revert Hexn. unfold offer_fallback.
      unfold bind at 1. unfold get_plugin at 1. unfold bind at 1.
      destruct (confirmFallback host (config (plugin w1)) w1) as [r w2].
      cbn [fst] in Hb. subst r. cbn [negb].
      unfold bind, modify.
      match goal with
      | |- context [safeLog host ?l ?m ?w3] =>
          destruct (returns_safeLog host l m w3) as [[] Hlog]; rewrite Hlog
      end. discriminate.
  - discriminate.
  - intros _. left. unfold fallback_checks in Echecks.
    pose proof (returns_safeLog host) as Rlog.
    pose proof (returns_getSessionModel host) as Rget.
    pose proof (returns_getLastUserMessage host) as Rlast.
    run_in Echecks; try discriminate;
      repeat match goal with
             | E : safeLog host ?l ?m ?w0 = (Exn, _) |- _ =>
                 destruct (Rlog l m w0) as [? Hr]; rewrite E in Hr; discriminate
             | E : getSessionModel host ?s ?w0 = (Exn, _) |- _ =>
                 destruct (Rget s w0) as [? Hr]; rewrite E in Hr; discriminate
             | E : getLastUserMessage host ?s ?w0 = (Exn, _) |- _ =>
                 destruct (Rlast s w0) as [? Hr]; rewrite E in Hr; discriminate
             | |- fst (Exn, _) = Exn => reflexivity
             end.
Qed.

(** ** Records written by the engine, read by the sweep *)




(** C4, as the sweep implements it.  The sweep never reads [restoredAt]: a
    record that has it set is examined by every pass like any other, and the
    age test keeps passing since [exhaustedAt] is never cleared.  What holds
    of such a record across any sweep is that it is still there, its
    [exhaustedAt], [lastFallbackAt], [originalModel] and [fallbackModel] are
    unchanged and [restoredAt] is still set (possibly to a later time); a new
    fallback episode, once accepted, replaces the record by a fresh one
    without [restoredAt]. *)
Theorem restored_record_across_sweep (host : Host) (now intervalMs : Z) (w : World)
    (data : PersistedState) (sessionId : string) (r : FallbackRecord.t) :
  stateData (plugin w) = Some data ->
  get_session sessionId (sessions data) = Some r ->
  FallbackRecord.restoredAt r <> None ->
  (exists r',
      record_of sessionId (snd (runRestoreCheck host now intervalMs w)) = Some r'
      /\ same_episode r r'
      /\ FallbackRecord.restoredAt r' <> None)
  /\ (forall host' now' p w0 data0,
        plan_sessionId p = sessionId ->
        stateData (plugin w0) = Some data0 ->
        fst (confirmFallback host' (config (plugin w0)) w0) = Ok true ->
        record_of sessionId (snd (offer_fallback host' now' p w0))
        = Some (fallback_record now' p)
        /\ FallbackRecord.restoredAt (fallback_record now' p) = None).
Proof.
  intros Hdata Hget Hrestored. split.
  - unfold record_of.
    destruct (runRestoreCheck_result host now intervalMs w data Hdata)
      as [-> | (entries & w1 & Hsweep & Hfinal)].
    + exists r. rewrite Hdata. auto using same_episode_refl.
    + destruct (sweep_records_episode host (config (plugin w)) now
                  (threshold_of intervalMs) sessionId (sessions data)
                  (sweep_start now data w) entries r) as (r' & Hr' & Hsame & Hstill);
        [now rewrite Hsweep | exact Hget |].
      exists r'. rewrite Hfinal. auto.
  - intros host' now' p w0 data0 <- Hdata0 Hconfirm. split; [|reflexivity].
    eapply offer_fallback_record; eassumption.
Qed.

(** ** The properties on concrete runs *)

Lemma prompt_failure_escapes_witness :
  let host := scenario_host (JStr "p1/m1") [] Thrown (Returned JUndefined) in
  let w := scenario_world p1_p2_config [] 0 in
  fst (fallback_checks host scenario_event w) = Ok (Some scenario_plan)
  /\ notifications_confirmOnFallback (config (plugin w)) = false
  /\ (forall n, reply host n (prompt_of scenario_plan) = Thrown)
  /\ fst (event_handler host 1000 scenario_event w) = Exn.
Proof.
  cbv zeta. split; [reflexivity|]. split; [reflexivity|].
  split; [intros n; reflexivity|].
  apply (prompt_failure_escapes _ 1000 scenario_event _ scenario_plan);
    [reflexivity | reflexivity | intros n; reflexivity].
Defined.

(** The end-to-end scenario: status 429 is configured, the session is on the
    primary model and its last user message is the text part ["hi"].  The
    prompt goes to the same session on the fallback model with the same part,
    the record is stored and saved, and the toast fires. *)
Example end_to_end_fallback :
  let cfg := scenario_config "azure/gpt" "local/qwen" [] false in
  let w' := snd (event_handler (host_on "azure/gpt") 1000 scenario_event
                   (scenario_world cfg [] 0)) in
  record_of "s1" w' = Some (scenario_record 1000 "azure/gpt" "local/qwen" None)
  /\ attemptedSessions (plugin w') = ["s1"]
  /\ trace w'
     = [SessionGet "s1"; SessionMessages "s1";
        AppLog "info" "Retrying with fallback model";
        BunMkdir "/project/.opencode/credit-switcher.state.json";
        BunWrite "/project/.opencode/credit-switcher.state.json"
          {| sessions := [("s1", scenario_record 1000 "azure/gpt" "local/qwen" None)];
             lastCheckAt := 0 |};
        SessionPrompt "s1" (JStr "local") (JStr "qwen") scenario_parts;
        TuiShowToast "Credits exhausted. Switched to fallback model." "warning"].
Proof. cbv zeta. repeat split. Qed.

(** The end-to-end restore scenario: the record is 25 hours old, the interval
    is 24 hours and the session is on the recorded fallback model.  The sweep
    updates the session to the original model and sets [restoredAt]. *)
Example end_to_end_restore :
  let hour := 60 * 60 * 1000 in
  let r := scenario_record hour "azure/gpt" "local/qwen" None in
  let cfg := scenario_config "azure/gpt" "local/qwen" [] false in
  let w' := snd (runRestoreCheck (host_on "local/qwen") (26 * hour) (intervalMs_of cfg)
                   (scenario_world cfg [("s1", r)] 0)) in
  record_of "s1" w'
  = Some (with_restoredAt (26 * hour) (with_lastRestoreAttemptAt (26 * hour) r))
  /\ In (SessionUpdate "s1" (JStr "azure") (JStr "gpt")) (trace w').
Proof. cbv zeta. split; [reflexivity | vm_compute; tauto]. Qed.

Lemma at_most_one_offer_per_session_witness :
  let host := host_on "p1/m1" in
  let w := scenario_world p1_p2_config [] 0 in
  let w1 := snd (event_handler host 1000 scenario_event w) in
  fst (fallback_checks host scenario_event w) = Ok (Some scenario_plan)
  /\ has (attemptedSessions (plugin w1)) (plan_sessionId scenario_plan) = true
  /\ extractSessionId scenario_event = Some "s1"
  /\ event_handler host 2000 scenario_event w1 = (Ok tt, w1)
  /\ (offers "s1" [Dispatch host 1000 scenario_event;
                   Dispatch host 2000 scenario_event] w <= 1)%nat.
Proof.
  cbv zeta.
  destruct (at_most_one_offer_per_session "s1") as (Hcount & Hadded & Habort & _).
  assert (Hchecks : fst (fallback_checks (host_on "p1/m1") scenario_event
                           (scenario_world p1_p2_config [] 0))
                    = Ok (Some scenario_plan)) by reflexivity.
  pose proof (Hadded (host_on "p1/m1") 1000 scenario_event
                (scenario_world p1_p2_config [] 0) scenario_plan Hchecks) as Hhas.
  split; [exact Hchecks|]. split; [exact Hhas|]. split; [reflexivity|].
  split; [apply Habort; [reflexivity | exact Hhas] | apply Hcount].
Defined.

Lemma trigger_is_any_signal_witness :
  let cfg := rules_config [429] ["QUOTA_EXCEEDED"] ["credit"] in
  let by_text := JObj (error_fields "E_OTHER" "Your CREDIT balance is used up") in
  let by_code := JObj (error_fields "Quota_Exceeded" "try again later") in
  let quiet := JObj (error_fields "E_OTHER" "try again later") in
  let w := scenario_world cfg [] 0 in
  text_contains_up_to_case by_text cfg
  /\ isCreditExhausted by_text cfg = true
  /\ code_matches_up_to_case by_code cfg
  /\ isCreditExhausted by_code cfg = true
  /\ ~ (status_signal quiet cfg
        \/ code_matches_up_to_case quiet cfg
        \/ text_contains_up_to_case quiet cfg)
  /\ event_handler (host_on "p1/m1") 1000 quiet w = (Ok tt, w).
Proof.
  cbv zeta.
  assert (Htext : text_contains_up_to_case
                    (JObj (error_fields "E_OTHER" "Your CREDIT balance is used up"))
                    (rules_config [429] ["QUOTA_EXCEEDED"] ["credit"])).
  { exists "Your CREDIT balance is used up", "credit".
    split; [reflexivity|]. split; [now left|].
    exists "Your ", "CREDIT", " balance is used up". split; [reflexivity|].
    cbn; repeat split; unfold same_letter; cbn; lia. }
  assert (Hcode : code_matches_up_to_case
                    (JObj (error_fields "Quota_Exceeded" "try again later"))
                    (rules_config [429] ["QUOTA_EXCEEDED"] ["credit"])).
  { exists "Quota_Exceeded", "QUOTA_EXCEEDED".
    split; [reflexivity|]. split; [now left|].
    cbn; repeat split; unfold same_letter; cbn; lia. }
  destruct (trigger_is_any_signal
              (JObj (error_fields "E_OTHER" "Your CREDIT balance is used up"))
              (rules_config [429] ["QUOTA_EXCEEDED"] ["credit"])) as (Htext_iff & _).
  destruct (trigger_is_any_signal
              (JObj (error_fields "Quota_Exceeded" "try again later"))
              (rules_config [429] ["QUOTA_EXCEEDED"] ["credit"])) as (Hcode_iff & _).
  destruct (trigger_is_any_signal
              (JObj (error_fields "E_OTHER" "try again later"))
              (rules_config [429] ["QUOTA_EXCEEDED"] ["credit"]))
    as (Hiff & Hquiet & _).
  assert (Hnone : ~ (status_signal (JObj (error_fields "E_OTHER" "try again later"))
                       (rules_config [429] ["QUOTA_EXCEEDED"] ["credit"])
                     \/ code_matches_up_to_case
                          (JObj (error_fields "E_OTHER" "try again later"))
                          (rules_config [429] ["QUOTA_EXCEEDED"] ["credit"])
                     \/ text_contains_up_to_case
                          (JObj (error_fields "E_OTHER" "try again later"))
                          (rules_config [429] ["QUOTA_EXCEEDED"] ["credit"]))).
  { intros Hsome. apply Hiff in Hsome. vm_compute in Hsome. discriminate. }
  split; [exact Htext|].
  split; [apply Htext_iff; right; right; exact Htext|].
  split; [exact Hcode|].
  split; [apply Hcode_iff; right; left; exact Hcode|].
  split; [exact Hnone|].
  apply Hquiet; [reflexivity | exact Hnone].
Defined.

(** Two errors of the same session in a row, with a sweep in between: one
    offer. *)
Example one_offer_for_two_errors :
  offers "s1"
    [Dispatch (host_on "p1/m1") 1000 scenario_event;
     Tick (host_on "p1/m1") 2000 DAY_MS;
     Dispatch (host_on "p1/m1") 3000 scenario_event]
    (scenario_world p1_p2_config [] 0) = 1%nat.
Proof. reflexivity. Qed.



Lemma sweep_rate_limit_witness :
  (let w := scenario_world p1_p2_config [] 1000 in
   let data := {| sessions := []; lastCheckAt := 1000 |} in
   stateData (plugin w) = Some data
   /\ runRestoreCheck (host_on "p1/m1") 2000 DAY_MS w = (Ok tt, w))
  /\ (let host := host_on "p2/m2" in
      let w := sweep_world 1000 in
      let suspended :=
        snd (Async.resume host 2 (Async.runRestoreCheck 90000000 DAY_MS) w) in
      stateData (plugin w) = Some (sweep_data 1000)
      /\ trace suspended = [SessionGet "s1"; SessionUpdate "s1" (JStr "p1") (JStr "m1")]
      /\ checked_at 90000000 (plugin suspended)
      /\ Async.advance host (Async.runRestoreCheck 90005000 DAY_MS) suspended
         = (Async.Done (Ok tt), suspended)
      /\ runRestoreCheck host 90005000 DAY_MS suspended = (Ok tt, suspended)).
Proof.
  split.
  - cbv zeta. split; [reflexivity|].
    destruct (sweep_rate_limit (host_on "p1/m1") 2000 DAY_MS
                (scenario_world p1_p2_config [] 1000)
                {| sessions := []; lastCheckAt := 1000 |}) as [Hskip _];
      [reflexivity | apply Hskip; reflexivity].
  - cbv zeta. split; [reflexivity|]. split; [reflexivity|].
    destruct (sweep_rate_limit (host_on "p2/m2") 90000000 DAY_MS (sweep_world 1000)
                (sweep_data 1000)) as [_ Hrun]; [reflexivity|].
    destruct Hrun as [Hpass _]; [reflexivity | discriminate|].
    apply (Hpass 2%nat (host_on "p2/m2") 90005000 DAY_MS). reflexivity.
Defined.

Lemma restored_record_across_sweep_witness :
  let r := scenario_record 1000 "p1/m1" "p2/m2" (Some 90000000) in
  let w := scenario_world p1_p2_config [("s1", r)] 90000000 in
  stateData (plugin w) = Some {| sessions := [("s1", r)]; lastCheckAt := 90000000 |}
  /\ get_session "s1" [("s1", r)] = Some r
  /\ FallbackRecord.restoredAt r <> None
  /\ exists r',
       record_of "s1" (snd (runRestoreCheck (host_on "p1/m1") 180000000 DAY_MS w))
       = Some r'
       /\ same_episode r r'
       /\ FallbackRecord.restoredAt r' <> None.
Proof.
  cbv zeta. split; [reflexivity|]. split; [reflexivity|]. split; [discriminate|].
  destruct (restored_record_across_sweep (host_on "p1/m1") 180000000 DAY_MS
              (scenario_world p1_p2_config
                 [("s1", scenario_record 1000 "p1/m1" "p2/m2" (Some 90000000))]
                 90000000)
              {| sessions :=
                   [("s1", scenario_record 1000 "p1/m1" "p2/m2" (Some 90000000))];
                 lastCheckAt := 90000000 |}
              "s1" (scenario_record 1000 "p1/m1" "p2/m2" (Some 90000000)))
    as [Hkept _]; [reflexivity | reflexivity | discriminate | exact Hkept].
Defined.

(** A restored record is rewritten by the next sweep that proceeds: with the
    session on its original model, [restoredAt] moves from 90000000 to the
    time of the pass. *)
Lemma restored_record_is_rewritten :
  let r := scenario_record 1000 "p1/m1" "p2/m2" (Some 90000000) in
  let w := scenario_world p1_p2_config [("s1", r)] 90000000 in
  let w' := snd (runRestoreCheck (host_on "p1/m1") 180000000 DAY_MS w) in
  FallbackRecord.restoredAt r = Some 90000000
  /\ record_of "s1" w = Some r
  /\ record_of "s1" w' = Some (scenario_record 1000 "p1/m1" "p2/m2" (Some 180000000))
  /\ record_of "s1" w' <> record_of "s1" w.
Proof.
  cbv zeta. split; [reflexivity|]. split; [reflexivity|]. split; [reflexivity|].
  vm_compute. discriminate.
Defined.

Lemma missing_provider_blocks_fallback_witness :
  let cfg := scenario_config "p1/m1" "p2/m2" ["p1"; "p2"] false in
  let providers := [JObj [("id", JStr "p1")]] in
  let host := scenario_host (JStr "p1/m1") providers (Returned JUndefined)
                (Returned JUndefined) in
  let w := scenario_world cfg [] 0 in
  licensing_requireProviders (config (plugin w)) <> []
  /\ lists_providers host providers
  /\ (In "p2" (licensing_requireProviders (config (plugin w)))
      /\ ~ In (toLowerCase "p2") (listed_ids providers))
  /\ fst (hasRequiredProviders host (config (plugin w)) w) = Ok false
  /\ only_calls is_query w (snd (event_handler host 1000 scenario_event w)).
Proof.
  cbv zeta.
  assert (Hreq : licensing_requireProviders
                   (config (plugin (scenario_world
                      (scenario_config "p1/m1" "p2/m2" ["p1"; "p2"] false) [] 0)))
                 <> []) by discriminate.
  assert (Hlists : lists_providers
                     (scenario_host (JStr "p1/m1") [JObj [("id", JStr "p1")]]
                        (Returned JUndefined) (Returned JUndefined))
                     [JObj [("id", JStr "p1")]])
    by (intros n; eexists; split; reflexivity).
  assert (Hin : In "p2" ["p1"; "p2"]) by (simpl; auto).
  assert (Hmissing : ~ In (toLowerCase "p2") (listed_ids [JObj [("id", JStr "p1")]]))
    by (simpl; intros [H|[]]; discriminate).
  split; [exact Hreq|]. split; [exact Hlists|]. split; [exact (conj Hin Hmissing)|].
  destruct (missing_provider_blocks_fallback _ 1000 scenario_event _ _ Hreq Hlists
              (or_intror (ex_intro _ "p2" (conj Hin Hmissing))))
    as (_ & Hfalse & Hquiet).
  split; [apply Hfalse; discriminate | exact Hquiet].
Defined.

Lemma other_provider_aborts_witness :
  let host := host_on "p3/m3" in
  let w := scenario_world p1_p2_config [] 0 in
  let primary := {| providerId := JStr "p1"; modelId := JStr "m1" |} in
  let current := {| providerId := JStr "p3"; modelId := JStr "m3" |} in
  extractSessionId scenario_event = Some "s1"
  /\ parseModel (JStr (primaryModel (config (plugin w)))) = Some primary
  /\ reports_model host "s1" current
  /\ truthy (providerId current) = true
  /\ strict_eq (providerId current) (providerId primary) = false
  /\ only_calls is_query w (snd (event_handler host 1000 scenario_event w)).
Proof.
  cbv zeta.
  assert (Hreports : reports_model (host_on "p3/m3") "s1"
                       {| providerId := JStr "p3"; modelId := JStr "m3" |})
    by (intros n; eexists; split; reflexivity).
  split; [reflexivity|]. split; [reflexivity|]. split; [exact Hreports|].
  split; [reflexivity|]. split; [reflexivity|].
  apply (other_provider_aborts (host_on "p3/m3") 1000 scenario_event
           (scenario_world p1_p2_config [] 0) "s1"
           {| providerId := JStr "p1"; modelId := JStr "m1" |}
           {| providerId := JStr "p3"; modelId := JStr "m3" |});
    [reflexivity | reflexivity | exact Hreports | reflexivity | reflexivity].
Defined.

(** A session whose model string is ["/m3"] has a known model with an empty
    provider id: it differs from the primary's provider ["p1"], and yet the
    handler goes on, stores a record and sends the prompt. *)
Lemma empty_provider_is_not_compared :
  let host := host_on "/m3" in
  let w := scenario_world p1_p2_config [] 0 in
  let primary := {| providerId := JStr "p1"; modelId := JStr "m1" |} in
  let current := {| providerId := JStr ""; modelId := JStr "m3" |} in
  let w' := snd (event_handler host 1000 scenario_event w) in
  extractSessionId scenario_event = Some "s1"
  /\ parseModel (JStr (primaryModel (config (plugin w)))) = Some primary
  /\ getSessionModel host "s1" w = (Ok (Some current), push (SessionGet "s1") w)
  /\ strict_eq (providerId current) (providerId primary) = false
  /\ In (SessionPrompt "s1" (JStr "p2") (JStr "m2") scenario_parts) (trace w')
  /\ record_of "s1" w' <> None
  /\ ~ only_calls is_query w w'.
Proof.
  cbv zeta. do 4 (split; [reflexivity|]).
  split; [vm_compute; tauto|]. split; [vm_compute; discriminate|].
  intros [Hplugin _]. vm_compute in Hplugin. discriminate.
Defined.

Lemma already_restored_is_marked_witness :
  let host := host_on "p1/m1" in
  let r := scenario_record 1000 "p1/m1" "p2/m2" None in
  let w := scenario_world p1_p2_config [("s1", r)] 0 in
  let w' := snd (runRestoreCheck host 180000000 DAY_MS w) in
  on_original host (config (plugin w)) 180000000 (threshold_of DAY_MS) "s1" r
  /\ record_of "s1" w' = Some (with_restoredAt 180000000 r)
  /\ (exists issued,
         trace w' = (trace w ++ issued)%list
         /\ forallb (not_update_for "s1") issued = true).
Proof.
  cbv zeta.
  assert (Hon : on_original (host_on "p1/m1")
                  (config (plugin (scenario_world p1_p2_config
                     [("s1", scenario_record 1000 "p1/m1" "p2/m2" None)] 0)))
                  180000000 (threshold_of DAY_MS) "s1"
                  (scenario_record 1000 "p1/m1" "p2/m2" None)).
  { split; [discriminate|]. split; [vm_compute; discriminate|].
    split; [discriminate|].
    exists {| providerId := JStr "p1"; modelId := JStr "m1" |},
           {| providerId := JStr "p1"; modelId := JStr "m1" |}.
    split; [reflexivity|]. split; [|reflexivity].
    intros n; eexists; split; reflexivity. }
  split; [exact Hon|].
  destruct (already_restored_is_marked (host_on "p1/m1") 180000000 DAY_MS
              (scenario_world p1_p2_config
                 [("s1", scenario_record 1000 "p1/m1" "p2/m2" None)] 0)
              {| sessions := [("s1", scenario_record 1000 "p1/m1" "p2/m2" None)];
                 lastCheckAt := 0 |}
              "s1" (scenario_record 1000 "p1/m1" "p2/m2" None))
    as (Hrecord & _ & Hcalls);
    [reflexivity | reflexivity | vm_compute; discriminate | reflexivity | exact Hon |].
  split; [exact Hrecord|].
  apply Hcalls. repeat constructor. simpl. tauto.
Defined.

(** Two records of sessions that are on their original model ["p1/m1"], both
    with an exhaustion timestamp more than one interval old, that a sweep
    leaves without [restoredAt]: the fallback model of the first does not
    parse, the timestamp of the second is zero. *)
Lemma old_record_on_original_not_marked :
  let host := host_on "p1/m1" in
  let r1 := scenario_record 1000 "p1/m1" "nomodel" None in
  let r2 := scenario_record 0 "p1/m1" "p2/m2" None in
  let w := scenario_world p1_p2_config [("s1", r1); ("s2", r2)] 0 in
  let w' := snd (runRestoreCheck host 180000000 DAY_MS w) in
  let original := {| providerId := JStr "p1"; modelId := JStr "m1" |} in
  (threshold_of DAY_MS <= 180000000 - record_exhaustedAt r1
   /\ record_originalModel p1_p2_config r1 = Some original
   /\ getSessionModel host "s1" w = (Ok (Some original), push (SessionGet "s1") w)
   /\ record_of "s1" w' = Some r1
   /\ FallbackRecord.restoredAt r1 = None)
  /\ (threshold_of DAY_MS <= 180000000 - record_exhaustedAt r2
      /\ record_originalModel p1_p2_config r2 = Some original
      /\ getSessionModel host "s2" w = (Ok (Some original), push (SessionGet "s2") w)
      /\ record_of "s2" w' = Some r2
      /\ FallbackRecord.restoredAt r2 = None).
Proof.
  cbv zeta. split.
  - split; [vm_compute; discriminate|]. do 3 (split; [reflexivity|]). reflexivity.
  - split; [vm_compute; discriminate|]. do 3 (split; [reflexivity|]). reflexivity.
Defined.

Lemma unanswered_confirm_is_acceptance_witness :
  let cfg := scenario_config "p1/m1" "p2/m2" [] true in
  let host := scenario_host (JStr "p1/m1") [] (Returned JUndefined) Thrown in
  let w := scenario_world cfg [] 0 in
  notifications_confirmOnFallback (config (plugin w)) = true
  /\ tui_showConfirm host = true
  /\ reply host (length (trace w)) TuiShowConfirm = Thrown
  /\ fst (confirmFallback host (config (plugin w)) w) = Ok true
  /\ In (prompt_of scenario_plan)
        (trace (snd (offer_fallback host 1000 scenario_plan w))).
Proof.
  cbv zeta. do 3 (split; [reflexivity|]).
  destruct (unanswered_confirm_is_acceptance
              (scenario_host (JStr "p1/m1") [] (Returned JUndefined) Thrown)
              (scenario_world (scenario_config "p1/m1" "p2/m2" [] true) [] 0))
    as [Hconfirm Hproceeds];
    [reflexivity | reflexivity | left; reflexivity |].
  split; [exact Hconfirm | apply Hproceeds].
Defined.

(** * Further properties of the plugin *)

(** ** Model strings *)

Lemma split_length_includes (sep : ascii) (s : string) :
  (length (split sep s) <? 2)%nat = negb (includes s (String sep EmptyString)).
Proof.
  induction s as [|c r IH]; [reflexivity|].
  cbn [split includes prefix].
  destruct (split_cons sep r) as (h & t & E).
  destruct (Ascii.eqb_spec c sep) as [->|Hne].
  - rewrite E. destruct (ascii_dec sep sep); [|contradiction].
    assert (Hr : prefix "" r = true) by now destruct r.
    now rewrite Hr.
  - destruct (ascii_dec sep c) as [->|_]; [contradiction|].
    rewrite E in *. cbn [orb]. exact IH.
Qed.

Lemma split_no_sep (sep : ascii) (p m : string) :
  includes p (String sep EmptyString) = false ->
  split sep (p ++ String sep m) = p :: split sep m.
Proof.
  induction p as [|c r IH]; intros Hp.
  - cbn. now rewrite Ascii.eqb_refl.
  - cbn [includes prefix] in Hp. apply orb_false_iff in Hp as [Hc Hr].
    cbn [append split].
    destruct (Ascii.eqb_spec c sep) as [->|_].
    + destruct (ascii_dec sep sep); [|contradiction].
      destruct r; discriminate.
    + now rewrite (IH Hr).
Qed.

(** X1.  [parseModel] answers [null] exactly on what is not a string with a
    slash in it: the empty string and strings without a slash included. *)
Theorem parseModel_null_iff (value : JsVal) :
  parseModel value = None
  <-> (forall s, value = JStr s -> includes s "/" = false).
Proof.
  destruct value; cbn [parseModel]; try (split; [intros _ s0 [=] | reflexivity]).
  rewrite split_length_includes, truthy_JStr.
  destruct (includes s "/") eqn:Hs; cbn [negb].
  - assert (Hne : nonempty s = true) by (destruct s; [discriminate | reflexivity]).
    rewrite Hne. cbn [negb]. split.
    { intros H. discriminate H. }
    intros H. specialize (H s eq_refl). congruence.
  - split.
    + intros _ s0 Heq. injection Heq as <-. exact Hs.
    + intros _. now destruct (negb (nonempty s)).
Qed.

(** X2.  [parseModel] cuts at the first slash: the provider is what comes
    before it and the model id is everything after, later slashes included. *)
Theorem parseModel_first_slash (provider model : string) :
  includes provider "/" = false ->
  parseModel (JStr (provider ++ "/" ++ model))
  = Some {| providerId := JStr provider; modelId := JStr model |}.
Proof.
  intros Hp. unfold parseModel.
  assert (Hne : truthy (JStr (provider ++ "/" ++ model)) = true)
    by (destruct provider; reflexivity).
  rewrite Hne. cbn [negb].
  change (provider ++ "/" ++ model) with (provider ++ String "/" model).
  rewrite (split_no_sep _ _ _ Hp).
  destruct (split_cons "/" model) as (h & t & E).
  pose proof (join_split "/" model) as J.
  rewrite E in *. cbn [length Nat.ltb Nat.leb hd tl]. now rewrite J.
Qed.

Lemma parseModel_shape (s : string) (m : ModelRef) :
  parseModel (JStr s) = Some m ->
  exists provider model,
    m = {| providerId := JStr provider; modelId := JStr model |}
    /\ s = provider ++ "/" ++ model
    /\ includes provider "/" = false.
Proof.
  unfold parseModel. rewrite truthy_JStr.
  destruct (nonempty s); cbn [negb]; [|discriminate].
  destruct (split_cons "/" s) as (h & t & E).
  pose proof (join_split "/" s) as J. rewrite E in *.
  destruct t as [|h' t']; cbn -[join]; [intros [=]|].
  intros [= <-]. exists h, (join "/" (h' :: t')).
  split; [reflexivity|]. split; [now rewrite <- J|].
  clear J. revert h h' t' E.
  induction s as [|c r IH]; intros h h' t' E; [discriminate|].
  cbn [split] in E. destruct (Ascii.eqb_spec c "/") as [->|Hne].
  - injection E as <- _. reflexivity.
  - destruct (split_cons "/" r) as (h0 & t0 & E0). rewrite E0 in E.
    injection E as <- Et. rewrite Et in E0. cbn [includes prefix].
    destruct (ascii_dec "/" c) as [<-|_]; [contradiction|].
    cbn [orb]. eapply IH. exact E0.
Qed.

(** X3.  Printing a parsed model gives back the string it was parsed from,
    or [null] exactly when the provider or the model part is empty. *)
Theorem modelToString_after_parseModel (s : string) (m : ModelRef) :
  parseModel (JStr s) = Some m ->
  modelToString (Some m)
  = if truthy (providerId m) && truthy (modelId m) then Some s else None.
Proof.
  intros Hparse.
  destruct (parseModel_shape s m Hparse) as (provider & model & -> & -> & _).
  reflexivity.
Qed.

Lemma strict_eq_JStr (a b : string) : strict_eq (JStr a) (JStr b) = true <-> a = b.
Proof. apply String.eqb_eq. Qed.

(** X4.  Two model strings that parse denote equal models, for
    [modelsEqual], exactly when they are the same string: the comparison is
    exact on both parts, case included. *)
Theorem modelsEqual_parsed (s t : string) (a b : ModelRef) :
  parseModel (JStr s) = Some a ->
  parseModel (JStr t) = Some b ->
  modelsEqual (Some a) (Some b) = true <-> s = t.
Proof.
  intros Ha Hb. split.
  - destruct (parseModel_shape s a Ha) as (p1 & m1 & -> & -> & _).
    destruct (parseModel_shape t b Hb) as (p2 & m2 & -> & -> & _).
    cbn [modelsEqual providerId modelId]. rewrite andb_true_iff, !strict_eq_JStr.
    now intros [-> ->].
  - intros <-. rewrite Ha in Hb. injection Hb as <-.
    destruct (parseModel_shape s a Ha) as (p1 & m1 & -> & _ & _).
    cbn [modelsEqual providerId modelId]. rewrite andb_true_iff, !strict_eq_JStr.
    now split.
Qed.

(** ** The classifier and the extractors *)

Lemma existsb_incl {A : Type} (f : A -> bool) (l l' : list A) :
  incl l l' -> existsb f l = true -> existsb f l' = true.
Proof.
  intros Hincl H. apply existsb_exists in H as (x & Hin & Hx).
  apply existsb_exists. exists x. auto.
Qed.

(** X5.  Rules only add triggers: an event that is classified as exhaustion
    stays so when statuses, codes or message substrings are added to the
    configuration; and with all three rule sets empty no event is. *)
Theorem isCreditExhausted_rules (event : JsVal) (config config' : Config) :
  (incl (fallback_onStatus config) (fallback_onStatus config') ->
   incl (fallback_onErrorCodes config) (fallback_onErrorCodes config') ->
   incl (fallback_onMessageMatches config) (fallback_onMessageMatches config') ->
   isCreditExhausted event config = true ->
   isCreditExhausted event config' = true)
  /\ (fallback_onStatus config = [] ->
      fallback_onErrorCodes config = [] ->
      fallback_onMessageMatches config = [] ->
      isCreditExhausted event config = false).
Proof.
  split.
  - intros Hs Hc Hm. unfold isCreditExhausted. cbv zeta.
    rewrite !orb_true_iff. intros [[H|H]|H].
    + left. left. eapply existsb_incl; eassumption.
    + left. right. destruct (extractCode event); [|discriminate].
      apply andb_true_iff in H as [-> H]. eapply existsb_incl; eassumption.
    + right. apply andb_true_iff in H as [-> H]. eapply existsb_incl; eassumption.
  - intros Hs Hc Hm. unfold isCreditExhausted. rewrite Hs, Hc, Hm.
    cbn [existsb]. destruct (extractCode event); rewrite ?andb_false_r; reflexivity.
Qed.

Lemma trim_end_idem (s : string) : trim_end (trim_end s) = trim_end s.
Proof.
  induction s as [|c r IH]; [reflexivity|].
  cbn [trim_end]. destruct (trim_end r) as [|c' r'] eqn:E.
  - destruct (is_space c) eqn:Ec; [reflexivity|]. cbn. now rewrite Ec.
  - cbn [trim_end] in *. rewrite IH. reflexivity.
Qed.

Lemma trim_start_stable (s : string) :
  trim_start (trim_end (trim_start s)) = trim_end (trim_start s).
Proof.
  induction s as [|c r IH]; [reflexivity|].
  cbn [trim_start]. destruct (is_space c) eqn:Ec; [exact IH|].
  cbn [trim_end]. destruct (trim_end r); rewrite ?Ec; cbn [trim_start];
    now rewrite Ec.
Qed.

(** [value.trim()] of a trimmed string is the string. *)
Lemma trim_idem (s : string) : trim (trim s) = trim s.
Proof. unfold trim. now rewrite trim_start_stable, trim_end_idem. Qed.

Lemma nonblank_trim_trimmed (value : JsVal) (s : string) :
  option_map trim (nonblank_string value) = Some s -> trim s = s.
Proof.
  destruct value; cbn; try discriminate.
  destruct (trim s0 =? "")%string; cbn; [discriminate|].
  intros [= <-]. apply trim_idem.
Qed.

(** X6.  The session id and the error code taken from an event are never
    empty and carry no white space at either end. *)
Theorem extracted_ids_are_trimmed (event : JsVal) (s : string) :
  extractSessionId event = Some s \/ extractCode event = Some s ->
  trim s = s /\ s <> "".
Proof.
  intros H.
  assert (Hpick : exists value, option_map trim (nonblank_string value) = Some s).
  { destruct H as [H|H]; apply first_candidate_some in H as (value & _ & H); eauto. }
  destruct Hpick as [value Hpick]. split.
  - eapply nonblank_trim_trimmed, Hpick.
  - pose proof (nonblank_trim _ _ Hpick) as Hne. now destruct s.
Qed.

(** *** The configuration as loaded *)

(** The loaded configuration of the defaults and the loaded empty state
    have typed forms: the typed defaults and the empty typed state. *)
Lemma typed_config_DEFAULT_CONFIG :
  typed_config Startup.DEFAULT_CONFIG = Some DEFAULT_CONFIG.
Proof. reflexivity. Qed.

Lemma typed_state_empty :
  typed_state Startup.empty = Some {| sessions := []; lastCheckAt := 0 |}.
Proof. reflexivity. Qed.





(** ** The last user message *)

Lemma find_split {A : Type} (f : A -> bool) (l : list A) (x : A) :
  find f l = Some x ->
  exists l1 l2, l = (l1 ++ x :: l2)%list /\ f x = true
                /\ forall y, In y l1 -> f y = false.
Proof.
  induction l as [|a rest IH]; cbn; [discriminate|].
  destruct (f a) eqn:Ea.
  - intros [= <-]. exists [], rest. repeat split; [exact Ea | contradiction].
  - intros H. destruct (IH H) as (l1 & l2 & -> & Hx & Hl1).
    exists (a :: l1), l2. repeat split; [exact Hx|].
    intros y [<-|Hy]; auto.
Qed.

Lemma find_none {A : Type} (f : A -> bool) (l : list A) :
  (forall y, In y l -> f y = false) -> find f l = None.
Proof.
  induction l as [|a rest IH]; intros H; cbn; [reflexivity|].
  rewrite (H a (or_introl eq_refl)). apply IH. intros y Hy. apply H. now right.
Qed.

(** The entry the scan picks is a user entry with parts, and nothing after
    it in the history is. *)
Lemma last_user_entry_some (response entry : JsVal) :
  last_user_entry response = Some entry ->
  exists before after,
    payload_of response = JArr (before ++ entry :: after)
    /\ is_user_entry entry = true
    /\ forall later, In later after -> is_user_entry later = false.
Proof.
  unfold last_user_entry. destruct (payload_of response); try discriminate.
  intros H. apply find_split in H as (l1 & l2 & Hrev & Hentry & Hl1).
  exists (rev l2), (rev l1). split; [|split; [exact Hentry|]].
  - f_equal. rewrite <- (rev_involutive items), Hrev, rev_app_distr. cbn.
    now rewrite <- app_assoc.
  - intros later Hin. apply Hl1. now apply in_rev.
Qed.

Lemma getLastUserMessage_some (host : Host) (sessionId : string) (w : World)
    (entry : JsVal) :
  fst (getLastUserMessage host sessionId w) = Ok (Some entry) ->
  exists response before after,
    reply host (length (trace w)) (SessionMessages sessionId) = Returned response
    /\ payload_of response = JArr (before ++ entry :: after)
    /\ is_user_entry entry = true
    /\ forall later, In later after -> is_user_entry later = false.
Proof.
  unfold getLastUserMessage, try_catch, bind, call, ret.
  destruct (reply host (length (trace w)) (SessionMessages sessionId))
    as [response|] eqn:Er; cbn [fst]; [|discriminate].
  intros [= H]. apply last_user_entry_some in H as (b & a & Hp & He & Ha).
  exists response, b, a. auto.
Qed.

(** X8.  [getLastUserMessage] never throws; an entry it returns is the last
    entry of the history that is user-authored and has a non-empty array of
    parts (no later entry is); it returns [null] when the call fails, when
    the payload is not an array, and when the history has no such entry. *)
Theorem getLastUserMessage_is_last (host : Host) (sessionId : string) (w : World) :
  (exists result,
      getLastUserMessage host sessionId w
      = (Ok result, push (SessionMessages sessionId) w))
  /\ (forall entry,
        fst (getLastUserMessage host sessionId w) = Ok (Some entry) ->
        exists response before after,
          reply host (length (trace w)) (SessionMessages sessionId) = Returned response
          /\ payload_of response = JArr (before ++ entry :: after)
          /\ is_user_entry entry = true
          /\ forall later, In later after -> is_user_entry later = false)
  /\ (reply host (length (trace w)) (SessionMessages sessionId) = Thrown ->
      fst (getLastUserMessage host sessionId w) = Ok None)
  /\ (forall response,
        reply host (length (trace w)) (SessionMessages sessionId) = Returned response ->
        (is_array (payload_of response) = false
         \/ exists messages,
              payload_of response = JArr messages
              /\ forall entry, In entry messages -> is_user_entry entry = false) ->
        fst (getLastUserMessage host sessionId w) = Ok None).
Proof.
  split; [|split; [apply getLastUserMessage_some|]].
  - unfold getLastUserMessage, try_catch, bind, call, ret.
    destruct (reply host (length (trace w)) (SessionMessages sessionId)); eauto.
  - unfold getLastUserMessage, try_catch, bind, call, ret.
    destruct (reply host (length (trace w)) (SessionMessages sessionId))
      as [response|] eqn:Er; cbn [fst].
    + split; [discriminate|].
      intros response' [= <-] [Hnot | (messages & Hp & Hnone)];
        unfold last_user_entry.
      * destruct (payload_of response); try reflexivity. discriminate.
      * rewrite Hp. f_equal. apply find_none.
        intros y Hy. apply Hnone. now apply in_rev.
    + split; [reflexivity | discriminate].
Qed.

Lemma is_user_entry_parts (entry : JsVal) :
  is_user_entry entry = true ->
  exists part parts, prop entry "parts" = JArr (part :: parts).
Proof.
  unfold is_user_entry. cbv zeta. rewrite !andb_true_iff. intros [[_ Harr] Hlen].
  destruct (prop entry "parts") as [| | | | |items|]; try discriminate.
  destruct items as [|part parts]; [discriminate | eauto].
Qed.

(** What the checks have read from the host when they reach the offer. *)
Lemma fallback_checks_message (host : Host) (event : JsVal) (w : World) (p : Plan) :
  fst (fallback_checks host event w) = Ok (Some p) ->
  exists w1,
    fst (getLastUserMessage host (plan_sessionId p) w1)
    = Ok (Some (plan_lastUserMessage p)).
Proof.
  intros H. unfold fallback_checks in H.
  run_in H; try discriminate.
  injection H as <-. cbn [plan_sessionId plan_lastUserMessage].
  subst.
  match goal with
  | E : getLastUserMessage host _ ?w1 = _ |- _ => exists w1; now rewrite E
  end.
Qed.

(** X9.  The handler never replays an empty message: whenever it reaches
    the offer, the parts it is about to send are a non-empty array, taken from
    a user-authored entry of the session's history. *)
Theorem replayed_parts_are_not_empty (host : Host) (event : JsVal) (w : World)
    (p : Plan) :
  fst (fallback_checks host event w) = Ok (Some p) ->
  is_user_entry (plan_lastUserMessage p) = true
  /\ exists part parts,
       prompt_of p
       = SessionPrompt (plan_sessionId p) (providerId (plan_fallbackModel p))
           (modelId (plan_fallbackModel p)) (JArr (part :: parts)).
Proof.
  intros H. destruct (fallback_checks_message host event w p H) as [w1 Hm].
  destruct (getLastUserMessage_some host (plan_sessionId p) w1 _ Hm)
    as (response & b & a & _ & _ & Huser & _).
  split; [exact Huser|].
  destruct (is_user_entry_parts _ Huser) as (part & parts & Hparts).
  exists part, parts. unfold prompt_of. now rewrite Hparts.
Qed.

(** ** The licensing check, in full *)

Lemma all_required_iff (required ids : list string) :
  all_required required ids = true
  <-> forall value, In value required -> In (toLowerCase value) ids.
Proof.
  unfold all_required. rewrite forallb_forall. split; intros H value Hin.
  - specialize (H value Hin). apply existsb_exists in H as (id & Hid & Heq).
    apply String.eqb_eq in Heq. now subst.
  - apply existsb_exists. exists (toLowerCase value).
    split; [now apply H | apply String.eqb_refl].
Qed.

(** The name the check takes for a provider, in words. *)
Lemma provider_known_as_iff (provider name : JsVal) :
  provider_known_as provider name
  <-> truthy (provider_name provider) = true /\ name = provider_name provider.
Proof.
  unfold provider_known_as, provider_name, js_or.
  destruct (truthy (prop provider "id")) eqn:Ei;
    [|destruct (truthy (prop provider "providerID")) eqn:Ep].
  - split.
    + intros (Hn & [-> | [[H _] | (H & _)]]); [now split | discriminate | discriminate].
    + intros [_ ->]. split; [exact Ei | now left].
  - split.
    + intros (Hn & [-> | [[_ ->] | (_ & H & _)]]);
        [congruence | now split | discriminate].
    + intros [_ ->]. split; [exact Ep | right; left; now split].
  - split.
    + intros (Hn & [-> | [[_ ->] | (_ & _ & ->)]]); [congruence | congruence | now split].
    + intros [Hn ->]. split; [exact Hn | right; right; now repeat split].
Qed.

(** The ids the check compares with, in words. *)
Lemma listed_ids_iff (providers : list JsVal) (required : string) :
  In (toLowerCase required) (listed_ids providers)
  <-> provider_listed providers required.
Proof.
  unfold listed_ids, provider_ids, provider_listed.
  rewrite in_map_iff. split.
  - intros (name & Heq & Hin). apply filter_In in Hin as [Hin Htruthy].
    apply in_map_iff in Hin as (provider & <- & Hin).
    exists provider, (provider_name provider). split; [exact Hin|]. split.
    + now apply provider_known_as_iff.
    + now apply toLowerCase_same_letters.
  - intros (provider & name & Hin & Hknown & Hsame).
    apply provider_known_as_iff in Hknown as [Htruthy ->].
    exists (provider_name provider). split.
    + now apply toLowerCase_same_letters.
    + apply filter_In. split; [now apply in_map | exact Htruthy].
Qed.

(** X10.  Without required providers the licensing check passes and asks the
    host nothing.  With some, and a non-empty provider list free of [null]
    entries, it asks once and passes exactly when every required id is
    listed: some provider of the list has, as the first truthy one of its
    [id], [providerID] and [name], a value that written as a string is the
    required id up to case.  The condition is stated letter by letter
    ([provider_listed]), not through the list of ids the code builds. *)
Theorem hasRequiredProviders_exact (host : Host) (config : Config) (w : World) :
  (licensing_requireProviders config = [] ->
   hasRequiredProviders host config w = (Ok true, w))
  /\ (forall providers,
        licensing_requireProviders config <> [] ->
        lists_providers host providers ->
        providers <> [] ->
        provider_names providers <> None ->
        exists passed,
          hasRequiredProviders host config w = (Ok passed, push ConfigProviders w)
          /\ (passed = true
              <-> forall required,
                    In required (licensing_requireProviders config) ->
                    provider_listed providers required)).
Proof.
  split.
  - intros Hreq. unfold hasRequiredProviders. now rewrite Hreq.
  - intros providers Hreq Hlists Hsome Hnames. unfold hasRequiredProviders.
    destruct (licensing_requireProviders config) as [|r0 required] eqn:Er;
      [contradiction|].
    unfold bind. rewrite (getProviders_lists _ _ _ Hlists).
    destruct providers as [|p rest]; [contradiction|].
    cbn [length_of truthy length]. rewrite Nat2Z.inj_succ.
    destruct (Z.eqb_spec (Z.succ (Z.of_nat (length rest))) 0) as [|_]; [lia|].
    cbn [negb].
    destruct (provider_names (p :: rest)) as [names|] eqn:En; [|contradiction].
    rewrite (provider_names_map _ _ En).
    eexists. split; [reflexivity|]. rewrite all_required_iff.
    split; intros H value Hin; apply listed_ids_iff, H, Hin.
Qed.

Lemma provider_names_nullish (providers : list JsVal) (provider : JsVal) :
  In provider providers -> nullish provider = true -> provider_names providers = None.
Proof.
  induction providers as [|p rest IH]; intros Hin Hnull; [contradiction|].
  cbn [provider_names]. destruct Hin as [->|Hin].
  - now rewrite Hnull.
  - destruct (nullish p); [reflexivity|]. now rewrite (IH Hin Hnull).
Qed.

(** X11.  A provider list with a [null] entry makes the licensing check
    throw (reading [provider.id] is a [TypeError] that nothing catches), and
    the exception leaves the handler: an exhaustion event of a session not
    yet attempted, with required providers configured, ends the handler with
    the exception, after the provider listing and nothing else. *)
Theorem null_provider_escapes (host : Host) (now : Z) (event : JsVal) (w : World)
    (sessionId : string) (providers : list JsVal) (provider : JsVal) :
  prop event "type" = JStr "session.error" ->
  enabled (config (plugin w)) = true ->
  isCreditExhausted event (config (plugin w)) = true ->
  extractSessionId event = Some sessionId ->
  has (attemptedSessions (plugin w)) sessionId = false ->
  licensing_requireProviders (config (plugin w)) <> [] ->
  lists_providers host providers ->
  In provider providers ->
  nullish provider = true ->
  hasRequiredProviders host (config (plugin w)) w = (Exn, push ConfigProviders w)
  /\ event_handler host now event w = (Exn, push ConfigProviders w).
Proof.
  intros Htype Hen Hex Hid Hfresh Hreq Hlists Hin Hnull.
  assert (Hthrow : hasRequiredProviders host (config (plugin w)) w
                   = (Exn, push ConfigProviders w)).
  { unfold hasRequiredProviders.
    destruct (licensing_requireProviders (config (plugin w))) as [|r0 required];
      [contradiction|].
    unfold bind. rewrite (getProviders_lists _ _ _ Hlists).
    destruct providers as [|p rest]; [contradiction|].
    cbn [length_of truthy length]. rewrite Nat2Z.inj_succ.
    destruct (Z.eqb_spec (Z.succ (Z.of_nat (length rest))) 0) as [|_]; [lia|].
    cbn [negb]. now rewrite (provider_names_nullish _ _ Hin Hnull). }
  split; [exact Hthrow|].
  pose proof (extractSessionId_nonempty _ _ Hid) as Hne.
  assert (Hobj : truthy event = true)
    by (destruct event; try discriminate; reflexivity).
  unfold event_handler, fallback_checks.
  rewrite Hobj, Htype. cbn [negb strict_eq orb String.eqb Ascii.eqb Bool.eqb].
  unfold bind at 1. unfold bind at 1. unfold get_plugin at 1.
  rewrite Hen, Hex, Hid, Hne. cbn [negb].
  unfold bind at 1. unfold get_plugin at 1. rewrite Hfresh.
  unfold bind at 1. now rewrite Hthrow.
Qed.

(** ** What the handler leaves behind *)

Lemma get_set_session_other (k sessionId : string) (record : FallbackRecord.t)
    (entries : list (string * FallbackRecord.t)) :
  k <> sessionId ->
  get_session k (set_session sessionId record entries) = get_session k entries.
Proof.
  intros Hk. induction entries as [|[k' r] rest IH]; cbn.
  - destruct (String.eqb_spec sessionId k); [congruence | reflexivity].
  - destruct (String.eqb_spec k' sessionId) as [->|Hne]; cbn.
    + destruct (String.eqb_spec sessionId k); [congruence | reflexivity].
    + destruct (k' =? k)%string; [reflexivity | exact IH].
Qed.

(** The state the offer leaves: the accepted one or, after a refusal, the
    state with the session marked and nothing else. *)
Lemma offer_fallback_plugin_cases (host : Host) (now : Z) (p : Plan) (w : World) :
  plugin (snd (offer_fallback host now p w)) = after_accept now p (plugin w)
  \/ plugin (snd (offer_fallback host now p w))
     = with_attempted (plan_sessionId p) (plugin w).
Proof.
  destruct (confirmFallback_returns host (config (plugin w)) w) as [[] Hb].
  - left. now apply offer_fallback_plugin.
  - right. unfold offer_fallback.
    unfold bind at 1. unfold get_plugin at 1. unfold bind at 1.
    pose proof (confirmFallback_only_calls host (config (plugin w)) w) as [Hp1 _].
    destruct (confirmFallback host (config (plugin w)) w) as [r w1].
    cbn [fst snd] in Hb, Hp1. subst r. cbn [negb].
    unfold bind, modify.
    match goal with
    | |- plugin (snd (safeLog host ?l ?m ?w2)) = _ =>
        destruct (safeLog_only_calls host l m w2) as [Hp _]; rewrite Hp
    end.
    cbn [plugin]. now rewrite Hp1.
Qed.

Lemma event_handler_plugin_cases (host : Host) (now : Z) (event : JsVal) (w : World) :
  plugin (snd (event_handler host now event w)) = plugin w
  \/ exists p,
       extractSessionId event = Some (plan_sessionId p)
       /\ (plugin (snd (event_handler host now event w))
           = after_accept now p (plugin w)
           \/ plugin (snd (event_handler host now event w))
              = with_attempted (plan_sessionId p) (plugin w)).
Proof.
  pose proof (fallback_checks_only_queries host event w) as [Hq _].
  unfold event_handler, bind.
  destruct (fallback_checks host event w) as [[[p|]|] w1] eqn:E; cbn [snd] in *;
    try (left; exact Hq).
  right. exists p. split.
  - apply (fallback_checks_plan host event w p). now rewrite E.
  - rewrite <- Hq. apply offer_fallback_plugin_cases.
Qed.

(** X12.  Whatever the event and the host do, the handler leaves the
    configuration and the two paths as they are, never touches [lastCheckAt],
    never drops the persisted state, and changes the record of no session
    other than the one the event carries. *)
Theorem handler_frame (host : Host) (now : Z) (event : JsVal) (w : World) :
  let w' := snd (event_handler host now event w) in
  config (plugin w') = config (plugin w)
  /\ configPath (plugin w') = configPath (plugin w)
  /\ statePath (plugin w') = statePath (plugin w)
  /\ option_map lastCheckAt (stateData (plugin w'))
     = option_map lastCheckAt (stateData (plugin w))
  /\ (forall k, extractSessionId event <> Some k -> record_of k w' = record_of k w).
Proof.
  cbv zeta. unfold record_of.
  destruct (event_handler_plugin_cases host now event w)
    as [-> | (p & Hid & [-> | ->])].
  - auto.
  - unfold after_accept. destruct (plugin w) as [c cp sp [data|] att];
      cbn [with_attempted with_stateData stateData config configPath statePath
           option_map sessions lastCheckAt];
      repeat split; auto.
    intros k Hk. apply get_set_session_other. intros ->. now apply Hk.
  - destruct (plugin w); cbn [with_attempted stateData config configPath statePath].
    auto.
Qed.

Lemma confirmFallback_declined (host : Host) (config : Config) (w : World)
    (response : JsVal) :
  notifications_confirmOnFallback config = true ->
  tui_showConfirm host = true ->
  reply host (length (trace w)) TuiShowConfirm = Returned response ->
  confirm_answer response = Some false ->
  confirmFallback host config w = (Ok false, push TuiShowConfirm w).
Proof.
  intros Hflag Hcap Hreply Hanswer. unfold confirmFallback.
  rewrite Hflag, Hcap. cbn [negb]. unfold bind, try_catch, call, ret.
  now rewrite Hreply, Hanswer.
Qed.

(** X13.  A refusal in the confirm dialog ([false], or a payload whose first
    answer field is [false]) ends the handler with the session marked as
    attempted and nothing else changed: no record is stored, and after the
    dialog the only call is the log entry (no prompt, no write, no toast). *)
Theorem declined_offer_changes_nothing (host : Host) (now : Z) (p : Plan) (w : World)
    (response : JsVal) :
  notifications_confirmOnFallback (config (plugin w)) = true ->
  tui_showConfirm host = true ->
  reply host (length (trace w)) TuiShowConfirm = Returned response ->
  confirm_answer response = Some false ->
  let w' := snd (offer_fallback host now p w) in
  fst (offer_fallback host now p w) = Ok tt
  /\ plugin w' = with_attempted (plan_sessionId p) (plugin w)
  /\ stateData (plugin w') = stateData (plugin w)
  /\ trace w'
     = (trace w ++ [TuiShowConfirm; AppLog "info" "User declined fallback retry"])%list.
Proof.
  intros Hflag Hcap Hreply Hanswer.
  assert (E : offer_fallback host now p w
              = (Ok tt,
                 {| plugin := with_attempted (plan_sessionId p) (plugin w);
                    trace := (trace w ++ [TuiShowConfirm;
                                AppLog "info" "User declined fallback retry"])%list |})).
  { unfold offer_fallback.
    unfold bind at 1. unfold get_plugin at 1. unfold bind at 1.
    rewrite (confirmFallback_declined host _ w response Hflag Hcap Hreply Hanswer).
    cbn [negb].
    cbv beta iota delta [bind modify safeLog try_catch call ret push plugin trace].
    match goal with
    | |- context [reply host ?n ?c] => destruct (reply host n c)
    end; now rewrite <- app_assoc. }
  cbv zeta. rewrite E. cbn [fst snd plugin trace].
  destruct (plugin w); cbn [with_attempted stateData]. auto.
Qed.

(** ** What the sweep leaves behind *)

Lemma with_stateData_twice (a b : option PersistedState) (s : PluginState) :
  with_stateData a (with_stateData b s) = with_stateData a s.
Proof. reflexivity. Qed.

Lemma restore_record_stamped (host : Host) (config : Config) (now threshold : Z)
    (sessionId : string) (r r' : FallbackRecord.t) (w : World) :
  fst (restore_record host config now threshold sessionId r w) = Ok r' ->
  stamped now r r'.
Proof.
  intros H. unfold restore_record in H. unfold stamped.
  run_in H; try discriminate; injection H as <-; auto.
Qed.

(** The loop keeps the keys and their order, and stamps the records. *)
Lemma sweep_records_keys (host : Host) (config : Config) (now threshold : Z)
    (entries : list (string * FallbackRecord.t)) :
  forall w entries',
    fst (sweep_records host config now threshold entries w) = Ok entries' ->
    map fst entries' = map fst entries
    /\ Forall2 (fun e e' => stamped now (snd e) (snd e')) entries entries'.
Proof.
  induction entries as [|[k record] rest IH]; intros w entries' Hrun.
  - cbn in Hrun. injection Hrun as <-. split; constructor.
  - cbn [sweep_records] in Hrun. unfold bind at 1 in Hrun.
    destruct (restore_record host config now threshold k record w) as [[record'|] w1]
      eqn:E1; [|discriminate].
    unfold bind at 1 in Hrun.
    destruct (sweep_records host config now threshold rest w1) as [[rest'|] w2]
      eqn:E2; [|discriminate].
    cbn in Hrun. injection Hrun as <-.
    destruct (IH w1 rest') as [Hk Hs]; [now rewrite E2|].
    split; [cbn; now rewrite Hk|].
    constructor; [|exact Hs]. cbn [snd].
    eapply restore_record_stamped. now rewrite E1.
Qed.

Lemma get_session_stamped (now : Z) (sessionId : string)
    (entries entries' : list (string * FallbackRecord.t)) :
  map fst entries' = map fst entries ->
  Forall2 (fun e e' => stamped now (snd e) (snd e')) entries entries' ->
  match get_session sessionId entries' with
  | Some record' =>
      exists record,
        get_session sessionId entries = Some record /\ stamped now record record'
  | None => get_session sessionId entries = None
  end.
Proof.
  intros Hk Hs. induction Hs as [|[k r] [k' r'] rest rest' Hr _ IH]; [reflexivity|].
  cbn in Hk. injection Hk as -> Hk. cbn [get_session].
  destruct (k =? sessionId)%string; [|now apply IH].
  exists r. now split.
Qed.

(** The state a sweep ends in: the one it started in, or that state with
    the entries the loop returned and [lastCheckAt] at [now]. *)
Lemma runRestoreCheck_plugin (host : Host) (now intervalMs : Z) (w : World) :
  plugin (snd (runRestoreCheck host now intervalMs w)) = plugin w
  \/ exists data entries w1,
       sweep_proceeds now intervalMs w data
       /\ sweep_records host (config (plugin w)) now (threshold_of intervalMs)
            (sessions data) (sweep_start now data w) = (Ok entries, w1)
       /\ plugin (snd (runRestoreCheck host now intervalMs w))
          = with_stateData (Some {| sessions := entries; lastCheckAt := now |})
              (plugin w).
Proof.
  destruct (restore_enabled (config (plugin w))) eqn:Hen.
  2:{ left. unfold runRestoreCheck, bind, get_plugin, ret. now rewrite Hen. }
  destruct (stateData (plugin w)) as [data|] eqn:Hdata.
  2:{ left. unfold runRestoreCheck, bind, get_plugin, ret. now rewrite Hen, Hdata. }
  destruct (Z.lt_ge_cases (now - lastCheckAt data) (threshold_of intervalMs))
    as [Hrecent|Hold].
  { left. now rewrite (runRestoreCheck_skips host now intervalMs w data Hdata Hrecent). }
  right.
  destruct (runRestoreCheck_proceeds_result host now intervalMs w data Hen Hdata Hold)
    as (entries & w1 & w2 & Hsweep & Hw2 & _ & [Hp _]).
  exists data, entries, w1. split; [now repeat split|]. split; [exact Hsweep|].
  rewrite Hw2, Hp. cbn [plugin].
  pose proof (sweep_records_only_calls host (config (plugin w)) now
                (threshold_of intervalMs) (sessions data) (sweep_start now data w))
    as [Hp1 _].
  rewrite Hsweep in Hp1. cbn [snd] in Hp1. rewrite Hp1. reflexivity.
Qed.

(** X14.  Whatever the host does, a sweep leaves the configuration, the two
    paths and the set of attempted sessions as they are; it adds, removes
    and reorders no session, and the record of a session afterwards is the
    record before with, at most, [restoredAt] and [lastRestoreAttemptAt] set
    to the time of the sweep. *)
Theorem sweep_frame (host : Host) (now intervalMs : Z) (w : World) :
  let w' := snd (runRestoreCheck host now intervalMs w) in
  config (plugin w') = config (plugin w)
  /\ configPath (plugin w') = configPath (plugin w)
  /\ statePath (plugin w') = statePath (plugin w)
  /\ attemptedSessions (plugin w') = attemptedSessions (plugin w)
  /\ session_ids w' = session_ids w
  /\ (forall sessionId,
        match record_of sessionId w' with
        | Some record' =>
            exists record,
              record_of sessionId w = Some record /\ stamped now record record'
        | None => record_of sessionId w = None
        end).
Proof.
  cbv zeta. unfold session_ids, record_of.
  destruct (runRestoreCheck_plugin host now intervalMs w)
    as [-> | (data & entries & w1 & (_ & Hdata & _) & Hsweep & ->)].
  - repeat split. intros sessionId.
    destruct (stateData (plugin w)) as [data|]; [|reflexivity].
    destruct (get_session sessionId (sessions data)) as [record|]; [|reflexivity].
    exists record. split; [reflexivity | now left].
  - rewrite Hdata. cbn [with_stateData config configPath statePath stateData
                         attemptedSessions sessions].
    destruct (sweep_records_keys host (config (plugin w)) now (threshold_of intervalMs)
                (sessions data) (sweep_start now data w) entries) as [Hk Hs];
      [now rewrite Hsweep|].
    repeat split; [exact Hk|].
    intros sessionId. now apply get_session_stamped.
Qed.

Lemma set_session_keys (sessionId : string) (record : FallbackRecord.t)
    (entries : list (string * FallbackRecord.t)) :
  map fst (set_session sessionId record entries)
  = if existsb (String.eqb sessionId) (map fst entries)
    then map fst entries
    else (map fst entries ++ [sessionId])%list.
Proof.
  induction entries as [|[k r] rest IH]; [reflexivity|].
  cbn [set_session map fst existsb]. rewrite (String.eqb_sym sessionId k).
  destruct (k =? sessionId)%string; cbn [orb map fst]; [reflexivity|].
  rewrite IH. now destruct (existsb _ _).
Qed.

Lemma set_session_NoDup (sessionId : string) (record : FallbackRecord.t)
    (entries : list (string * FallbackRecord.t)) :
  NoDup (map fst entries) -> NoDup (map fst (set_session sessionId record entries)).
Proof.
  intros Hnd. rewrite set_session_keys.
  destruct (existsb (String.eqb sessionId) (map fst entries)) eqn:E; [exact Hnd|].
  apply NoDup_app; [exact Hnd | repeat constructor; intros [] |].
  intros k Hin [<-|[]].
  assert (existsb (String.eqb sessionId) (map fst entries) = true); [|congruence].
  apply existsb_exists. exists sessionId. split; [exact Hin | apply String.eqb_refl].
Qed.

Lemma step_distinct_ids (s : Step) (w : World) :
  distinct_ids w -> distinct_ids (step s w).
Proof.
  unfold distinct_ids. destruct s as [host now event | host now intervalMs];
    cbn [step].
  - destruct (event_handler_plugin_cases host now event w)
      as [-> | (p & _ & [-> | ->])]; [auto | | auto].
    unfold after_accept.
    destruct (plugin w) as [c cp sp [data|] att];
      cbn [with_attempted with_stateData stateData sessions]; [|auto].
    apply set_session_NoDup.
  - destruct (runRestoreCheck_plugin host now intervalMs w)
      as [-> | (data & entries & w1 & (_ & Hdata & _) & Hsweep & ->)]; [auto|].
    rewrite Hdata. cbn [with_stateData stateData sessions].
    destruct (sweep_records_keys host (config (plugin w)) now (threshold_of intervalMs)
                (sessions data) (sweep_start now data w) entries) as [Hk _];
      [now rewrite Hsweep|].
    now rewrite Hk.
Qed.

(** X15.  The session ids of the persisted state stay distinct along every
    run of events and sweeps: a fallback for a session that has a record
    replaces the record where it is, and a sweep keeps the keys. *)
Theorem session_ids_stay_distinct (steps : list Step) (w : World) :
  distinct_ids w -> distinct_ids (run steps w).
Proof.
  revert w. induction steps as [|s rest IH]; intros w Hw; [exact Hw|].
  cbn [run]. apply IH, step_distinct_ids, Hw.
Qed.

(** ** The outcomes of the loop body *)

Lemma restore_record_skips (host : Host) (config : Config) (now threshold : Z)
    (sessionId : string) (record : FallbackRecord.t) (w : World) :
  record_exhaustedAt record = 0
  \/ now - record_exhaustedAt record < threshold
  \/ record_originalModel config record = None
  \/ record_fallbackModel config record = None ->
  restore_record host config now threshold sessionId record w = (Ok record, w).
Proof.
  unfold restore_record. cbv zeta. intros [H|[H|[H|H]]].
  - rewrite H. reflexivity.
  - destruct (Z.ltb_spec (now - record_exhaustedAt record) threshold); [|lia].
    now rewrite orb_true_r.
  - destruct (_ || _); [reflexivity|]. now rewrite H.
  - destruct (_ || _); [reflexivity|]. rewrite H.
    now destruct (record_originalModel config record).
Qed.

(** Past the guards, the loop body starts with the read of the session. *)
Ltac pass_guards Hel Hreads w :=
  destruct Hel as (Hset & Hold & Hom & Hfm);
  unfold restore_record; cbv zeta;
  match goal with
  | |- context [?a =? 0] => destruct (Z.eqb_spec a 0) as [|_]; [contradiction|]
  end;
  match goal with
  | |- context [?a <? ?b] => destruct (Z.ltb_spec a b) as [|_]; [lia|]
  end;
  cbn [orb]; rewrite Hom, Hfm; unfold bind at 1; rewrite (Hreads w).

Lemma restore_record_third_model (host : Host) (config : Config) (now threshold : Z)
    (sessionId : string) (record : FallbackRecord.t)
    (originalModel fallbackModel sessionModel : ModelRef) (w : World) :
  eligible config now threshold record originalModel fallbackModel ->
  session_reads host sessionId (Some sessionModel) ->
  modelsEqual (Some sessionModel) (Some originalModel) = false ->
  modelsEqual (Some sessionModel) (Some fallbackModel) = false ->
  restore_record host config now threshold sessionId record w
  = (Ok record, push (SessionGet sessionId) w).
Proof.
  intros Hel Hreads Ho Hf. pass_guards Hel Hreads w.
  cbn [is_some andb]. now rewrite Ho, Hf.
Qed.

Lemma push_trace3 (a b c : Call) (w : World) :
  trace (push c (push b (push a w))) = (trace w ++ a :: b :: [c])%list.
Proof. cbn [push trace]. now rewrite <- !app_assoc. Qed.

Lemma push_trace4 (a b c d : Call) (w : World) :
  trace (push d (push c (push b (push a w)))) = (trace w ++ a :: b :: [c; d])%list.
Proof. cbn [push trace]. now rewrite <- !app_assoc. Qed.

Lemma restore_record_switches (host : Host) (config : Config) (now threshold : Z)
    (sessionId : string) (record : FallbackRecord.t)
    (originalModel fallbackModel : ModelRef) (sessionModel : option ModelRef)
    (w : World) :
  eligible config now threshold record originalModel fallbackModel ->
  session_reads host sessionId sessionModel ->
  to_restore sessionModel originalModel fallbackModel ->
  update_returns host sessionId originalModel ->
  exists w' notices,
    restore_record host config now threshold sessionId record w
    = (Ok (with_restoredAt now (with_lastRestoreAttemptAt now record)), w')
    /\ plugin w' = plugin w
    /\ trace w'
       = (trace w
          ++ SessionGet sessionId
          :: SessionUpdate sessionId (providerId originalModel) (modelId originalModel)
          :: notices)%list
    /\ forallb is_notice notices = true.
Proof.
  intros Hel Hreads Hto Hupd. pass_guards Hel Hreads w.
  assert (Htests :
            is_some sessionModel && modelsEqual sessionModel (Some originalModel) = false
            /\ is_some sessionModel
               && negb (modelsEqual sessionModel (Some fallbackModel)) = false).
  { destruct sessionModel as [m|]; [|now split]. destruct Hto as [-> ->]. now split. }
  destruct Htests as [-> ->].
  unfold setSessionModel, try_catch. unfold bind at 1. unfold bind at 1.
  unfold call at 1.
  destruct (Hupd (length (trace (push (SessionGet sessionId) w)))) as [response ->].
  unfold ret at 1. unfold bind at 1.
  destruct (notifications_toastOnRestore config).
  - unfold try_catch, bind, call, ret, safeLog.
    destruct (reply host _ (TuiShowToast _ _)).
    + eexists. exists [TuiShowToast "Credits restored. Switched back to primary model."
                         "success"].
      split; [reflexivity|]. split; [reflexivity|]. split; [apply push_trace3 | reflexivity].
    + unfold try_catch, bind, call, ret.
      destruct (reply host _ (AppLog _ _));
        (eexists;
         exists [TuiShowToast "Credits restored. Switched back to primary model."
                   "success";
                 AppLog "debug" "Restore toast failed"];
         split; [reflexivity|]; split; [reflexivity|];
         split; [apply push_trace4 | reflexivity]).
  - eexists. exists []. split; [reflexivity|]. split; [reflexivity|].
    split; [|reflexivity]. cbn [push trace]. now rewrite <- app_assoc.
Qed.

Lemma restore_record_fails (host : Host) (config : Config) (now threshold : Z)
    (sessionId : string) (record : FallbackRecord.t)
    (originalModel fallbackModel : ModelRef) (sessionModel : option ModelRef)
    (w : World) :
  eligible config now threshold record originalModel fallbackModel ->
  session_reads host sessionId sessionModel ->
  to_restore sessionModel originalModel fallbackModel ->
  update_throws host sessionId originalModel ->
  restore_record host config now threshold sessionId record w
  = (Ok (with_lastRestoreAttemptAt now record),
     push (AppLog "warn" "Failed to restore primary model")
       (push (SessionUpdate sessionId (providerId originalModel)
                (modelId originalModel))
          (push (SessionGet sessionId) w))).
Proof.
  intros Hel Hreads Hto Hupd. pass_guards Hel Hreads w.
  assert (Htests :
            is_some sessionModel && modelsEqual sessionModel (Some originalModel) = false
            /\ is_some sessionModel
               && negb (modelsEqual sessionModel (Some fallbackModel)) = false).
  { destruct sessionModel as [m|]; [|now split]. destruct Hto as [-> ->]. now split. }
  destruct Htests as [-> ->].
  unfold setSessionModel, try_catch. unfold bind at 1. unfold bind at 1.
  unfold call at 1.
  rewrite (Hupd (length (trace (push (SessionGet sessionId) w)))).
  unfold ret at 1.
  cbv beta iota delta [bind safeLog try_catch call ret].
  match goal with
  | |- context [reply host ?n ?c] => now destruct (reply host n c)
  end.
Qed.

(** ** From the loop body to the sweep *)

(** The record of a session after the loop is what the body makes of it. *)
Lemma sweep_records_gives (host : Host) (config : Config) (now threshold : Z)
    (sessionId : string) (record record' : FallbackRecord.t)
    (entries : list (string * FallbackRecord.t)) :
  (forall w,
      fst (restore_record host config now threshold sessionId record w) = Ok record') ->
  get_session sessionId entries = Some record ->
  forall w entries',
    fst (sweep_records host config now threshold entries w) = Ok entries' ->
    get_session sessionId entries' = Some record'.
Proof.
  intros Hbody. induction entries as [|[k r] rest IH]; intros Hget w entries' Hrun;
    [discriminate|].
  cbn [sweep_records] in Hrun. unfold bind at 1 in Hrun.
  pose proof (Hbody w) as Hb.
  destruct (restore_record host config now threshold k r w) as [[r'|] w1] eqn:E1;
    [|discriminate].
  unfold bind at 1 in Hrun.
  destruct (sweep_records host config now threshold rest w1) as [[rest'|] w2] eqn:E2;
    [|discriminate].
  cbn in Hrun. injection Hrun as <-.
  cbn [get_session] in *. destruct (String.eqb_spec k sessionId) as [->|Hk].
  - injection Hget as ->. rewrite E1 in Hb. cbn in Hb. congruence.
  - eapply (IH Hget w1). now rewrite E2.
Qed.

(** The calls of the loop are those of its bodies. *)
Lemma sweep_records_calls (host : Host) (config : Config) (now threshold : Z)
    (ok : Call -> bool) (entries : list (string * FallbackRecord.t)) :
  (forall k r,
      In (k, r) entries ->
      respects (only_calls ok) (restore_record host config now threshold k r)) ->
  respects (only_calls ok) (sweep_records host config now threshold entries).
Proof.
  induction entries as [|[k r] rest IH]; intros Hall w.
  - apply only_calls_refl.
  - cbn [sweep_records]. unfold bind at 1.
    pose proof (Hall k r (or_introl eq_refl) w) as H1.
    destruct (restore_record host config now threshold k r w) as [[r'|] w1];
      cbn [snd] in *; [|exact H1].
    unfold bind at 1.
    pose proof (IH (fun k0 r0 Hin => Hall k0 r0 (or_intror Hin)) w1) as H2.
    destruct (sweep_records host config now threshold rest w1) as [[rest'|] w2];
      cbn [snd] in *; eapply only_calls_trans; eassumption.
Qed.

(** A call every run of the body on the record issues is issued by the
    loop. *)
Lemma sweep_records_issues (host : Host) (config : Config) (now threshold : Z)
    (sessionId : string) (record : FallbackRecord.t) (c : Call)
    (entries : list (string * FallbackRecord.t)) :
  (forall w,
      In c (trace (snd (restore_record host config now threshold sessionId record w)))) ->
  get_session sessionId entries = Some record ->
  forall w, In c (trace (snd (sweep_records host config now threshold entries w))).
Proof.
  intros Hbody. induction entries as [|[k r] rest IH]; intros Hget w; [discriminate|].
  cbn [sweep_records]. unfold bind at 1.
  pose proof (sweep_records_only_calls host config now threshold rest) as Hrest.
  cbn [get_session] in Hget. destruct (String.eqb_spec k sessionId) as [->|Hk].
  - injection Hget as ->. pose proof (Hbody w) as Hb.
    destruct (restore_record host config now threshold sessionId record w)
      as [[r'|] w1]; cbn [snd] in *; [|exact Hb].
    unfold bind at 1. specialize (Hrest w1).
    destruct (sweep_records host config now threshold rest w1) as [[rest'|] w2];
      unfold ret; cbn [snd] in *; destruct Hrest as [_ (issued & -> & _)];
      apply in_or_app; now left.
  - destruct (returns_restore_record host config now threshold k r w) as [r' Hr].
    destruct (restore_record host config now threshold k r w) as [x w1].
    cbn [fst] in Hr. subst x. unfold bind at 1.
    pose proof (IH Hget w1) as Hin.
    now destruct (sweep_records host config now threshold rest w1) as [[rest'|] w2].
Qed.

Section SweepOutcome.

Variable host : Host.
Variables now intervalMs : Z.
Variable w : World.
Variable data : PersistedState.
Hypothesis proceeds : sweep_proceeds now intervalMs w data.

Let body := restore_record host (config (plugin w)) now (threshold_of intervalMs).
Let w' := snd (runRestoreCheck host now intervalMs w).

Lemma sweep_record (sessionId : string) (record record' : FallbackRecord.t) :
  get_session sessionId (sessions data) = Some record ->
  (forall w0, fst (body sessionId record w0) = Ok record') ->
  record_of sessionId w' = Some record'.
Proof.
  intros Hget Hbody. destruct proceeds as (Hen & Hdata & Hold).
  destruct (runRestoreCheck_proceeds_result host now intervalMs w data Hen Hdata Hold)
    as (entries & w1 & w2 & Hsweep & Hw2 & Hfinal & _).
  subst w'. rewrite Hw2. unfold record_of. rewrite Hfinal. cbn [sessions].
  eapply sweep_records_gives; [exact Hbody | exact Hget |]. now rewrite Hsweep.
Qed.

Lemma sweep_calls (ok : Call -> bool) :
  (forall k r,
      In (k, r) (sessions data) -> respects (only_calls ok) (body k r)) ->
  (forall c, is_save_call c = true -> ok c = true) ->
  exists issued, trace w' = (trace w ++ issued)%list /\ forallb ok issued = true.
Proof.
  intros Hall Hsave_ok. destruct proceeds as (Hen & Hdata & Hold).
  destruct (runRestoreCheck_proceeds_result host now intervalMs w data Hen Hdata Hold)
    as (entries & w1 & w2 & Hsweep & Hw2 & _ & Hsave).
  subst w'. rewrite Hw2.
  pose proof (sweep_records_calls host _ now _ ok _ Hall (sweep_start now data w))
    as Hloop.
  rewrite Hsweep in Hloop. cbn [snd] in Hloop.
  apply (only_calls_weaken _ ok) in Hsave; [|exact Hsave_ok].
  destruct Hloop as [_ (i1 & Ht1 & Hf1)]. destruct Hsave as [_ (i2 & Ht2 & Hf2)].
  cbn [trace sweep_start] in Ht1, Ht2.
  exists (i1 ++ i2)%list. split.
  - now rewrite Ht2, Ht1, app_assoc.
  - now rewrite forallb_app, Hf1, Hf2.
Qed.

Lemma sweep_issues (sessionId : string) (record : FallbackRecord.t) (c : Call) :
  get_session sessionId (sessions data) = Some record ->
  (forall w0, In c (trace (snd (body sessionId record w0)))) ->
  In c (trace w').
Proof.
  intros Hget Hbody. destruct proceeds as (Hen & Hdata & Hold).
  destruct (runRestoreCheck_proceeds_result host now intervalMs w data Hen Hdata Hold)
    as (entries & w1 & w2 & Hsweep & Hw2 & _ & [_ (issued & Ht & _)]).
  subst w'. rewrite Hw2, Ht. cbn [trace]. apply in_or_app. left.
  pose proof (sweep_records_issues host _ now _ sessionId record c _ Hbody Hget
                (sweep_start now data w)) as Hin.
  now rewrite Hsweep in Hin.
Qed.

(** The bodies of the other sessions issue no call that names this one. *)
Lemma other_sessions_not_about (sessionId k : string) (r : FallbackRecord.t) :
  k <> sessionId -> respects (only_calls (not_about sessionId)) (body k r).
Proof.
  intros Hk.
  assert (Hne : (k =? sessionId)%string = false) by now apply String.eqb_neq.
  apply (respects_restore_record_ok _ (only_calls_refl _) (only_calls_trans _)
           (not_about sessionId) (only_calls_push _)).
  - reflexivity.
  - unfold not_about. cbn. now rewrite Hne.
  - intros providerID modelID. unfold not_about. cbn. now rewrite Hne.
  - reflexivity.
Qed.

End SweepOutcome.

(** ** The sweep, record by record *)

Lemma distinct_ids_In (w : World) (data : PersistedState) (sessionId : string)
    (record r : FallbackRecord.t) :
  distinct_ids w ->
  stateData (plugin w) = Some data ->
  get_session sessionId (sessions data) = Some record ->
  In (sessionId, r) (sessions data) ->
  r = record.
Proof.
  unfold distinct_ids. intros Hnd Hdata Hget Hin. rewrite Hdata in Hnd.
  eapply get_session_In; eassumption.
Qed.

Lemma save_calls_not_about (sessionId : string) (c : Call) :
  is_save_call c = true -> not_about sessionId c = true.
Proof. now destruct c. Qed.

Lemma save_calls_not_update (sessionId : string) (c : Call) :
  is_save_call c = true -> not_update_for sessionId c = true.
Proof. now destruct c. Qed.

(** X16.  In a sweep that proceeds, a record that is not yet due (no
    exhaustion timestamp, or one younger than the interval) or whose
    original or fallback model does not parse is left exactly as it is, and
    the sweep issues no call that names its session: the session is neither
    read nor updated. *)
Theorem ineligible_record_is_skipped (host : Host) (now intervalMs : Z) (w : World)
    (data : PersistedState) (sessionId : string) (record : FallbackRecord.t) :
  sweep_proceeds now intervalMs w data ->
  distinct_ids w ->
  get_session sessionId (sessions data) = Some record ->
  record_exhaustedAt record = 0
  \/ now - record_exhaustedAt record < threshold_of intervalMs
  \/ record_originalModel (config (plugin w)) record = None
  \/ record_fallbackModel (config (plugin w)) record = None ->
  let w' := snd (runRestoreCheck host now intervalMs w) in
  record_of sessionId w' = Some record
  /\ exists issued,
       trace w' = (trace w ++ issued)%list
       /\ forallb (not_about sessionId) issued = true.
Proof.
  intros Hgo Hnd Hget Hskip. cbv zeta. split.
  - apply (sweep_record host now intervalMs w data Hgo sessionId record record Hget).
    intros w0. now rewrite restore_record_skips.
  - apply (sweep_calls host now intervalMs w data Hgo);
      [|apply save_calls_not_about].
    intros k r Hin. destruct (String.eqb_spec k sessionId) as [->|Hk].
    + destruct Hgo as (_ & Hdata & _).
      rewrite (distinct_ids_In w data sessionId record r Hnd Hdata Hget Hin).
      intros w0. rewrite restore_record_skips by exact Hskip. apply only_calls_refl.
    + now apply other_sessions_not_about.
Qed.

(** X17.  In a sweep that proceeds, a due record whose session the host
    reports on a model that is neither the original nor the fallback one is
    left exactly as it is, and no [client.session.update] is issued for the
    session: a model the user chose in the meantime is not overridden. *)
Theorem third_model_is_left_alone (host : Host) (now intervalMs : Z) (w : World)
    (data : PersistedState) (sessionId : string) (record : FallbackRecord.t)
    (originalModel fallbackModel sessionModel : ModelRef) :
  sweep_proceeds now intervalMs w data ->
  distinct_ids w ->
  get_session sessionId (sessions data) = Some record ->
  eligible (config (plugin w)) now (threshold_of intervalMs) record
    originalModel fallbackModel ->
  session_reads host sessionId (Some sessionModel) ->
  modelsEqual (Some sessionModel) (Some originalModel) = false ->
  modelsEqual (Some sessionModel) (Some fallbackModel) = false ->
  let w' := snd (runRestoreCheck host now intervalMs w) in
  record_of sessionId w' = Some record
  /\ exists issued,
       trace w' = (trace w ++ issued)%list
       /\ forallb (not_update_for sessionId) issued = true.
Proof.
  intros Hgo Hnd Hget Hel Hreads Ho Hf. cbv zeta.
  assert (Hbody : forall w0,
             restore_record host (config (plugin w)) now (threshold_of intervalMs)
               sessionId record w0
             = (Ok record, push (SessionGet sessionId) w0)).
  { intros w0. eapply restore_record_third_model; eassumption. }
  split.
  - apply (sweep_record host now intervalMs w data Hgo sessionId record record Hget).
    intros w0. now rewrite Hbody.
  - apply (sweep_calls host now intervalMs w data Hgo);
      [|apply save_calls_not_update].
    intros k r Hin. destruct (String.eqb_spec k sessionId) as [->|Hk].
    + destruct Hgo as (_ & Hdata & _).
      rewrite (distinct_ids_In w data sessionId record r Hnd Hdata Hget Hin).
      intros w0. rewrite Hbody. apply only_calls_get.
    + now apply restore_record_other.
Qed.

(** X18.  In a sweep that proceeds, take a due record whose session is on
    the recorded fallback model, or whose model cannot be read, and a host
    that accepts the update.  The sweep switches the session to the
    original model and stamps both [lastRestoreAttemptAt] and [restoredAt]
    with the time of the sweep; on that record the loop issues the read,
    the update and then only the toast or its log entry. *)
Theorem sweep_switches_back (host : Host) (now intervalMs : Z) (w : World)
    (data : PersistedState) (sessionId : string) (record : FallbackRecord.t)
    (originalModel fallbackModel : ModelRef) (sessionModel : option ModelRef) :
  sweep_proceeds now intervalMs w data ->
  get_session sessionId (sessions data) = Some record ->
  eligible (config (plugin w)) now (threshold_of intervalMs) record
    originalModel fallbackModel ->
  session_reads host sessionId sessionModel ->
  to_restore sessionModel originalModel fallbackModel ->
  update_returns host sessionId originalModel ->
  let w' := snd (runRestoreCheck host now intervalMs w) in
  let update :=
    SessionUpdate sessionId (providerId originalModel) (modelId originalModel) in
  let record' := with_restoredAt now (with_lastRestoreAttemptAt now record) in
  record_of sessionId w' = Some record'
  /\ In update (trace w')
  /\ (forall w0, exists w1 notices,
        restore_record host (config (plugin w)) now (threshold_of intervalMs)
          sessionId record w0 = (Ok record', w1)
        /\ trace w1 = (trace w0 ++ SessionGet sessionId :: update :: notices)%list
        /\ forallb is_notice notices = true).
Proof.
  intros Hgo Hget Hel Hreads Hto Hupd. cbv zeta.
  pose proof (fun w0 =>
                restore_record_switches host (config (plugin w)) now
                  (threshold_of intervalMs) sessionId record originalModel
                  fallbackModel sessionModel w0 Hel Hreads Hto Hupd) as Hbody.
  split; [|split].
  - apply (sweep_record host now intervalMs w data Hgo sessionId record _ Hget).
    intros w0. destruct (Hbody w0) as (w1 & notices & -> & _). reflexivity.
  - apply (sweep_issues host now intervalMs w data Hgo sessionId record _ Hget).
    intros w0. destruct (Hbody w0) as (w1 & notices & -> & _ & Ht & _).
    cbn [snd]. rewrite Ht. apply in_or_app. right. right. now left.
  - intros w0. destruct (Hbody w0) as (w1 & notices & E & _ & Ht & Hn).
    now exists w1, notices.
Qed.

(** X19.  In a sweep that proceeds, take a due record whose session is on
    the recorded fallback model, or whose model cannot be read, and a host
    on which the update throws.  The sweep does not throw: it stamps
    [lastRestoreAttemptAt] only, leaves [restoredAt] as it was, and logs the
    failure at level [warn]; on that record the loop issues the read, the
    update and the log entry. *)
Theorem failed_restore_is_logged (host : Host) (now intervalMs : Z) (w : World)
    (data : PersistedState) (sessionId : string) (record : FallbackRecord.t)
    (originalModel fallbackModel : ModelRef) (sessionModel : option ModelRef) :
  sweep_proceeds now intervalMs w data ->
  get_session sessionId (sessions data) = Some record ->
  eligible (config (plugin w)) now (threshold_of intervalMs) record
    originalModel fallbackModel ->
  session_reads host sessionId sessionModel ->
  to_restore sessionModel originalModel fallbackModel ->
  update_throws host sessionId originalModel ->
  let w' := snd (runRestoreCheck host now intervalMs w) in
  let update :=
    SessionUpdate sessionId (providerId originalModel) (modelId originalModel) in
  let warning := AppLog "warn" "Failed to restore primary model" in
  fst (runRestoreCheck host now intervalMs w) = Ok tt
  /\ (exists record',
        record_of sessionId w' = Some record'
        /\ record' = with_lastRestoreAttemptAt now record
        /\ FallbackRecord.restoredAt record' = FallbackRecord.restoredAt record)
  /\ In update (trace w')
  /\ In warning (trace w')
  /\ (forall w0,
        trace (snd (restore_record host (config (plugin w)) now
                      (threshold_of intervalMs) sessionId record w0))
        = (trace w0 ++ [SessionGet sessionId; update; warning])%list).
Proof.
  intros Hgo Hget Hel Hreads Hto Hupd. cbv zeta.
  pose proof (fun w0 =>
                restore_record_fails host (config (plugin w)) now
                  (threshold_of intervalMs) sessionId record originalModel
                  fallbackModel sessionModel w0 Hel Hreads Hto Hupd) as Hbody.
  split; [|split; [|split; [|split]]].
  - destruct (returns_runRestoreCheck host now intervalMs w) as [[] H]. exact H.
  - exists (with_lastRestoreAttemptAt now record). split; [|now split].
    apply (sweep_record host now intervalMs w data Hgo sessionId record _ Hget).
    intros w0. now rewrite Hbody.
  - apply (sweep_issues host now intervalMs w data Hgo sessionId record _ Hget).
    intros w0. rewrite Hbody. cbn [snd]. rewrite push_trace3.
    apply in_or_app. right. right. now left.
  - apply (sweep_issues host now intervalMs w data Hgo sessionId record _ Hget).
    intros w0. rewrite Hbody. cbn [snd]. rewrite push_trace3.
    apply in_or_app. right. right. right. now left.
  - intros w0. rewrite Hbody. cbn [snd]. apply push_trace3.
Qed.

Lemma restore_record_no_file_call (host : Host) (config : Config) (now threshold : Z)
    (sessionId : string) (record : FallbackRecord.t) :
  respects (only_calls not_file_call)
           (restore_record host config now threshold sessionId record).
Proof.
  apply (respects_restore_record_ok _ (only_calls_refl _) (only_calls_trans _)
           not_file_call (only_calls_push _)); reflexivity.
Qed.

(** X20.  A sweep that proceeds writes the state file once, after the loop
    over the records and not during it: with a state path, the calls of the
    sweep are those of the loop, none of which touches the file, followed by
    one [Bun.mkdir] and one [Bun.write] of the state the sweep ends with; a
    failure of either is logged as an error and does not undo the change in
    memory. *)
Theorem sweep_saves_once (host : Host) (now intervalMs : Z) (w : World)
    (data : PersistedState) (path : string) :
  sweep_proceeds now intervalMs w data ->
  statePath (plugin w) = Some path ->
  nonempty path = true ->
  let w' := snd (runRestoreCheck host now intervalMs w) in
  let failure := AppLog "error" "Failed to save state" in
  exists data' loop saved,
    stateData (plugin w') = Some data'
    /\ lastCheckAt data' = now
    /\ trace w' = (trace w ++ loop ++ saved)%list
    /\ forallb not_file_call loop = true
    /\ (saved = [BunMkdir path; BunWrite path data']
        \/ saved = [BunMkdir path; failure]
        \/ saved = [BunMkdir path; BunWrite path data'; failure]).
Proof.
  intros (Hen & Hdata & Hold) Hpath Hne. cbv zeta.
  remember (runRestoreCheck host now intervalMs w) as result eqn:E.
  rewrite (runRestoreCheck_proceeds _ _ _ _ _ Hen Hdata Hold) in E.
  unfold bind at 1 in E.
  pose proof (sweep_records_calls host (config (plugin w)) now
                (threshold_of intervalMs) not_file_call (sessions data)
                (fun k r _ => restore_record_no_file_call host _ now _ k r)
                (sweep_start now data w)) as Hloop.
  destruct (returns_sweep_records host (config (plugin w)) now
              (threshold_of intervalMs) (sessions data) (sweep_start now data w))
    as [entries He].
  destruct (sweep_records _ _ _ _ _ _) as [r w1]. cbn [fst snd] in He, Hloop. subst r.
  destruct Hloop as [_ (loop & Ht & Hf)]. cbn [trace sweep_start] in Ht.
  exists {| sessions := entries; lastCheckAt := now |}, loop.
  rewrite Hpath in E. unfold saveState in E. rewrite Hne in E.
  cbv beta iota delta [bind modify safeLog try_catch call ret push] in E.
  cbn [plugin trace] in E. rewrite Ht in E.
  repeat match type of E with
         | context [reply host ?n ?c] => destruct (reply host n c)
         end;
    subst result;
    eexists; cbn [snd fst plugin trace with_stateData stateData lastCheckAt];
    (split; [reflexivity|]); (split; [reflexivity|]);
    rewrite <- ?app_assoc; cbn [app];
    (split; [reflexivity|]); (split; [exact Hf|]); auto.
Qed.

(** ** Exceptions *)

Lemma fallback_checks_throws (host : Host) (event : JsVal) (w : World) :
  fst (fallback_checks host event w) = Exn ->
  fst (hasRequiredProviders host (config (plugin w)) w) = Exn.
Proof.
  destruct (fallback_checks host event w) as [r w1] eqn:Echecks. cbn [fst].
  intros ->. unfold fallback_checks in Echecks.
  pose proof (returns_safeLog host) as Rlog.
  pose proof (returns_getSessionModel host) as Rget.
  pose proof (returns_getLastUserMessage host) as Rlast.
  run_in Echecks; try discriminate;
    repeat match goal with
           | E : safeLog host ?l ?m ?w0 = (Exn, _) |- _ =>
               destruct (Rlog l m w0) as [? Hr]; rewrite E in Hr; discriminate
           | E : getSessionModel host ?s ?w0 = (Exn, _) |- _ =>
               destruct (Rget s w0) as [? Hr]; rewrite E in Hr; discriminate
           | E : getLastUserMessage host ?s ?w0 = (Exn, _) |- _ =>
               destruct (Rlast s w0) as [? Hr]; rewrite E in Hr; discriminate
           | |- fst (Exn, _) = Exn => reflexivity
           end.
Qed.

(** *** The trigger test on the configuration as loaded *)

Lemma typed_config_rules (loaded : JsVal) (config : Config) :
  typed_config loaded = Some config ->
  number_list (prop (prop loaded "fallback") "onStatus")
  = Some (fallback_onStatus config)
  /\ string_list (prop (prop loaded "fallback") "onErrorCodes")
     = Some (fallback_onErrorCodes config)
  /\ string_list (prop (prop loaded "fallback") "onMessageMatches")
     = Some (fallback_onMessageMatches config).
Proof.
  unfold typed_config. intros H.
  destruct (prop loaded "primaryModel"); try discriminate.
  destruct (prop loaded "fallbackModel"); try discriminate.
  destruct (prop (prop loaded "restore") "intervalHours"); try discriminate.
  destruct (string_list (prop (prop loaded "licensing") "requireProviders"));
    try discriminate.
  destruct (number_list _); try discriminate.
  destruct (string_list (prop (prop loaded "fallback") "onErrorCodes"));
    try discriminate.
  destruct (string_list (prop (prop loaded "fallback") "onMessageMatches"));
    try discriminate.
  now injection H as <-.
Qed.

Lemma some_equal_strings (normalized : string) (values : list JsVal)
    (l : list string) :
  strings_of values = Some l ->
  Raw.some_equal normalized values
  = Some (existsb (fun value => (toLowerCase value =? normalized)%string) l).
Proof.
  revert l. induction values as [|v rest IH]; intros l H.
  - now injection H as <-.
  - destruct v; try discriminate. cbn [strings_of] in H.
    destruct (strings_of rest) as [l'|]; [|discriminate]. injection H as <-.
    cbn [Raw.some_equal existsb]. rewrite (IH l' eq_refl).
    now destruct (toLowerCase s =? normalized)%string.
Qed.

Lemma some_included_strings (text : string) (values : list JsVal) (l : list string) :
  strings_of values = Some l ->
  Raw.some_included text values
  = Some (existsb (fun value => includes text (toLowerCase value)) l).
Proof.
  revert l. induction values as [|v rest IH]; intros l H.
  - now injection H as <-.
  - destruct v; try discriminate. cbn [strings_of] in H.
    destruct (strings_of rest) as [l'|]; [|discriminate]. injection H as <-.
    cbn [Raw.some_included existsb]. rewrite (IH l' eq_refl).
    now destruct (includes text (toLowerCase s)).
Qed.

Lemma status_some_numbers (status : option Z) (values : list JsVal) (l : list Z) :
  numbers_of values = Some l ->
  existsb (fun value => match ToNumber value, status with
                        | Some v, Some n => v =? n
                        | _, _ => false
                        end) values
  = existsb (fun value => match status with
                          | Some n => value =? n
                          | None => false
                          end) l.
Proof.
  revert l. induction values as [|v rest IH]; intros l H.
  - now injection H as <-.
  - destruct v; try discriminate. cbn [numbers_of] in H.
    destruct (numbers_of rest) as [l'|]; [|discriminate]. injection H as <-.
    cbn [existsb ToNumber]. rewrite (IH l' eq_refl). now destruct status.
Qed.

(** On a configuration that has a typed form [isCreditExhausted] does not
    throw, and its result is the one of the typed form. *)
Lemma isCreditExhausted_typed (event loaded : JsVal) (config : Config) :
  typed_config loaded = Some config ->
  Raw.isCreditExhausted event loaded = Some (isCreditExhausted event config).
Proof.
  intros H. destruct (typed_config_rules _ _ H) as (Hs & Hc & Hm).
  unfold Raw.isCreditExhausted, isCreditExhausted, Raw.some_of. cbv zeta.
  unfold number_list in Hs. unfold string_list in Hc, Hm.
  destruct (prop (prop loaded "fallback") "onStatus"); try discriminate.
  destruct (prop (prop loaded "fallback") "onErrorCodes"); try discriminate.
  destruct (prop (prop loaded "fallback") "onMessageMatches"); try discriminate.
  rewrite (status_some_numbers _ _ _ Hs).
  assert (Ecode : match extractCode event with
                  | Some c =>
                      if nonempty c then Raw.some_equal (toLowerCase c) items0
                      else Some false
                  | None => Some false
                  end
                  = Some match extractCode event with
                         | Some c =>
                             nonempty c &&
                             existsb (fun value =>
                                        (toLowerCase value =? toLowerCase c)%string)
                                     (fallback_onErrorCodes config)
                         | None => false
                         end).
  { destruct (extractCode event) as [c|]; [|reflexivity].
    destruct (nonempty c); [|reflexivity]. now apply some_equal_strings. }
  rewrite Ecode.
  destruct (nonempty (extractText event)); [|reflexivity].
  now rewrite (some_included_strings _ _ _ Hm).
Qed.

(** A member of [onErrorCodes] that is not a string makes the test throw
    for an event that carries a code, unless a member before it matches. *)
Lemma isCreditExhausted_throws (event intervalHours member fragments : JsVal)
    (rest : list JsVal) (code : string) :
  extractCode event = Some code ->
  (forall s, member <> JStr s) ->
  Raw.isCreditExhausted event
    (loaded_config intervalHours (JArr (member :: rest)) fragments) = None.
Proof.
  intros Hcode Hmember. unfold Raw.isCreditExhausted. cbv zeta. rewrite Hcode.
  assert (Hne : nonempty code = true).
  { apply first_candidate_some in Hcode as (value & _ & Hpick).
    exact (nonblank_trim _ _ Hpick). }
  rewrite Hne. cbn.
  destruct member; try reflexivity. now destruct (Hmember s).
Qed.

(** X21.  On a configuration and a state in typed form (the lists of codes
    and message fragments hold strings, the statuses and the interval are
    numbers, the sessions are an object of records) the trigger test does
    not throw, and the handler can end with an exception in two ways only:
    the licensing check throws on the provider list, before anything else
    is called, or the checks pass, the offer is accepted, and the prompt the
    handler sends throws; the prompt is then the last call of the handler.
    Every other failure of the host is caught.  Outside the typed form there
    are other ways: a member of [onErrorCodes] that is not a string makes
    the trigger test throw for an event that carries a code. *)
Theorem handler_exception_sources (host : Host) (now : Z) (event : JsVal) (w : World)
    (loadedConfig loadedState : JsVal) :
  loaded_as loadedConfig loadedState (plugin w) ->
  Raw.isCreditExhausted event loadedConfig
  = Some (isCreditExhausted event (config (plugin w)))
  /\ (fst (event_handler host now event w) = Exn ->
      fst (hasRequiredProviders host (config (plugin w)) w) = Exn
      \/ exists p before,
           fst (fallback_checks host event w) = Ok (Some p)
           /\ trace (snd (event_handler host now event w))
              = (before ++ [prompt_of p])%list
           /\ reply host (length before) (prompt_of p) = Thrown)
  /\ (forall intervalHours member rest fragments code,
        extractCode event = Some code ->
        (forall s, member <> JStr s) ->
        Raw.isCreditExhausted event
          (loaded_config intervalHours (JArr (member :: rest)) fragments) = None).
Proof.
  intros [Hconfig _].
  split; [now apply isCreditExhausted_typed|].
  split; [|intros; now apply isCreditExhausted_throws with (code := code)].
  intros Hexn.
  destruct (fallback_checks host event w) as [[[p|]|] w1] eqn:Echecks.
  - right. exists p. unfold event_handler, bind in Hexn |- *.
    rewrite Echecks in Hexn |- *. cbn [fst].
    destruct (confirmFallback_returns host (config (plugin w1)) w1) as [[] Hb].
    + destruct (offer_fallback_reaches_prompt host now p w1 Hb) as (w' & _ & Hw').
      rewrite Hw' in Hexn |- *. exists (trace w'). split; [reflexivity|].
      unfold bind, call in Hexn |- *.
      destruct (reply host (length (trace w')) (prompt_of p)); [|now split].
      exfalso. revert Hexn.
      match goal with
      | |- fst (?m ?w) = Exn -> _ =>
          assert (Hr : returns m)
            by (pose proof (returns_safeLog host); returns_auto);
          destruct (Hr w) as [[] Hw]; rewrite Hw; discriminate
      end.
    + exfalso. revert Hexn. unfold offer_fallback.
      unfold bind at 1. unfold get_plugin at 1. unfold bind at 1.
      destruct (confirmFallback host (config (plugin w1)) w1) as [r w2].
      cbn [fst] in Hb. subst r. cbn [negb].
      unfold bind, modify.
      match goal with
      | |- context [safeLog host ?l ?m ?w3] =>
          destruct (returns_safeLog host l m w3) as [[] Hlog]; rewrite Hlog
      end. discriminate.
  - exfalso. unfold event_handler, bind in Hexn. now rewrite Echecks in Hexn.
  - left. apply (fallback_checks_throws host event w). now rewrite Echecks.
Qed.

(** X22.  The sweep never throws, whatever the host does and whatever the
    state holds, and neither does the run [scheduleRestoreCheck] starts:
    the promises the plugin leaves unawaited are never rejected. *)
Theorem sweep_never_throws (host : Host) (now : Z) (w : World) :
  (forall intervalMs, fst (runRestoreCheck host now intervalMs w) = Ok tt)
  /\ fst (scheduleRestoreCheck host now w) = Ok tt.
Proof.
  split.
  - intros intervalMs.
    destruct (returns_runRestoreCheck host now intervalMs w) as [[] H]. exact H.
  - unfold scheduleRestoreCheck, bind, get_plugin.
    destruct (returns_runRestoreCheck host now (intervalMs_of (config (plugin w))) w)
      as [[] H]. exact H.
Qed.

(** ** The configuration file *)

Lemma lookup_set_field (k k' : string) (v : JsVal) (l : list (string * JsVal)) :
  lookup k (Startup.set_field k' v l) = if (k =? k')%string then v else lookup k l.
Proof.
  induction l as [|[k0 v0] rest IH]; cbn [Startup.set_field lookup]; [reflexivity|].
  destruct (String.eqb_spec k0 k') as [->|Hne]; cbn [lookup].
  - now destruct (k =? k')%string.
  - destruct (String.eqb_spec k k0) as [->|Hk]; [|exact IH].
    destruct (String.eqb_spec k0 k'); [congruence | reflexivity].
Qed.

Lemma lookup_not_key (k : string) (l : list (string * JsVal)) :
  has_key k l = false -> lookup k l = JUndefined.
Proof.
  unfold has_key. induction l as [|[k0 v0] rest IH]; cbn; [reflexivity|].
  destruct (k =? k0)%string; [discriminate | exact IH].
Qed.

(** A spread of an object: its members win over those of the target. *)
Lemma lookup_fold (source : list (string * JsVal)) :
  NoDup (map fst source) ->
  forall target k,
    lookup k (fold_left (fun acc kv => Startup.set_field (fst kv) (snd kv) acc)
                source target)
    = if has_key k source then lookup k source else lookup k target.
Proof.
  induction source as [|[k0 v0] rest IH]; intros Hnd target k; cbn [fold_left];
    [reflexivity|].
  cbn [map fst] in Hnd. inversion Hnd as [|? ? Hnotin Hnd']; subst.
  rewrite (IH Hnd'), lookup_set_field. unfold has_key. cbn [map fst snd existsb lookup].
  destruct (String.eqb_spec k k0) as [->|Hk]; cbn [orb]; [|reflexivity].
  destruct (existsb (String.eqb k0) (map fst rest)) eqn:E; [|reflexivity].
  exfalso. apply existsb_exists in E. destruct E as (x & Hin & Hx).
  apply String.eqb_eq in Hx. now subst x.
Qed.

Lemma lookup_spread (target fields : list (string * JsVal)) (k : string) :
  NoDup (map fst fields) ->
  lookup k (Startup.spread target (JObj fields))
  = if has_key k fields then lookup k fields else lookup k target.
Proof. intros Hnd. unfold Startup.spread. cbn [Startup.own_fields]. now apply lookup_fold. Qed.

Lemma is_array_normalizeArray (value fallback : JsVal) :
  is_array (Startup.normalizeArray value fallback) = true.
Proof.
  unfold Startup.normalizeArray. destruct (is_array value) eqn:E; [exact E|].
  now destruct (is_array fallback) eqn:E'.
Qed.

Lemma lookup_normalize_list (name key k : string) (section : list (string * JsVal)) :
  lookup k (Startup.normalize_list name key section)
  = if (k =? key)%string
    then Startup.normalizeArray (lookup key section)
           (prop (prop Startup.DEFAULT_CONFIG name) key)
    else lookup k section.
Proof. unfold Startup.normalize_list. apply lookup_set_field. Qed.

(** The members of the result of [normalizeConfig]. *)
Lemma normalizeConfig_shape (raw merged : JsVal) :
  Startup.normalizeConfig raw = Some merged ->
  prop merged "licensing"
  = JObj (Startup.normalize_list "licensing" "requireProviders"
            (Startup.merged_section raw "licensing"))
  /\ prop merged "restore" = JObj (Startup.merged_section raw "restore")
  /\ prop merged "fallback"
     = JObj (Startup.normalize_list "fallback" "onMessageMatches"
               (Startup.normalize_list "fallback" "onErrorCodes"
                  (Startup.normalize_list "fallback" "onStatus"
                     (Startup.merged_section raw "fallback"))))
  /\ prop merged "notifications" = JObj (Startup.merged_section raw "notifications")
  /\ forall k,
       ~ In k section_names ->
       prop merged k
       = lookup k (Startup.spread (Startup.spread [] Startup.DEFAULT_CONFIG) raw).
Proof.
  unfold Startup.normalizeConfig. destruct (nullish raw); [discriminate|].
  cbv zeta. intros [= <-]. cbn [prop].
  split; [|split; [|split; [|split]]];
    try (repeat (rewrite lookup_set_field;
                 match goal with
                 | |- context [(?a =? ?b)%string] =>
                     first [ change (a =? b)%string with true
                           | change (a =? b)%string with false ]
                 end; cbv iota; cbn [Startup.own_fields]);
         reflexivity).
  intros k Hk. rewrite !lookup_set_field.
  repeat match goal with
         | |- context [(k =? ?b)%string] =>
             destruct (String.eqb_spec k b) as [->|_];
             [exfalso; apply Hk; cbn; tauto|]
         end.
  reflexivity.
Qed.

Ltac literal_keys :=
  repeat (rewrite lookup_normalize_list;
          match goal with
          | |- context [(?a =? ?b)%string] =>
              first [ change (a =? b)%string with true
                    | change (a =? b)%string with false ]
          end; cbv iota).

(** X23.  [normalizeConfig] throws exactly on [null] and [undefined]; on
    every other value, whatever the file holds for them, the four list
    settings of the result ([licensing.requireProviders], [fallback.onStatus],
    [fallback.onErrorCodes], [fallback.onMessageMatches]) are arrays. *)
Theorem normalized_lists_are_arrays (raw : JsVal) :
  (Startup.normalizeConfig raw = None <-> nullish raw = true)
  /\ forall merged name key,
       Startup.normalizeConfig raw = Some merged ->
       In (name, key) list_settings ->
       is_array (prop (prop merged name) key) = true.
Proof.
  split.
  - unfold Startup.normalizeConfig. destruct (nullish raw); split; congruence.
  - intros merged name key Hn Hin.
    destruct (normalizeConfig_shape raw merged Hn) as (Hl & _ & Hf & _).
    cbn in Hin.
    destruct Hin as [[= <- <-]|[[= <- <-]|[[= <- <-]|[[= <- <-]|[]]]]];
      rewrite ?Hl, ?Hf; cbn [prop]; literal_keys; apply is_array_normalizeArray.
Qed.

Lemma spread_default_section (name : string) :
  In name section_names ->
  Startup.spread [] (prop Startup.DEFAULT_CONFIG name)
  = Startup.own_fields (prop Startup.DEFAULT_CONFIG name).
Proof. intros [<-|[<-|[<-|[<-|[]]]]]; reflexivity. Qed.

(** A section of the file that is an object, merged over the defaults. *)
Lemma lookup_merged_section (raw : JsVal) (name k : string)
    (fields : list (string * JsVal)) :
  In name section_names ->
  prop raw name = JObj fields ->
  NoDup (map fst fields) ->
  lookup k (Startup.merged_section raw name)
  = if has_key k fields then lookup k fields
    else prop (prop Startup.DEFAULT_CONFIG name) k.
Proof.
  intros Hname Hraw Hnd. unfold Startup.merged_section. rewrite Hraw.
  cbn [js_or truthy]. rewrite (lookup_spread _ _ _ Hnd).
  destruct (has_key k fields); [reflexivity|].
  rewrite (spread_default_section name Hname).
  destruct Hname as [<-|[<-|[<-|[<-|[]]]]]; reflexivity.
Qed.

(** X24.  A list setting is taken whole from the file or whole from the
    defaults: when the section of the file is an object, the setting is the
    value the file gives if that value is an array, and the default list in
    every other case (no member, or a member that is not an array, such as a
    single number or string).  The two lists are never merged. *)
Theorem list_setting_is_given_or_default (raw merged : JsVal) (name key : string)
    (fields : list (string * JsVal)) :
  Startup.normalizeConfig raw = Some merged ->
  In (name, key) list_settings ->
  prop raw name = JObj fields ->
  NoDup (map fst fields) ->
  prop (prop merged name) key
  = if is_array (lookup key fields) then lookup key fields
    else prop (prop Startup.DEFAULT_CONFIG name) key.
Proof.
  intros Hn Hin Hraw Hnd.
  destruct (normalizeConfig_shape raw merged Hn) as (Hl & _ & Hf & _).
  assert (Hsection : In name section_names).
  { cbn in Hin |- *. destruct Hin as [[= <- <-]|[[= <- <-]|[[= <- <-]|[[= <- <-]|[]]]]];
      tauto. }
  pose proof (lookup_merged_section raw name key fields Hsection Hraw Hnd) as Hlook.
  assert (Hgoal :
            Startup.normalizeArray (lookup key (Startup.merged_section raw name))
              (prop (prop Startup.DEFAULT_CONFIG name) key)
            = if is_array (lookup key fields) then lookup key fields
              else prop (prop Startup.DEFAULT_CONFIG name) key).
  { rewrite Hlook. unfold Startup.normalizeArray.
    destruct (has_key key fields) eqn:Hk.
    - destruct (is_array (lookup key fields)); [reflexivity|].
      cbn in Hin.
      destruct Hin as [[= <- <-]|[[= <- <-]|[[= <- <-]|[[= <- <-]|[]]]]]; reflexivity.
    - rewrite (lookup_not_key _ _ Hk). cbn [is_array].
      cbn in Hin.
      destruct Hin as [[= <- <-]|[[= <- <-]|[[= <- <-]|[[= <- <-]|[]]]]]; reflexivity. }
  cbn in Hin.
  destruct Hin as [[= <- <-]|[[= <- <-]|[[= <- <-]|[[= <- <-]|[]]]]];
    rewrite ?Hl, ?Hf; cbn [prop]; literal_keys; exact Hgoal.
Qed.

(** X25.  Every other setting is merged key by key, one level deep: inside
    a section that the file gives as an object, a key of the file wins and a
    key the file leaves out keeps its default; a section the file leaves out
    (or gives as a falsy value) is the default section; at the top level a
    key of the file wins, keys unknown to the plugin included, and a missing
    one keeps its default. *)
Theorem settings_merge_with_defaults (raw merged : JsVal) :
  Startup.normalizeConfig raw = Some merged ->
  (forall name k fields,
      In name section_names ->
      ~ In (name, k) list_settings ->
      prop raw name = JObj fields ->
      NoDup (map fst fields) ->
      prop (prop merged name) k
      = if has_key k fields then lookup k fields
        else prop (prop Startup.DEFAULT_CONFIG name) k)
  /\ (forall name,
        In name section_names ->
        truthy (prop raw name) = false ->
        prop merged name = prop Startup.DEFAULT_CONFIG name)
  /\ (forall k fields,
        ~ In k section_names ->
        raw = JObj fields ->
        NoDup (map fst fields) ->
        prop merged k
        = if has_key k fields then lookup k fields
          else prop Startup.DEFAULT_CONFIG k).
Proof.
  intros Hn.
  destruct (normalizeConfig_shape raw merged Hn) as (Hl & Hr & Hf & Hno & Htop).
  split; [|split].
  - intros name k fields Hname Hnot Hraw Hnd.
    rewrite <- (lookup_merged_section raw name k fields Hname Hraw Hnd).
    assert (Hkey : forall key, In (name, key) list_settings -> (k =? key)%string = false).
    { intros key Hin. apply String.eqb_neq. intros ->. now apply Hnot. }
    destruct Hname as [<-|[<-|[<-|[<-|[]]]]];
      rewrite ?Hl, ?Hr, ?Hf, ?Hno; cbn [prop];
      rewrite ?lookup_normalize_list, ?Hkey by (cbn; tauto); reflexivity.
  - intros name Hname Hfalsy.
    assert (Hsection : Startup.merged_section raw name
                       = Startup.own_fields (prop Startup.DEFAULT_CONFIG name)).
    { unfold Startup.merged_section, js_or. rewrite Hfalsy.
      now rewrite (spread_default_section name Hname). }
    destruct Hname as [<-|[<-|[<-|[<-|[]]]]];
      rewrite ?Hl, ?Hr, ?Hf, ?Hno, Hsection; reflexivity.
  - intros k fields Hk -> Hnd. rewrite (Htop k Hk), (lookup_spread _ _ _ Hnd).
    reflexivity.
Qed.

(** ** Loading the configuration and the state *)

Lemma safeLog_run (host : Host) (level message : string) (w : World) :
  safeLog host level message w = (Ok tt, push (AppLog level message) w).
Proof.
  unfold safeLog, try_catch, bind, call, ret.
  now destruct (reply host (length (trace w)) (AppLog level message)).
Qed.

Lemma loadConfig_passes (fs : Startup.Files) (host : Host)
    (before rest : list string) (w : World) :
  Forall (passed_over fs) before ->
  Startup.loadConfig fs host (before ++ rest) w = Startup.loadConfig fs host rest w.
Proof.
  induction 1 as [|p before Hp _ IH]; [reflexivity|].
  cbn [app Startup.loadConfig].
  destruct (nonempty p) eqn:Hne; cbn [negb]; [|exact IH].
  destruct Hp as [Hp|Hp]; [congruence|].
  rewrite Hp. unfold bind at 1. unfold try_catch, ret. exact IH.
Qed.

(** X26.  [loadConfig] never throws, and the first path that is not empty
    and at which a file exists decides alone: its normalised content is the
    configuration; if it cannot be read or parsed, or parses to [null], the
    failure is logged and the plugin is disabled with that path.  The paths
    after it are not consulted in either case.  When no path has a file, the
    plugin is disabled with no path and nothing is logged. *)
Theorem first_config_file_decides (fs : Startup.Files) (host : Host) (w : World) :
  let failure := AppLog "error" "Failed to load config" in
  let off p := {| Startup.config := Startup.disabled; Startup.path := p |} in
  (forall paths,
      Forall (passed_over fs) paths ->
      Startup.loadConfig fs host paths w = (Ok (off None), w))
  /\ (forall before p after,
        Forall (passed_over fs) before ->
        nonempty p = true ->
        let result := Startup.loadConfig fs host (before ++ p :: after) w in
        match fs p with
        | Startup.Absent =>
            result = Startup.loadConfig fs host after w
        | Startup.Broken => result = (Ok (off (Some p)), push failure w)
        | Startup.Parsed raw =>
            match Startup.normalizeConfig raw with
            | Some normalized =>
                result
                = (Ok {| Startup.config := normalized; Startup.path := Some p |}, w)
            | None => result = (Ok (off (Some p)), push failure w)
            end
        end).
Proof.
  cbv zeta. split.
  - intros paths Hall. rewrite <- (app_nil_r paths).
    now rewrite (loadConfig_passes fs host paths [] w Hall).
  - intros before p after Hall Hne.
    rewrite (loadConfig_passes fs host before (p :: after) w Hall).
    cbn [Startup.loadConfig]. rewrite Hne. cbn [negb].
    unfold bind at 1. unfold try_catch at 1.
    destruct (fs p) as [| |raw].
    + reflexivity.
    + cbv beta iota delta [bind try_catch throw ret]. now rewrite safeLog_run.
    + destruct (Startup.normalizeConfig raw) as [normalized|].
      * reflexivity.
      * cbv beta iota delta [bind try_catch throw ret]. now rewrite safeLog_run.
Qed.

(** X27.  [loadState] never throws and always returns a state whose
    [sessions] is truthy.  Without a path or a file the state is the empty
    one and nothing is logged; a file that cannot be read or parsed, or that
    parses to [null], gives the empty state and one error entry in the log;
    any other content is merged over the empty state: its [sessions] if
    truthy, and for an object every other key of the file, a missing
    [lastCheckAt] being [0]. *)
Theorem loadState_result (fs : Startup.Files) (host : Host)
    (statePath : option string) (w : World) :
  let failure := AppLog "error" "Failed to load state" in
  exists state w',
    Startup.loadState fs host statePath w = (Ok state, w')
    /\ truthy (prop state "sessions") = true
    /\ match statePath with
       | None => state = Startup.empty /\ w' = w
       | Some p =>
           if nonempty p then
             match fs p with
             | Startup.Absent => state = Startup.empty /\ w' = w
             | Startup.Broken => state = Startup.empty /\ w' = push failure w
             | Startup.Parsed raw =>
                 if nullish raw then state = Startup.empty /\ w' = push failure w
                 else
                   w' = w
                   /\ prop state "sessions" = js_or (prop raw "sessions") (JObj [])
                   /\ forall fields k,
                        raw = JObj fields ->
                        NoDup (map fst fields) ->
                        k <> "sessions" ->
                        prop state k
                        = if has_key k fields then lookup k fields
                          else prop Startup.empty k
             end
           else state = Startup.empty /\ w' = w
       end.
Proof.
  cbv zeta. unfold Startup.loadState.
  destruct statePath as [p|]; [|now exists Startup.empty, w].
  destruct (nonempty p); cbn [negb]; [|now exists Startup.empty, w].
  unfold try_catch. destruct (fs p) as [| |raw].
  - now exists Startup.empty, w.
  - cbv beta iota delta [bind try_catch throw ret]. rewrite safeLog_run. now eexists _, _.
  - cbv zeta. destruct (nullish raw) eqn:Hnull.
    + cbv beta iota delta [bind try_catch throw ret]. rewrite safeLog_run. now eexists _, _.
    + unfold ret. eexists _, _. split; [reflexivity|].
      cbn [prop]. rewrite lookup_set_field. cbn [String.eqb].
      change ("sessions" =? "sessions")%string with true. cbv iota.
      split; [|split; [reflexivity|split; [reflexivity|]]].
      * unfold js_or. now destruct (truthy (prop raw "sessions")) eqn:E.
      * intros fields k -> Hnd Hk. rewrite lookup_set_field.
        destruct (String.eqb_spec k "sessions"); [contradiction|].
        now rewrite (lookup_spread _ _ _ Hnd).
Qed.

(** X28.  The file named by [OPENCODE_CREDIT_SWITCHER_CONFIG] comes before
    the project and the home configuration: when the variable is set and a
    file exists there, [loadConfig] on the paths of [getConfigPaths] ends
    with that path, whatever the other files hold, and the configuration is
    the normalised content of that file or, if it cannot be loaded, the
    disabled one. *)
Theorem env_config_wins (fs : Startup.Files) (host : Host) (env : Startup.Env)
    (directory worktree : option string) (p : string) (w : World) :
  Startup.OPENCODE_CREDIT_SWITCHER_CONFIG env = Some p ->
  nonempty p = true ->
  fs p <> Startup.Absent ->
  exists loaded w',
    Startup.loadConfig fs host (Startup.getConfigPaths env directory worktree) w
    = (Ok loaded, w')
    /\ Startup.path loaded = Some p
    /\ Startup.config loaded
       = match fs p with
         | Startup.Parsed raw =>
             match Startup.normalizeConfig raw with
             | Some normalized => normalized
             | None => Startup.disabled
             end
         | _ => Startup.disabled
         end.
Proof.
  intros Henv Hne Hfile. unfold Startup.getConfigPaths. rewrite Henv.
  cbn [Startup.given Startup.text_of]. rewrite Hne. cbn [app Startup.loadConfig].
  rewrite Hne. cbn [negb]. unfold bind at 1. unfold try_catch at 1.
  destruct (fs p) as [| |raw]; [contradiction | |].
  - cbv beta iota delta [bind try_catch throw ret]. rewrite safeLog_run. now eexists _, _.
  - destruct (Startup.normalizeConfig raw) as [normalized|].
    + now eexists _, _.
    + cbv beta iota delta [bind try_catch throw ret]. rewrite safeLog_run. now eexists _, _.
Qed.

(** ** The further properties on concrete runs *)

Lemma parseModel_first_slash_witness :
  includes "llama.cpp" "/" = false
  /\ parseModel (JStr "llama.cpp/qwen3/coder")
     = Some {| providerId := JStr "llama.cpp"; modelId := JStr "qwen3/coder" |}.
Proof.
  split; [reflexivity|].
  apply (parseModel_first_slash "llama.cpp" "qwen3/coder"). reflexivity.
Defined.

Lemma modelToString_after_parseModel_witness :
  parseModel (JStr "p1/m1") = Some {| providerId := JStr "p1"; modelId := JStr "m1" |}
  /\ modelToString (Some {| providerId := JStr "p1"; modelId := JStr "m1" |})
     = Some "p1/m1".
Proof.
  split; [reflexivity|].
  apply (modelToString_after_parseModel "p1/m1"
           {| providerId := JStr "p1"; modelId := JStr "m1" |}).
  reflexivity.
Defined.

Lemma modelsEqual_parsed_witness :
  let a := {| providerId := JStr "p1"; modelId := JStr "m1" |} in
  let b := {| providerId := JStr "P1"; modelId := JStr "m1" |} in
  parseModel (JStr "p1/m1") = Some a
  /\ parseModel (JStr "P1/m1") = Some b
  /\ (modelsEqual (Some a) (Some b) = true <-> "p1/m1" = "P1/m1").
Proof.
  cbv zeta. split; [reflexivity|]. split; [reflexivity|].
  apply (modelsEqual_parsed "p1/m1" "P1/m1"); reflexivity.
Defined.

Lemma extracted_ids_are_trimmed_witness :
  let event := JObj [("sessionId", JStr "  s1 ")] in
  extractSessionId event = Some "s1"
  /\ trim "s1" = "s1"
  /\ "s1" <> "".
Proof.
  cbv zeta. split; [reflexivity|].
  apply (extracted_ids_are_trimmed (JObj [("sessionId", JStr "  s1 ")]) "s1").
  left. reflexivity.
Defined.

Lemma replayed_parts_are_not_empty_witness :
  let host := host_on "p1/m1" in
  let w := scenario_world p1_p2_config [] 0 in
  fst (fallback_checks host scenario_event w) = Ok (Some scenario_plan)
  /\ is_user_entry (plan_lastUserMessage scenario_plan) = true
  /\ exists part parts,
       prompt_of scenario_plan
       = SessionPrompt "s1" (JStr "p2") (JStr "m2") (JArr (part :: parts)).
Proof.
  cbv zeta. split; [reflexivity|].
  apply (replayed_parts_are_not_empty (host_on "p1/m1") scenario_event
           (scenario_world p1_p2_config [] 0) scenario_plan).
  reflexivity.
Defined.

Lemma null_provider_escapes_witness :
  let providers := [JObj [("id", JStr "p1")]; JNull] in
  let host :=
    scenario_host (JStr "p1/m1") providers (Returned JUndefined) (Returned JUndefined) in
  let w := scenario_world (scenario_config "p1/m1" "p2/m2" ["p1"] false) [] 0 in
  isCreditExhausted scenario_event (config (plugin w)) = true
  /\ lists_providers host providers
  /\ In JNull providers
  /\ event_handler host 1000 scenario_event w = (Exn, push ConfigProviders w).
Proof.
  cbv zeta. split; [reflexivity|].
  assert (Hlists : lists_providers
                     (scenario_host (JStr "p1/m1") [JObj [("id", JStr "p1")]; JNull]
                        (Returned JUndefined) (Returned JUndefined))
                     [JObj [("id", JStr "p1")]; JNull]).
  { intros n. eexists. split; reflexivity. }
  split; [exact Hlists|]. split; [right; left; reflexivity|].
  destruct (null_provider_escapes
              (scenario_host (JStr "p1/m1") [JObj [("id", JStr "p1")]; JNull]
                 (Returned JUndefined) (Returned JUndefined))
              1000 scenario_event
              (scenario_world (scenario_config "p1/m1" "p2/m2" ["p1"] false) [] 0)
              "s1" [JObj [("id", JStr "p1")]; JNull] JNull) as [_ H];
    [reflexivity | reflexivity | reflexivity | reflexivity | reflexivity
    | discriminate | exact Hlists | right; left; reflexivity | reflexivity
    | exact H].
Defined.

Lemma handler_exception_sources_witness :
  let host := scenario_host (JStr "p1/m1") [] Thrown (Returned JUndefined) in
  let w := scenario_world p1_p2_config [] 0 in
  let loadedConfig := loaded_config (JNum 24) (JArr []) (JArr []) in
  let coded :=
    JObj [("type", JStr "session.error");
          ("properties",
           JObj [("sessionId", JStr "s1");
                 ("error", JObj [("code", JStr "QUOTA_EXCEEDED")])])] in
  loaded_as loadedConfig Startup.empty (plugin w)
  /\ fst (event_handler host 1000 scenario_event w) = Exn
  /\ Raw.isCreditExhausted scenario_event loadedConfig = Some true
  /\ (fst (hasRequiredProviders host (config (plugin w)) w) = Exn
      \/ exists p before,
           fst (fallback_checks host scenario_event w) = Ok (Some p)
           /\ trace (snd (event_handler host 1000 scenario_event w))
              = (before ++ [prompt_of p])%list
           /\ reply host (length before) (prompt_of p) = Thrown)
  /\ extractCode coded = Some "QUOTA_EXCEEDED"
  /\ Raw.isCreditExhausted coded
       (loaded_config (JNum 24) (JArr [JNum 402; JStr "QUOTA_EXCEEDED"]) (JArr []))
     = None.
Proof.
  cbv zeta.
  assert (Hloaded : loaded_as (loaded_config (JNum 24) (JArr []) (JArr []))
                      Startup.empty (plugin (scenario_world p1_p2_config [] 0)))
    by (split; reflexivity).
  split; [exact Hloaded|]. split; [reflexivity|].
  destruct (handler_exception_sources
              (scenario_host (JStr "p1/m1") [] Thrown (Returned JUndefined))
              1000 scenario_event (scenario_world p1_p2_config [] 0)
              (loaded_config (JNum 24) (JArr []) (JArr [])) Startup.empty Hloaded)
    as (Htest & Hways & _).
  split; [exact Htest|]. split; [apply Hways; reflexivity|].
  split; [reflexivity|].
  destruct (handler_exception_sources
              (scenario_host (JStr "p1/m1") [] Thrown (Returned JUndefined))
              1000
              (JObj [("type", JStr "session.error");
                     ("properties",
                      JObj [("sessionId", JStr "s1");
                            ("error", JObj [("code", JStr "QUOTA_EXCEEDED")])])])
              (scenario_world p1_p2_config [] 0)
              (loaded_config (JNum 24) (JArr []) (JArr [])) Startup.empty Hloaded)
    as (_ & _ & Hthrows).
  apply (Hthrows (JNum 24) (JNum 402) [JStr "QUOTA_EXCEEDED"] (JArr [])
           "QUOTA_EXCEEDED"); [reflexivity | discriminate].
Defined.


Lemma declined_offer_changes_nothing_witness :
  let host :=
    scenario_host (JStr "p1/m1") [] (Returned JUndefined) (Returned (JBool false)) in
  let w := scenario_world (scenario_config "p1/m1" "p2/m2" [] true) [] 0 in
  let w' := snd (offer_fallback host 1000 scenario_plan w) in
  confirm_answer (JBool false) = Some false
  /\ fst (offer_fallback host 1000 scenario_plan w) = Ok tt
  /\ plugin w' = with_attempted "s1" (plugin w)
  /\ stateData (plugin w') = stateData (plugin w)
  /\ trace w' = [TuiShowConfirm; AppLog "info" "User declined fallback retry"].
Proof.
  cbv zeta. split; [reflexivity|].
  apply (declined_offer_changes_nothing
           (scenario_host (JStr "p1/m1") [] (Returned JUndefined)
              (Returned (JBool false)))
           1000 scenario_plan
           (scenario_world (scenario_config "p1/m1" "p2/m2" [] true) [] 0)
           (JBool false)); reflexivity.
Defined.

Lemma session_ids_stay_distinct_witness :
  let w := scenario_world p1_p2_config [] 0 in
  distinct_ids w
  /\ distinct_ids
       (run [Dispatch (host_on "p1/m1") 1000 scenario_event;
             Tick (host_on "p2/m2") 100000000 DAY_MS;
             Dispatch (host_on "p1/m1") 100001000 scenario_event] w).
Proof.
  cbv zeta.
  assert (H : distinct_ids (scenario_world p1_p2_config [] 0)) by constructor.
  split; [exact H|].
  apply (session_ids_stay_distinct
           [Dispatch (host_on "p1/m1") 1000 scenario_event;
            Tick (host_on "p2/m2") 100000000 DAY_MS;
            Dispatch (host_on "p1/m1") 100001000 scenario_event]
           (scenario_world p1_p2_config [] 0)).
  exact H.
Defined.

Lemma sweep_world_proceeds (exhausted : Z) :
  sweep_proceeds 100000000 DAY_MS (sweep_world exhausted) (sweep_data exhausted).
Proof. repeat split. vm_compute. discriminate. Qed.

Lemma sweep_world_distinct (exhausted : Z) : distinct_ids (sweep_world exhausted).
Proof. repeat constructor. intros []. Qed.

Lemma sweep_world_eligible :
  eligible p1_p2_config 100000000 (threshold_of DAY_MS)
    (scenario_record 1000 "p1/m1" "p2/m2" None)
    {| providerId := JStr "p1"; modelId := JStr "m1" |}
    {| providerId := JStr "p2"; modelId := JStr "m2" |}.
Proof.
  repeat split; [discriminate | vm_compute; discriminate].
Qed.

Lemma ineligible_record_is_skipped_witness :
  let r := scenario_record 90000000 "p1/m1" "p2/m2" None in
  let w := sweep_world 90000000 in
  let w' := snd (runRestoreCheck (host_on "p2/m2") 100000000 DAY_MS w) in
  sweep_proceeds 100000000 DAY_MS w (sweep_data 90000000)
  /\ 100000000 - record_exhaustedAt r < threshold_of DAY_MS
  /\ record_of "s1" w' = Some r
  /\ exists issued,
       trace w' = (trace w ++ issued)%list
       /\ forallb (not_about "s1") issued = true.
Proof.
  cbv zeta.
  assert (Hyoung : 100000000
                   - record_exhaustedAt (scenario_record 90000000 "p1/m1" "p2/m2" None)
                   < threshold_of DAY_MS) by reflexivity.
  split; [apply sweep_world_proceeds|]. split; [exact Hyoung|].
  apply (ineligible_record_is_skipped (host_on "p2/m2") 100000000 DAY_MS
           (sweep_world 90000000) (sweep_data 90000000) "s1"
           (scenario_record 90000000 "p1/m1" "p2/m2" None));
    [apply sweep_world_proceeds | apply sweep_world_distinct | reflexivity
    | right; left; exact Hyoung].
Defined.

Lemma third_model_is_left_alone_witness :
  let r := scenario_record 1000 "p1/m1" "p2/m2" None in
  let w := sweep_world 1000 in
  let w' := snd (runRestoreCheck (host_on "p3/m3") 100000000 DAY_MS w) in
  session_reads (host_on "p3/m3") "s1"
    (Some {| providerId := JStr "p3"; modelId := JStr "m3" |})
  /\ record_of "s1" w' = Some r
  /\ exists issued,
       trace w' = (trace w ++ issued)%list
       /\ forallb (not_update_for "s1") issued = true.
Proof.
  cbv zeta.
  assert (Hreads : session_reads (host_on "p3/m3") "s1"
                     (Some {| providerId := JStr "p3"; modelId := JStr "m3" |}))
    by (intros w0; reflexivity).
  split; [exact Hreads|].
  apply (third_model_is_left_alone (host_on "p3/m3") 100000000 DAY_MS
           (sweep_world 1000) (sweep_data 1000) "s1"
           (scenario_record 1000 "p1/m1" "p2/m2" None)
           {| providerId := JStr "p1"; modelId := JStr "m1" |}
           {| providerId := JStr "p2"; modelId := JStr "m2" |}
           {| providerId := JStr "p3"; modelId := JStr "m3" |});
    [apply sweep_world_proceeds | apply sweep_world_distinct | reflexivity
    | apply sweep_world_eligible | exact Hreads | reflexivity | reflexivity].
Defined.

Lemma sweep_switches_back_witness :
  let r := scenario_record 1000 "p1/m1" "p2/m2" None in
  let w := sweep_world 1000 in
  let w' := snd (runRestoreCheck (host_on "p2/m2") 100000000 DAY_MS w) in
  session_reads (host_on "p2/m2") "s1"
    (Some {| providerId := JStr "p2"; modelId := JStr "m2" |})
  /\ update_returns (host_on "p2/m2") "s1"
       {| providerId := JStr "p1"; modelId := JStr "m1" |}
  /\ record_of "s1" w'
     = Some (with_restoredAt 100000000 (with_lastRestoreAttemptAt 100000000 r))
  /\ In (SessionUpdate "s1" (JStr "p1") (JStr "m1")) (trace w').
Proof.
  cbv zeta.
  assert (Hreads : session_reads (host_on "p2/m2") "s1"
                     (Some {| providerId := JStr "p2"; modelId := JStr "m2" |}))
    by (intros w0; reflexivity).
  assert (Hupd : update_returns (host_on "p2/m2") "s1"
                   {| providerId := JStr "p1"; modelId := JStr "m1" |})
    by (intros n; eexists; reflexivity).
  split; [exact Hreads|]. split; [exact Hupd|].
  destruct (sweep_switches_back (host_on "p2/m2") 100000000 DAY_MS
              (sweep_world 1000) (sweep_data 1000) "s1"
              (scenario_record 1000 "p1/m1" "p2/m2" None)
              {| providerId := JStr "p1"; modelId := JStr "m1" |}
              {| providerId := JStr "p2"; modelId := JStr "m2" |}
              (Some {| providerId := JStr "p2"; modelId := JStr "m2" |}))
    as (Hrecord & Hin & _);
    [apply sweep_world_proceeds | reflexivity | apply sweep_world_eligible
    | exact Hreads | split; reflexivity | exact Hupd | now split].
Defined.

Lemma failed_restore_is_logged_witness :
  let r := scenario_record 1000 "p1/m1" "p2/m2" None in
  let host := host_refusing_update "p2/m2" in
  let w := sweep_world 1000 in
  let w' := snd (runRestoreCheck host 100000000 DAY_MS w) in
  session_reads host "s1" (Some {| providerId := JStr "p2"; modelId := JStr "m2" |})
  /\ update_throws host "s1" {| providerId := JStr "p1"; modelId := JStr "m1" |}
  /\ record_of "s1" w' = Some (with_lastRestoreAttemptAt 100000000 r)
  /\ In (AppLog "warn" "Failed to restore primary model") (trace w').
Proof.
  cbv zeta.
  assert (Hreads : session_reads (host_refusing_update "p2/m2") "s1"
                     (Some {| providerId := JStr "p2"; modelId := JStr "m2" |}))
    by (intros w0; reflexivity).
  assert (Hupd : update_throws (host_refusing_update "p2/m2") "s1"
                   {| providerId := JStr "p1"; modelId := JStr "m1" |})
    by (intros n; reflexivity).
  split; [exact Hreads|]. split; [exact Hupd|].
  destruct (failed_restore_is_logged (host_refusing_update "p2/m2") 100000000 DAY_MS
              (sweep_world 1000) (sweep_data 1000) "s1"
              (scenario_record 1000 "p1/m1" "p2/m2" None)
              {| providerId := JStr "p1"; modelId := JStr "m1" |}
              {| providerId := JStr "p2"; modelId := JStr "m2" |}
              (Some {| providerId := JStr "p2"; modelId := JStr "m2" |}))
    as (_ & (record' & Hrecord & -> & _) & _ & Hlog & _);
    [apply sweep_world_proceeds | reflexivity | apply sweep_world_eligible
    | exact Hreads | split; reflexivity | exact Hupd | now split].
Defined.

Lemma sweep_saves_once_witness :
  let w := sweep_world 1000 in
  let w' := snd (runRestoreCheck (host_on "p2/m2") 100000000 DAY_MS w) in
  let path := "/project/.opencode/credit-switcher.state.json" in
  statePath (plugin w) = Some path
  /\ exists data' loop saved,
       stateData (plugin w') = Some data'
       /\ lastCheckAt data' = 100000000
       /\ trace w' = (trace w ++ loop ++ saved)%list
       /\ forallb not_file_call loop = true
       /\ (saved = [BunMkdir path; BunWrite path data']
           \/ saved = [BunMkdir path; AppLog "error" "Failed to save state"]
           \/ saved = [BunMkdir path; BunWrite path data';
                       AppLog "error" "Failed to save state"]).
Proof.
  cbv zeta. split; [reflexivity|].
  apply (sweep_saves_once (host_on "p2/m2") 100000000 DAY_MS
           (sweep_world 1000) (sweep_data 1000)
           "/project/.opencode/credit-switcher.state.json");
    [apply sweep_world_proceeds | reflexivity | reflexivity].
Defined.

Lemma list_setting_is_given_or_default_witness :
  let raw := JObj [("fallback", JObj [("onStatus", JNum 429)])] in
  exists merged,
    Startup.normalizeConfig raw = Some merged
    /\ prop raw "fallback" = JObj [("onStatus", JNum 429)]
    /\ prop (prop merged "fallback") "onStatus" = JArr [JNum 402; JNum 429].
Proof.
  cbv zeta. eexists. split; [vm_compute; reflexivity|]. split; [reflexivity|].
  apply (list_setting_is_given_or_default
           (JObj [("fallback", JObj [("onStatus", JNum 429)])]) _
           "fallback" "onStatus" [("onStatus", JNum 429)]);
    [reflexivity | right; left; reflexivity | reflexivity
    | repeat constructor; intros []].
Defined.

Lemma settings_merge_with_defaults_witness :
  let raw := JObj [("primaryModel", JStr "p1/m1");
                   ("restore", JObj [("intervalHours", JNum 6)])] in
  exists merged,
    Startup.normalizeConfig raw = Some merged
    /\ prop (prop merged "restore") "intervalHours" = JNum 6
    /\ prop (prop merged "restore") "enabled" = JBool true
    /\ prop merged "notifications" = prop Startup.DEFAULT_CONFIG "notifications"
    /\ prop merged "primaryModel" = JStr "p1/m1"
    /\ prop merged "fallbackModel" = JStr "llama.cpp/qwen3-coder:a3b".
Proof.
  cbv zeta. eexists. split; [vm_compute; reflexivity|].
  destruct (settings_merge_with_defaults
              (JObj [("primaryModel", JStr "p1/m1");
                     ("restore", JObj [("intervalHours", JNum 6)])]) _ eq_refl)
    as (Hsection & Hdefault & Htop).
  assert (Hkeys : NoDup (map fst [("intervalHours", JNum 6)]))
    by (repeat constructor; intros []).
  assert (Hraw : NoDup (map fst [("primaryModel", JStr "p1/m1");
                                 ("restore", JObj [("intervalHours", JNum 6)])])).
  { repeat constructor; cbn; intuition discriminate. }
  assert (Hrestore : In "restore" section_names) by (cbn; tauto).
  assert (Hplain : forall k, ~ In ("restore", k) list_settings)
    by (intros k; cbn; intuition discriminate).
  assert (Hother : forall k, In k ["primaryModel"; "fallbackModel"] ->
                             ~ In k section_names).
  { intros k [<-|[<-|[]]]; cbn; intuition discriminate. }
  split; [exact (Hsection "restore" "intervalHours" _ Hrestore (Hplain _) eq_refl Hkeys)|].
  split; [exact (Hsection "restore" "enabled" _ Hrestore (Hplain _) eq_refl Hkeys)|].
  split; [apply Hdefault; [cbn; tauto | reflexivity]|].
  split.
  - exact (Htop "primaryModel" _ (Hother _ (or_introl eq_refl)) eq_refl Hraw).
  - exact (Htop "fallbackModel" _ (Hother _ (or_intror (or_introl eq_refl)))
             eq_refl Hraw).
Defined.

Lemma env_config_wins_witness :
  let fs := one_file "/etc/credit-switcher.json" Startup.Broken in
  let env := {| Startup.OPENCODE_CREDIT_SWITCHER_CONFIG := Some "/etc/credit-switcher.json";
                Startup.HOME := Some "/home/u" |} in
  let w := scenario_world p1_p2_config [] 0 in
  fs "/etc/credit-switcher.json" <> Startup.Absent
  /\ exists loaded w',
       Startup.loadConfig fs (host_on "p1/m1")
         (Startup.getConfigPaths env (Some "/project") (Some "/project")) w
       = (Ok loaded, w')
       /\ Startup.path loaded = Some "/etc/credit-switcher.json"
       /\ Startup.config loaded = Startup.disabled.
Proof.
  cbv zeta. split; [discriminate|].
  apply (env_config_wins (one_file "/etc/credit-switcher.json" Startup.Broken)
           (host_on "p1/m1")
           {| Startup.OPENCODE_CREDIT_SWITCHER_CONFIG := Some "/etc/credit-switcher.json";
              Startup.HOME := Some "/home/u" |}
           (Some "/project") (Some "/project") "/etc/credit-switcher.json"
           (scenario_world p1_p2_config [] 0));
    [reflexivity | reflexivity | discriminate].
Defined.

Lemma hasRequiredProviders_exact_witness :
  let providers :=
    [JObj [("id", JStr ""); ("providerID", JStr "Azure-OpenAI")];
     JObj [("name", JStr "anthropic")]] in
  let host :=
    scenario_host (JStr "p1/m1") providers (Returned JUndefined) (Returned JUndefined) in
  let w := scenario_world (scenario_config "p1/m1" "p2/m2" ["azure-openai"] false) [] 0 in
  lists_providers host providers
  /\ provider_listed providers "azure-openai"
  /\ ~ provider_listed providers "openai"
  /\ hasRequiredProviders host (config (plugin w)) w = (Ok true, push ConfigProviders w)
  /\ hasRequiredProviders host
       (scenario_config "p1/m1" "p2/m2" ["azure-openai"; "openai"] false) w
     = (Ok false, push ConfigProviders w).
Proof.
  cbv zeta.
  set (providers := [JObj [("id", JStr ""); ("providerID", JStr "Azure-OpenAI")];
                     JObj [("name", JStr "anthropic")]]).
  set (host := scenario_host (JStr "p1/m1") providers (Returned JUndefined)
                 (Returned JUndefined)).
  set (w := scenario_world (scenario_config "p1/m1" "p2/m2" ["azure-openai"] false) [] 0).
  assert (Hlists : lists_providers host providers).
  { intros n. eexists. split; reflexivity. }
  assert (Hlisted : provider_listed providers "azure-openai").
  { exists (JObj [("id", JStr ""); ("providerID", JStr "Azure-OpenAI")]),
      (JStr "Azure-OpenAI").
    split; [left; reflexivity|]. split.
    - split; [reflexivity|]. right. left. split; reflexivity.
    - cbn; repeat split; unfold same_letter; cbn; lia. }
  assert (Hnot : ~ provider_listed providers "openai").
  { intros (provider & name & Hin & (Htruthy & Hname) & Hsame).
    destruct Hin as [<-|[<-|[]]];
      destruct Hname as [->|[[_ ->]|(_ & _ & ->)]];
      try discriminate Htruthy; cbn in Hsame; unfold same_letter in Hsame;
      cbn in Hsame; lia. }
  split; [exact Hlists|]. split; [exact Hlisted|]. split; [exact Hnot|].
  split.
  - destruct (hasRequiredProviders_exact host (config (plugin w)) w) as [_ H].
    destruct (H providers) as (passed & Hrun & Hiff);
      [discriminate | exact Hlists | discriminate | discriminate|].
    rewrite Hrun. replace passed with true; [reflexivity|].
    symmetry. apply Hiff. intros required [<-|[]]. exact Hlisted.
  - destruct (hasRequiredProviders_exact host
                (scenario_config "p1/m1" "p2/m2" ["azure-openai"; "openai"] false) w)
      as [_ H].
    destruct (H providers) as (passed & Hrun & Hiff);
      [discriminate | exact Hlists | discriminate | discriminate|].
    rewrite Hrun. destruct passed; [|reflexivity].
    exfalso. apply Hnot. apply Hiff; [reflexivity|]. right. left. reflexivity.
Defined.

(** ** The asynchronous functions, run without interruption

    A task that is resumed at once at each of its [await]s, with nothing else
    running in between, does what the function does when it is run from its
    first line to its last. *)

Section Complete.

Variable host : Host.

Lemma complete_bind {A B : Type} (t : Async.Task A) (k : A -> Async.Task B)
    (w : World) :
  Async.complete host (Async.bind t k) w
  = bind (Async.complete host t) (fun a => Async.complete host (k a)) w.
Proof.
  revert w. induction t as [a| |g IH|f next IH|next IH|c g IH]; intros w;
    cbn [Async.bind Async.complete]; unfold bind in *; cbn; auto.
Qed.

Lemma complete_try_catch {A : Type} (body handler : Async.Task A) (w : World) :
  Async.complete host (Async.try_catch body handler) w
  = try_catch (Async.complete host body) (Async.complete host handler) w.
Proof.
  revert w. induction body as [a| |g IH|f next IH|next IH|c g IH]; intros w;
    cbn [Async.try_catch Async.complete]; unfold try_catch in *; cbn; auto.
Qed.

Lemma complete_await {A : Type} (t : Async.Task A) (w : World) :
  Async.complete host (Async.await t) w = Async.complete host t w.
Proof.
  unfold Async.await. rewrite complete_try_catch. unfold try_catch.
  rewrite complete_bind. unfold bind.
  now destruct (Async.complete host t w) as [[a|] w1].
Qed.

Lemma complete_call (c : Call) (w : World) :
  Async.complete host (Async.call c) w = call host c w.
Proof.
  unfold Async.call, call. cbn [Async.complete].
  now destruct (reply host (length (trace w)) c).
Qed.

Lemma complete_safeLog (level message : string) (w : World) :
  Async.complete host (Async.safeLog level message) w = safeLog host level message w.
Proof.
  unfold Async.safeLog, safeLog.
  rewrite complete_try_catch. unfold try_catch.
  rewrite complete_bind. unfold bind. rewrite complete_call.
  now destruct (call host (AppLog level message) w) as [[r|] w1].
Qed.

Lemma complete_getProviders (w : World) :
  Async.complete host Async.getProviders w = getProviders host w.
Proof.
  unfold Async.getProviders, getProviders.
  rewrite complete_try_catch. unfold try_catch.
  rewrite complete_bind. unfold bind. rewrite complete_call.
  now destruct (call host ConfigProviders w) as [[r|] w1].
Qed.

Lemma complete_hasRequiredProviders (config : Config) (w : World) :
  Async.complete host (Async.hasRequiredProviders config) w
  = hasRequiredProviders host config w.
Proof.
  unfold Async.hasRequiredProviders, hasRequiredProviders. cbv zeta.
  destruct (licensing_requireProviders config) as [|r0 required]; [reflexivity|].
  rewrite complete_bind. unfold bind. rewrite complete_await, complete_getProviders.
  destruct (getProviders host w) as [[providers|] w1]; [|reflexivity].
  destruct (negb (truthy (length_of providers))); [reflexivity|].
  destruct providers; try reflexivity.
  now destruct (provider_names items).
Qed.

Lemma complete_getSessionModel (sessionId : string) (w : World) :
  Async.complete host (Async.getSessionModel sessionId) w
  = getSessionModel host sessionId w.
Proof.
  unfold Async.getSessionModel, getSessionModel.
  rewrite complete_try_catch. unfold try_catch.
  rewrite complete_bind. unfold bind. rewrite complete_call.
  now destruct (call host (SessionGet sessionId) w) as [[r|] w1].
Qed.

Lemma complete_setSessionModel (sessionId : string) (model : option ModelRef)
    (w : World) :
  Async.complete host (Async.setSessionModel sessionId model) w
  = setSessionModel host sessionId model w.
Proof.
  unfold Async.setSessionModel, setSessionModel.
  destruct model as [m|]; [|reflexivity].
  rewrite complete_try_catch. unfold try_catch.
  rewrite complete_bind. unfold bind. rewrite complete_call.
  now destruct (call host _ w) as [[r|] w1].
Qed.

Lemma complete_getLastUserMessage (sessionId : string) (w : World) :
  Async.complete host (Async.getLastUserMessage sessionId) w
  = getLastUserMessage host sessionId w.
Proof.
  unfold Async.getLastUserMessage, getLastUserMessage.
  rewrite complete_try_catch. unfold try_catch.
  rewrite complete_bind. unfold bind. rewrite complete_call.
  now destruct (call host (SessionMessages sessionId) w) as [[r|] w1].
Qed.

Lemma complete_confirmFallback (config : Config) (w : World) :
  Async.complete host (Async.confirmFallback host config) w
  = confirmFallback host config w.
Proof.
  unfold Async.confirmFallback, confirmFallback.
  destruct (negb (notifications_confirmOnFallback config)); [reflexivity|].
  destruct (negb (tui_showConfirm host)); [reflexivity|].
  rewrite complete_bind. unfold bind at 1 3.
  rewrite complete_try_catch. unfold try_catch.
  rewrite complete_bind. unfold bind at 1 2. rewrite complete_call.
  destruct (call host TuiShowConfirm w) as [[r|] w1]; [reflexivity|].
  rewrite complete_bind. unfold bind. rewrite complete_await, complete_safeLog.
  now destruct (safeLog host "debug" "Confirm prompt failed" w1) as [[r|] w2].
Qed.

(** [saveState] writes what the state holds at the time of the write: with
    nothing running in between, what it held at the call. *)
Lemma complete_saveState (path : option string) (data : PersistedState) (w : World) :
  stateData (plugin w) = Some data ->
  Async.complete host (Async.saveState path) w = saveState host path data w.
Proof.
  intros Hdata. unfold Async.saveState, saveState.
  destruct path as [p|]; [|reflexivity]. destruct (nonempty p); [|reflexivity].
  rewrite complete_try_catch. unfold try_catch.
  rewrite complete_bind. unfold bind at 1 2. rewrite complete_call.
  unfold call at 1 2.
  destruct (reply host (length (trace w)) (BunMkdir p)).
  - cbn [Async.get_plugin Async.bind Async.complete plugin push]. rewrite Hdata.
    rewrite complete_bind. unfold bind. rewrite complete_call.
    destruct (call host (BunWrite p data) (push (BunMkdir p) w)) as [[r|] w1];
      [reflexivity|].
    now rewrite complete_await, complete_safeLog.
  - now rewrite complete_await, complete_safeLog.
Qed.

End Complete.

Section CompleteHandler.

Variable host : Host.

Ltac m_step := cbv beta iota delta [bind modify get_plugin ret].

Lemma complete_offer (now : Z) (p : Plan) (w : World) (cfg : Config) :
  cfg = config (plugin w) ->
  Async.complete host
    (Async.bind (Async.await (Async.confirmFallback host cfg))
       (fun shouldRetry =>
          if negb shouldRetry
          then
            Async.bind (Async.modify (with_attempted (plan_sessionId p)))
              (fun _ => Async.await (Async.safeLog "info" "User declined fallback retry"))
          else
            Async.bind (Async.modify (with_attempted (plan_sessionId p)))
              (fun _ =>
                 Async.bind
                   (Async.await (Async.safeLog "info" "Retrying with fallback model"))
                   (fun _ =>
                      Async.bind
                        (Async.bind Async.get_plugin
                           (fun state =>
                              match stateData state with
                              | Some _ =>
                                  Async.bind
                                    (Async.modify
                                       (Async.store_record (plan_sessionId p)
                                          (fallback_record now p)))
                                    (fun _ =>
                                       Async.await (Async.saveState (statePath state)))
                              | None => Async.ret tt
                              end))
                        (fun _ =>
                           Async.bind
                             (Async.call (prompt_of p))
                             (fun _ =>
                                if notifications_toastOnFallback cfg
                                then Async.try_catch
                                       (Async.bind
                                          (Async.call
                                             (TuiShowToast
                                                "Credits exhausted. Switched to fallback model."
                                                "warning"))
                                          (fun _ => Async.ret tt))
                                       (Async.await (Async.safeLog "debug" "Toast failed"))
                                else Async.ret tt)))))) w
  = offer_fallback host now p w.
Proof.
  intros Hcfg.
  unfold offer_fallback. m_step. rewrite <- Hcfg.
  rewrite complete_bind. m_step. rewrite complete_await, complete_confirmFallback.
  destruct (confirmFallback host cfg w) as [[shouldRetry|] w1]; [|reflexivity].
  destruct shouldRetry; cbn [negb].
  - cbn [Async.modify Async.bind Async.complete].
    rewrite complete_bind. m_step. rewrite complete_await, complete_safeLog.
    cbn [plugin trace].
    destruct (safeLog host "info" "Retrying with fallback model" _)
      as [[r|] w2]; [|reflexivity].
    rewrite complete_bind. m_step.
    cbn [Async.get_plugin Async.bind Async.complete].
    assert (Htail : forall w3,
      Async.complete host
         (Async.bind (Async.call (prompt_of p))
            (fun _ : JsVal =>
             if notifications_toastOnFallback cfg
             then
              Async.try_catch
                (Async.bind
                   (Async.call
                      (TuiShowToast
                         "Credits exhausted. Switched to fallback model."
                         "warning"))
                   (fun _ : JsVal => Async.ret tt))
                (Async.await (Async.safeLog "debug" "Toast failed"))
             else Async.ret tt)) w3
      = (let (r1, w'0) :=
         call host
           (SessionPrompt (plan_sessionId p)
              (providerId (plan_fallbackModel p))
              (modelId (plan_fallbackModel p))
              (prop (plan_lastUserMessage p) "parts"))
           w3 in
       match r1 with
       | Ok _ =>
           (if notifications_toastOnFallback cfg
            then
             try_catch
               (fun w0 : World =>
                let (r2, w'1) :=
                  call host
                    (TuiShowToast
                       "Credits exhausted. Switched to fallback model."
                       "warning")
                    w0 in
                match r2 with
                | Ok _ => (Ok tt, w'1)
                | Exn => (Exn, w'1)
                end)
               (safeLog host "debug" "Toast failed")
            else fun w0 : World => (Ok tt, w0)) w'0
       | Exn => (Exn, w'0)
       end)).
    { intros w3. rewrite complete_bind. m_step. rewrite complete_call.
      unfold prompt_of.
      destruct (call host _ w3) as [[r1|] w4]; [|reflexivity].
      destruct (notifications_toastOnFallback cfg); [|reflexivity].
      rewrite complete_try_catch. unfold try_catch.
      rewrite complete_bind. m_step. rewrite complete_call.
      destruct (call host _ w4) as [[r3|] w5]; [reflexivity|].
      now rewrite complete_await, complete_safeLog. }
    destruct (stateData (plugin w2)) as [data|] eqn:Ed.
    + cbn [Async.complete]. rewrite complete_await.
      rewrite (complete_saveState host (statePath (plugin w2))
                 {| sessions := set_session (plan_sessionId p) (fallback_record now p)
                                  (sessions data);
                    lastCheckAt := lastCheckAt data |}).
      2:{ cbn [plugin]. unfold Async.store_record. now rewrite Ed. }
      unfold Async.store_record. rewrite Ed.
      destruct (saveState host _ _ _) as [[r'|] w3]; [|reflexivity].
      apply Htail.
    + cbn [Async.ret Async.complete]. apply Htail.
  - cbn [Async.modify Async.bind Async.complete].
    now rewrite complete_await, complete_safeLog.
Qed.

(** Run without interruption, the handler written with its [await]s is the
    handler: same result, same calls, same state. *)
Lemma complete_event_handler (now : Z) (event : JsVal) (w : World) :
  Async.complete host (Async.event_handler host now event) w
  = event_handler host now event w.
Proof.
  assert (Hrefl : forall a, same_plugin a a) by reflexivity.
  assert (Htrans : forall a b c, same_plugin a b -> same_plugin b c -> same_plugin a c).
  { unfold same_plugin. intros a b c H1 H2. now rewrite H2. }
  assert (Hcall : forall c a, (fun _ : Call => true) c = true -> same_plugin a (push c a))
    by reflexivity.
  pose proof (respects_hasRequiredProviders same_plugin Hrefl Htrans _ Hcall host)
    as Hproviders.
  pose proof (respects_getSessionModel same_plugin Hrefl Htrans _ Hcall host) as Hmodel.
  pose proof (respects_getLastUserMessage same_plugin Hrefl Htrans _ Hcall host)
    as Hmessage.
  unfold Async.event_handler, event_handler, fallback_checks. m_step.
  destruct (negb (truthy event) || _); [reflexivity|].
  cbn [Async.get_plugin Async.bind Async.complete]. 
  destruct (negb (enabled (config (plugin w)))); [reflexivity|].
  destruct (negb (isCreditExhausted event (config (plugin w)))); [reflexivity|].
  destruct (extractSessionId event) as [sessionId|].
  2:{ rewrite complete_await, complete_safeLog.
      now destruct (safeLog host "warn" "Credit error without session id" w)
        as [[[]|] w1]. }
  destruct (negb (nonempty sessionId)).
  { rewrite complete_await, complete_safeLog.
    now destruct (safeLog host "warn" "Credit error without session id" w)
      as [[[]|] w1]. }
  destruct (has (attemptedSessions (plugin w)) sessionId); [reflexivity|].
  rewrite complete_bind. m_step. rewrite complete_await, complete_hasRequiredProviders.
  specialize (Hproviders (config (plugin w)) eq_refl w).
  destruct (hasRequiredProviders host (config (plugin w)) w) as [[licensed|] w1];
    [|reflexivity].
  cbn [snd] in Hproviders.
  destruct (negb licensed).
  { rewrite complete_await, complete_safeLog.
    now destruct (safeLog host "warn" _ w1) as [[[]|] w2]. }
  destruct (parseModel (JStr (fallbackModel (config (plugin w))))) as [fallbackModel|].
  2:{ rewrite complete_await, complete_safeLog.
      now destruct (safeLog host "error" _ w1) as [[[]|] w2]. }
  rewrite complete_bind. m_step. rewrite complete_await, complete_getSessionModel.
  specialize (Hmodel sessionId eq_refl w1).
  destruct (getSessionModel host sessionId w1) as [[sessionModel|] w2]; [|reflexivity].
  cbn [snd] in Hmodel.
  destruct (provider_mismatch _ sessionModel); [reflexivity|].
  rewrite complete_bind. m_step. rewrite complete_await, complete_getLastUserMessage.
  specialize (Hmessage sessionId eq_refl w2).
  destruct (getLastUserMessage host sessionId w2) as [[[entry|]|] w3]; [| |reflexivity].
  2:{ rewrite complete_await, complete_safeLog.
      now destruct (safeLog host "warn" _ w3) as [[[]|] w4]. }
  cbn [snd] in Hmessage.
  apply (complete_offer now
           {| plan_sessionId := sessionId;
              plan_primaryModel := parseModel (JStr (primaryModel (config (plugin w))));
              plan_fallbackModel := fallbackModel;
              plan_sessionModel := sessionModel;
              plan_lastUserMessage := entry |} w3).
  unfold same_plugin in *. congruence.
Qed.

End CompleteHandler.
(** ** The sweep run without interruption *)

Section HostOnly.

Variable host : Host.

Lemma host_only_ret {A : Type} (a : A) : host_only (ret a).
Proof. intros s w. reflexivity. Qed.

Lemma host_only_bind {A B : Type} (m : M A) (k : A -> M B) :
  host_only m -> (forall a, host_only (k a)) -> host_only (bind m k).
Proof.
  intros Hm Hk s w. unfold bind. rewrite Hm.
  destruct (m w) as [[a|] w1]; cbn [fst snd]; [apply Hk | reflexivity].
Qed.

Lemma host_only_try_catch {A : Type} (body handler : M A) :
  host_only body -> host_only handler -> host_only (try_catch body handler).
Proof.
  intros Hb Hh s w. unfold try_catch. rewrite Hb.
  destruct (body w) as [[a|] w1]; cbn [fst snd]; [reflexivity | apply Hh].
Qed.

Lemma host_only_call (c : Call) : host_only (call host c).
Proof.
  intros s w. unfold call. cbn [with_plugin trace].
  now destruct (reply host (length (trace w)) c).
Qed.

Lemma host_only_safeLog (level message : string) :
  host_only (safeLog host level message).
Proof.
  unfold safeLog.
  repeat first [apply host_only_try_catch | apply host_only_bind | intros ?
               | apply host_only_call | apply host_only_ret].
Qed.

Lemma host_only_getSessionModel (sessionId : string) :
  host_only (getSessionModel host sessionId).
Proof.
  unfold getSessionModel.
  repeat first [apply host_only_try_catch | apply host_only_bind | intros ?
               | apply host_only_call | apply host_only_ret].
Qed.

Lemma host_only_setSessionModel (sessionId : string) (model : option ModelRef) :
  host_only (setSessionModel host sessionId model).
Proof.
  unfold setSessionModel. destruct model;
  repeat first [apply host_only_try_catch | apply host_only_bind | intros ?
               | apply host_only_call | apply host_only_ret].
Qed.

Lemma update_session_other (sessionId : string)
    (f : FallbackRecord.t -> FallbackRecord.t)
    (entries : list (string * FallbackRecord.t)) :
  ~ In sessionId (map fst entries) ->
  Async.update_session sessionId f entries = entries.
Proof.
  induction entries as [|[k r] rest IH]; [reflexivity|].
  cbn [map fst In]. intros H. unfold Async.update_session. cbn [map fst snd].
  destruct (String.eqb_spec k sessionId) as [->|_]; [tauto|].
  f_equal. apply IH. tauto.
Qed.

Lemma update_session_at (sessionId : string)
    (f : FallbackRecord.t -> FallbackRecord.t) (record : FallbackRecord.t)
    (pre rest : list (string * FallbackRecord.t)) :
  ~ In sessionId (map fst pre) ->
  ~ In sessionId (map fst rest) ->
  Async.update_session sessionId f (pre ++ (sessionId, record) :: rest)%list
  = (pre ++ (sessionId, f record) :: rest)%list.
Proof.
  intros Hpre Hrest. unfold Async.update_session. rewrite map_app. cbn [map fst snd].
  rewrite String.eqb_refl.
  pose proof (update_session_other sessionId f pre Hpre) as Epre.
  pose proof (update_session_other sessionId f rest Hrest) as Erest.
  unfold Async.update_session in Epre, Erest. now rewrite Epre, Erest.
Qed.


Lemma mutate_record_at (sessionId : string)
    (f : FallbackRecord.t -> FallbackRecord.t) (record : FallbackRecord.t)
    (pre rest : list (string * FallbackRecord.t)) (s : PluginState) (l : Z) :
  ~ In sessionId (map fst pre) ->
  ~ In sessionId (map fst rest) ->
  Async.mutate_record sessionId f
    (checked_state s l (pre ++ (sessionId, record) :: rest)%list)
  = checked_state s l (pre ++ (sessionId, f record) :: rest)%list.
Proof.
  intros Hpre Hrest. unfold Async.mutate_record, checked_state.
  cbn [stateData with_stateData sessions lastCheckAt].
  now rewrite update_session_at.
Qed.

Ltac m_step := cbv beta iota delta [bind modify get_plugin ret].

Lemma complete_toast (message variant failed : string) (w : World) :
  Async.complete host
    (Async.try_catch
       (Async.bind (Async.call (TuiShowToast message variant))
          (fun _ => Async.ret tt))
       (Async.await (Async.safeLog "debug" failed))) w
  = try_catch (bind (call host (TuiShowToast message variant)) (fun _ => ret tt))
      (safeLog host "debug" failed) w.
Proof.
  rewrite complete_try_catch. unfold try_catch.
  rewrite complete_bind. unfold bind. rewrite complete_call.
  destruct (call host _ w) as [[r|] w1]; [reflexivity|].
  now rewrite complete_await, complete_safeLog.
Qed.

Lemma complete_restore_record (config : Config) (now threshold : Z)
    (sessionId : string) (record record' : FallbackRecord.t)
    (pre rest : list (string * FallbackRecord.t)) (s : PluginState) (l : Z)
    (w w' : World) :
  ~ In sessionId (map fst pre) ->
  ~ In sessionId (map fst rest) ->
  restore_record host config now threshold sessionId record w = (Ok record', w') ->
  Async.complete host (Async.restore_record config now threshold sessionId record)
    (with_plugin (checked_state s l (pre ++ (sessionId, record) :: rest)%list) w)
  = (Ok tt,
     with_plugin (checked_state s l (pre ++ (sessionId, record') :: rest)%list) w').
Proof.
  intros Hpre Hrest. unfold restore_record, Async.restore_record. cbv zeta.
  destruct ((record_exhaustedAt record =? 0) || _).
  { intros [= <- <-]. reflexivity. }
  destruct (record_originalModel config record) as [originalModel|].
  2:{ intros [= <- <-]. reflexivity. }
  destruct (record_fallbackModel config record) as [fallbackModel|].
  2:{ intros [= <- <-]. reflexivity. }
  rewrite complete_bind. m_step.
  rewrite complete_await, complete_getSessionModel, host_only_getSessionModel.
  destruct (getSessionModel host sessionId w) as [[sessionModel|] w1];
    cbn [fst snd]; [|discriminate].
  destruct (is_some sessionModel && modelsEqual sessionModel (Some originalModel)).
  { intros [= <- <-]. cbn [Async.modify Async.complete with_plugin plugin trace].
    now rewrite mutate_record_at. }
  destruct (is_some sessionModel && negb (modelsEqual sessionModel (Some fallbackModel))).
  { intros [= <- <-]. reflexivity. }
  rewrite complete_bind. m_step.
  rewrite complete_await, complete_setSessionModel, host_only_setSessionModel.
  destruct (setSessionModel host sessionId (Some originalModel) w1) as [[updated|] w2];
    cbn [fst snd]; [|discriminate].
  cbn [Async.modify Async.bind Async.complete with_plugin plugin trace].
  rewrite mutate_record_at by assumption.
  destruct updated.
  - cbn [Async.modify Async.bind Async.complete with_plugin plugin trace].
    rewrite mutate_record_at by assumption.
    destruct (notifications_toastOnRestore config).
    + match goal with
      | |- context [try_catch ?body ?handler w2] => set (toast := try_catch body handler)
      end.
      assert (Htoast : host_only toast).
      { subst toast.
        repeat first [apply host_only_try_catch | apply host_only_bind | intros ?
                     | apply host_only_call | apply host_only_ret
                     | apply host_only_safeLog]. }
      fold (with_plugin
              (checked_state s l
                 (pre ++ (sessionId,
                          with_restoredAt now (with_lastRestoreAttemptAt now record))
                      :: rest)%list) w2).
      rewrite complete_toast.
      change (try_catch _ _) with toast.
      rewrite Htoast.
      destruct (toast w2) as [[[]|] w3]; cbn [fst snd]; [|discriminate].
      intros [= <- <-]. reflexivity.
    + intros [= <- <-]. reflexivity.
  - rewrite complete_await, complete_safeLog.
    fold (with_plugin
            (checked_state s l
               (pre ++ (sessionId, with_lastRestoreAttemptAt now record) :: rest)%list)
            w2).
    rewrite host_only_safeLog.
    destruct (safeLog host "warn" "Failed to restore primary model" w2) as [[[]|] w3];
      cbn [fst snd]; [|discriminate].
    intros [= <- <-]. reflexivity.
Qed.

Lemma complete_sweep_records (config : Config) (now threshold : Z) (s : PluginState)
    (l : Z) (rest : list (string * FallbackRecord.t)) :
  forall (pre entries : list (string * FallbackRecord.t)) (w w' : World),
    NoDup (map fst (pre ++ rest)%list) ->
    sweep_records host config now threshold rest w = (Ok entries, w') ->
    Async.complete host (Async.sweep_records config now threshold rest)
      (with_plugin (checked_state s l (pre ++ rest)%list) w)
    = (Ok tt, with_plugin (checked_state s l (pre ++ entries)%list) w').
Proof.
  induction rest as [|[sessionId record] rest IH]; intros pre entries w w' Hdistinct.
  - intros [= <- <-]. reflexivity.
  - cbn [sweep_records Async.sweep_records]. m_step.
    destruct (restore_record host config now threshold sessionId record w)
      as [[record'|] w1] eqn:Erecord; [|discriminate].
    destruct (sweep_records host config now threshold rest w1)
      as [[rest'|] w2] eqn:Erest; [|discriminate].
    intros [= <- <-].
    rewrite map_app in Hdistinct. cbn [map fst] in Hdistinct.
    pose proof (NoDup_remove_2 _ _ _ Hdistinct) as Hnotin.
    rewrite complete_bind. m_step.
    assert (Hpre : ~ In sessionId (map fst pre)).
    { intros Hin. apply Hnotin, in_or_app. now left. }
    assert (Hrest : ~ In sessionId (map fst rest)).
    { intros Hin. apply Hnotin, in_or_app. now right. }
    rewrite (complete_restore_record config now threshold sessionId record record'
               pre rest s l w w1 Hpre Hrest Erecord).
    replace (pre ++ (sessionId, record') :: rest)%list
      with ((pre ++ [(sessionId, record')]) ++ rest)%list
      by (now rewrite <- app_assoc).
    assert (Hdistinct' : NoDup (map fst ((pre ++ [(sessionId, record')]) ++ rest)%list)).
    { rewrite !map_app. cbn [map fst]. now rewrite <- app_assoc. }
    rewrite (IH (pre ++ [(sessionId, record')])%list rest' w1 w2 Hdistinct' Erest).
    now rewrite <- app_assoc.
Qed.

(** Run without interruption, the sweep written with its [await]s is the
    sweep: same result, same calls, same state. *)
Lemma complete_runRestoreCheck (now intervalMs : Z) (w : World) :
  distinct_ids w ->
  Async.complete host (Async.runRestoreCheck now intervalMs) w
  = runRestoreCheck host now intervalMs w.
Proof.
  intros Hdistinct. unfold Async.runRestoreCheck, runRestoreCheck. m_step.
  cbn [Async.get_plugin Async.bind Async.complete].
  destruct (negb (restore_enabled (config (plugin w)))); [reflexivity|].
  unfold distinct_ids in Hdistinct.
  destruct (stateData (plugin w)) as [data|] eqn:Edata; [|reflexivity].
  destruct (now - lastCheckAt data <? threshold_of intervalMs); [reflexivity|].
  cbn [Async.modify Async.bind Async.complete].
  rewrite complete_bind. m_step.
  set (w1 := {| plugin := Async.stamp_lastCheckAt now (plugin w); trace := trace w |}).
  assert (Ew1 : {| plugin := with_stateData
                               (Some {| sessions := sessions data; lastCheckAt := now |})
                               (plugin w);
                   trace := trace w |} = w1).
  { unfold w1, Async.stamp_lastCheckAt. now rewrite Edata. }
  rewrite Ew1.
  assert (Es : with_plugin (checked_state (plugin w) now ([] ++ sessions data)%list) w1
               = w1).
  { rewrite <- Ew1. reflexivity. }
  destruct (returns_sweep_records host (config (plugin w)) now
              (threshold_of intervalMs) (sessions data) w1) as [entries Hok].
  destruct (sweep_records host (config (plugin w)) now (threshold_of intervalMs)
              (sessions data) w1) as [r w2] eqn:Esweep.
  cbn [fst] in Hok. subst r.
  rewrite <- Es at 1.
  rewrite (complete_sweep_records _ _ _ _ _ _ [] entries w1 w2 Hdistinct Esweep).
  cbn [app]. rewrite complete_await.
  pose proof (sweep_records_only_calls host (config (plugin w)) now
                (threshold_of intervalMs) (sessions data) w1) as [Hplugin _].
  rewrite Esweep in Hplugin. cbn [snd] in Hplugin.
  assert (Ew2 : with_plugin (checked_state (plugin w) now entries) w2
                = {| plugin := with_stateData
                                 (Some {| sessions := entries; lastCheckAt := now |})
                                 (plugin w2);
                     trace := trace w2 |}).
  { unfold with_plugin, checked_state. rewrite Hplugin, <- Ew1. reflexivity. }
  rewrite Ew2.
  apply complete_saveState. reflexivity.
Qed.

End HostOnly.
